(** * Checkpoint / resume core of the video pipeline

    A shallow embedding of the two resumable state machines of the
    repository:

    - [AutoEdit]   : [src/auto_edit.py], class [VideoEditor] (chunk
                     computation, per-chunk processing, the [run] driver);
    - [StateStore] : [src/update/src/state_store.py], class [StateStore]
                     (job records, retry back-off, session time-to-live).

    Python code that touches the disk, the clock or an external tool is
    written in a small state-and-exception monad; [try]/[except]/[finally]
    are combinators of that monad.  Python integers are [Z]; a Python
    float is the rational ([Q]) it denotes.  Chunk boundaries, session
    ages and back-off delays are computed on these rationals exactly, the
    overflow of the back-off power apart, which is modelled; the
    arithmetic of the SRT time stamps is rounded to binary64 operation by
    operation. *)

From Stdlib Require Import ZArith QArith Qminmax Qround Qabs Qpower String Lia Lqa Bool.
From Stdlib Require Import DecimalString.
From stdpp Require Import base option list strings gmap.

Set Default Proof Using "Type".
Local Open Scope string_scope.

(* ===================================================================== *)
(** * Python control flow: a state and exception monad                   *)
(* ===================================================================== *)

(** The exceptions the two modules can meet.  All of them are subclasses
    of Python's [Exception], so a bare [except Exception] catches each. *)
Inductive Exn : Type :=
  | AttributeError (name : string)
  | CalledProcessError
  | FileNotFoundError
  | OSError
  | ValueError
  | JSONDecodeError
  | ZeroDivisionError
  | OverflowError
  | UnicodeDecodeError.

(** What running a piece of code yields: a value, a raised exception, or
    no answer at all (a [while] loop that ran out of fuel). *)
Inductive outcome (A : Type) : Type :=
  | Returned (a : A)
  | Raised (e : Exn)
  | Diverged.
Arguments Returned {A} a.
Arguments Raised {A} e.
Arguments Diverged {A}.

Definition M (W A : Type) : Type := W -> outcome A * W.

Definition ret {W A} (a : A) : M W A := fun w => (Returned a, w).

Definition bind {W A B} (m : M W A) (k : A -> M W B) : M W B :=
  fun w =>
    match m w with
    | (Returned a, w') => k a w'
    | (Raised e, w') => (Raised e, w')
    | (Diverged, w') => (Diverged, w')
    end.

Definition raise {W A} (e : Exn) : M W A := fun w => (Raised e, w).
Definition diverge {W A} : M W A := fun w => (Diverged, w).
Definition get {W} : M W W := fun w => (Returned w, w).
Definition gets {W A} (f : W -> A) : M W A := fun w => (Returned (f w), w).
Definition modify {W} (f : W -> W) : M W unit := fun w => (Returned tt, f w).

(** [try: body except Exception as e: handler e] *)
Definition try_except {W A} (body : M W A) (handler : Exn -> M W A) : M W A :=
  fun w =>
    match body w with
    | (Raised e, w') => handler e w'
    | r => r
    end.

(** [try: body except <one class>: handler]; [catches e] tells whether the
    [except] clause matches the exception. *)
Definition try_except_only {W A} (catches : Exn -> bool)
    (body : M W A) (handler : Exn -> M W A) : M W A :=
  fun w =>
    match body w with
    | (Raised e, w') => if catches e then handler e w' else (Raised e, w')
    | r => r
    end.

(** [try: body finally: cleanup].  The cleanup runs on every exit of the
    body that Python sees (a return or an exception); an exception of the
    cleanup itself replaces the outcome of the body. *)
Definition try_finally {W A} (body : M W A) (cleanup : M W unit) : M W A :=
  fun w =>
    match body w with
    | (Diverged, w') => (Diverged, w')
    | (r, w') =>
        match cleanup w' with
        | (Returned _, w'') => (r, w'')
        | (Raised e, w'') => (Raised e, w'')
        | (Diverged, w'') => (Diverged, w'')
        end
    end.

Declare Scope py_scope.
Delimit Scope py_scope with py.
Notation "x <- m ;; k" := (bind m (fun x => k))
  (at level 100, m at next level, right associativity) : py_scope.
Notation "m ;;; k" := (bind m (fun _ => k))
  (at level 100, right associativity) : py_scope.
Local Open Scope py_scope.

(** [for x in xs: body x] *)
Fixpoint for_each {W A} (xs : list A) (body : A -> M W unit) : M W unit :=
  match xs with
  | [] => ret tt
  | x :: xs' => bind (body x) (fun _ => for_each xs' body)
  end.

(** Python truthiness of an optional string: [None] and [""] are falsy. *)
Definition truthy (s : option string) : bool :=
  match s with
  | Some (String _ _) => true
  | _ => false
  end.

Definition is_called_process_error (e : Exn) : bool :=
  match e with CalledProcessError => true | _ => false end.

Definition is_called_process_or_not_found (e : Exn) : bool :=
  match e with CalledProcessError | FileNotFoundError => true | _ => false end.

(* ===================================================================== *)
(** * [auto_edit.py]: the chunked, resumable edit pipeline                *)
(* ===================================================================== *)

Module AutoEdit.

(** ** Data model *)

(** [@dataclass EditConfig] *)
Record EditConfig : Type := {
  input_video : string;
  output_video : string;
  speed_multiplier : Q;
  remove_silence : bool;
  apply_transitions : bool;
  apply_zoom_effects : bool;
  add_subtitles : bool;
  add_subscribe_popup : bool;
  add_sound_effects : bool;
  background_music : option string;
  chunk_duration : Z;
  max_workers : Z;
  extract_subtitles : bool;
  generate_metadata : bool;
  openrouter_api_key : option string
}.

(** [@dataclass ChunkInfo] *)
Record ChunkInfo : Type := {
  chunk_id : nat;
  start_time : Q;
  end_time : Q;
  duration : Q;
  input_path : string;
  output_path : string;
  processed : bool;
  checksum : option string
}.

Definition set_processed (c : ChunkInfo) (sum : string) : ChunkInfo :=
  {| chunk_id := chunk_id c; start_time := start_time c;
     end_time := end_time c; duration := duration c;
     input_path := input_path c; output_path := output_path c;
     processed := true; checksum := Some sum |}.

(** The [metadata] bag of the edit state: the keys [run] and
    [_calculate_chunks] write, each absent ([None]) until written. *)
Record Metadata : Type := {
  input_checksum : option string;
  total_chunks : option nat;
  total_duration : option Q;
  concat_output : option string;
  transcript : option string
}.

Definition empty_metadata : Metadata :=
  {| input_checksum := None; total_chunks := None; total_duration := None;
     concat_output := None; transcript := None |}.

(** The JSON document [edit_state.json], also held in [self.state]. *)
Record EditState : Type := {
  chunks : list ChunkInfo;
  current_step : option string;
  completed_steps : list string;
  metadata : Metadata
}.

(** What [_load_state] returns when there is no state file. *)
Definition initial_state : EditState :=
  {| chunks := []; current_step := Some "init"; completed_steps := [];
     metadata := empty_metadata |}.

(** What the program can observe of a media file: its SHA-256 digest, and
    what [ffprobe] reports of it ([None]: [ffprobe] fails on the file, or
    what it prints does not decode or parse; the two probes read their
    output with [text=True], and a decoding error there is a
    [ValueError] like a parsing error, no handler telling them apart). *)
Record File : Type := {
  sha256 : string;
  probe_duration : option Q;
  probe_dimensions : option (Z * Z)
}.

(** The [VideoEditor] object: the attributes [__init__] sets, apart from
    [self.state], which is mutable and lives in the machine state. *)
Record VideoEditor : Type := {
  config : EditConfig;
  work_dir : string
}.

(** [work_dir / name] *)
Definition path_join (dir name : string) : string := dir ++ "/" ++ name.

Definition chunks_dir (self : VideoEditor) : string := path_join (work_dir self) "chunks".
Definition temp_dir (self : VideoEditor) : string := path_join (work_dir self) "temp".
Definition state_file (self : VideoEditor) : string :=
  path_join (work_dir self) "edit_state.json".

(** Attribute lookup on the instance, by name.  [__init__] defines
    [work_dir], [chunks_dir], [temp_dir] and [state_file] as paths; any
    other path attribute is an [AttributeError]. *)
Definition path_attribute (self : VideoEditor) (name : string) : option string :=
  if String.eqb name "work_dir" then Some (work_dir self)
  else if String.eqb name "chunks_dir" then Some (chunks_dir self)
  else if String.eqb name "temp_dir" then Some (temp_dir self)
  else if String.eqb name "state_file" then Some (state_file self)
  else None.

(** The external tools the editor runs, one constructor per command line
    the source builds. *)
Inductive Tool : Type :=
  | SplitCopy (start length : Q)
  | SilenceRemove
  | SpeedChange (speed : Q)
  | SceneDetect (variant : nat)
  | DynamicZoom
  | SimpleZoom
  | ColorGrade
  | AudioEnhance
  | Reencode.

(** The machine: the in-memory [self.state], the local list
    [temp_files] of the running [_process_chunk], and the disk; and of
    the environment, whether the state file can be written, whether
    [ffprobe] is installed, and whether what a tool prints, run on given
    paths and files, decodes as text in the encoding of the locale (only
    a [subprocess.run] with [text=True] asks). *)
Record World : Type := {
  mem : EditState;
  temp_files : list string;
  files : gmap string File;
  dirs : gset string;
  state_json : option EditState;
  state_writable : bool;
  ffprobe_installed : bool;
  output_decodes : Tool -> string -> string -> gmap string File -> bool;
  log : list string
}.

Definition set_mem (f : EditState -> EditState) (w : World) : World :=
  {| mem := f (mem w); temp_files := temp_files w; files := files w;
     dirs := dirs w; state_json := state_json w;
     state_writable := state_writable w;
     ffprobe_installed := ffprobe_installed w;
     output_decodes := output_decodes w; log := log w |}.

Definition set_temp_files (f : list string -> list string) (w : World) : World :=
  {| mem := mem w; temp_files := f (temp_files w); files := files w;
     dirs := dirs w; state_json := state_json w;
     state_writable := state_writable w;
     ffprobe_installed := ffprobe_installed w;
     output_decodes := output_decodes w; log := log w |}.

Definition set_files (f : gmap string File -> gmap string File) (w : World) : World :=
  {| mem := mem w; temp_files := temp_files w; files := f (files w);
     dirs := dirs w; state_json := state_json w;
     state_writable := state_writable w;
     ffprobe_installed := ffprobe_installed w;
     output_decodes := output_decodes w; log := log w |}.

Definition set_dirs (f : gset string -> gset string) (w : World) : World :=
  {| mem := mem w; temp_files := temp_files w; files := files w;
     dirs := f (dirs w); state_json := state_json w;
     state_writable := state_writable w;
     ffprobe_installed := ffprobe_installed w;
     output_decodes := output_decodes w; log := log w |}.

Definition set_state_json (s : option EditState) (w : World) : World :=
  {| mem := mem w; temp_files := temp_files w; files := files w;
     dirs := dirs w; state_json := s;
     state_writable := state_writable w;
     ffprobe_installed := ffprobe_installed w;
     output_decodes := output_decodes w; log := log w |}.

Definition add_log (line : string) (w : World) : World :=
  {| mem := mem w; temp_files := temp_files w; files := files w;
     dirs := dirs w; state_json := state_json w;
     state_writable := state_writable w;
     ffprobe_installed := ffprobe_installed w;
     output_decodes := output_decodes w; log := log w ++ [line] |}.

Abbreviation Py := (M World).

(** [logger.info], [logger.warning], [logger.error] *)
Definition logger (line : string) : Py unit := modify (add_log line).


(** ** Disk and subprocess primitives *)

(** How one subprocess ends: exit status 0 having written its output
    file, a non-zero exit status (possibly leaving a partial output file),
    or the program is not installed. *)
Inductive ExecResult : Type :=
  | Exit0 (out : File)
  | ExitNonZero (partial : option File)
  | NoSuchProgram.

(** [Path(p).exists()] *)
Definition path_exists (p : string) : Py bool :=
  gets (fun w => bool_decide (is_Some (files w !! p))).

(** [shutil.copy2(src, dst)] *)
Definition copy2 (src dst : string) : Py unit :=
  w <- get ;;
  match files w !! src with
  | Some f => modify (set_files (insert dst f))
  | None => raise FileNotFoundError
  end.

(** [Path(p).unlink()] *)
Definition unlink (p : string) : Py unit :=
  w <- get ;;
  match files w !! p with
  | Some _ => modify (set_files (delete p))
  | None => raise FileNotFoundError
  end.

(** [shutil.rmtree(d)]: the directory and every file below it go. *)
Definition rmtree (d : string) : Py unit :=
  modify (set_files (filter (fun kv => negb (String.prefix (d ++ "/") kv.1) = true))) ;;;
  modify (set_dirs (fun ds => ds ∖ {[ d ]})).

(** [d.mkdir(parents=True, exist_ok=True)] *)
Definition mkdir (d : string) : Py unit := modify (set_dirs (fun ds => ds ∪ {[ d ]})).

Definition dir_exists (d : string) : Py bool := gets (fun w => bool_decide (d ∈ dirs w)).

(** [getattr(self, name)] for the path attributes. *)
Definition getattr (self : VideoEditor) (name : string) : Py string :=
  match path_attribute self name with
  | Some p => ret p
  | None => raise (AttributeError name)
  end.

(** [f"{chunk_id:03d}"] *)
Definition format_03d (n : nat) : string :=
  let s := NilZero.string_of_uint (Nat.to_uint n) in
  String.concat "" (repeat "0" (3 - String.length s)) ++ s.

(** [_load_state] *)
Definition _load_state : Py EditState :=
  w <- get ;;
  match state_json w with
  | Some s => ret s
  | None => ret initial_state
  end.

(** [_save_state]: the whole of [self.state] is written over the file. *)
Definition _save_state : Py unit :=
  w <- get ;;
  if state_writable w then modify (set_state_json (Some (mem w)))
  else raise OSError.

(** [VideoEditor.__init__] *)
Definition __init__ (self : VideoEditor) : Py unit :=
  mkdir (chunks_dir self) ;;;
  mkdir (temp_dir self) ;;;
  s <- _load_state ;;
  modify (set_mem (fun _ => s)).

(** [_calculate_checksum] *)
Definition _calculate_checksum (file_path : string) : Py string :=
  w <- get ;;
  match files w !! file_path with
  | Some f => ret (sha256 f)
  | None => raise FileNotFoundError
  end.

(** [_get_video_duration]: [ffprobe] with [check=True], then [float()] of
    what it printed. *)
Definition _get_video_duration (video_path : string) : Py Q :=
  w <- get ;;
  if negb (ffprobe_installed w) then
    logger "FFmpeg/ffprobe not found!" ;;; raise FileNotFoundError
  else
    match files w !! video_path with
    | None => raise CalledProcessError
    | Some f =>
        match probe_duration f with
        | Some d => ret d
        | None => raise ValueError
        end
    end.

Section Pipeline.

(** The behaviour of the external programs is not in the repository: it is
    an oracle telling, for a tool, its input and output paths and the
    files on disk, how the subprocess ends. *)
Variable exec : Tool -> string -> string -> gmap string File -> ExecResult.

(** Steps 4 to 10 of [run] (concatenation, subtitles, popup, music, final
    copy, transcription, metadata) come after everything stated here; they
    are kept as one opaque block. *)
Variable finish_pipeline : VideoEditor -> list ChunkInfo -> Py unit.

(** [subprocess.run(cmd, check=True, capture_output=True)] *)
Definition subprocess_run (t : Tool) (input output : string) : Py unit :=
  w <- get ;;
  match exec t input output (files w) with
  | Exit0 f => modify (set_files (insert output f))
  | ExitNonZero (Some f) =>
      modify (set_files (insert output f)) ;;; raise CalledProcessError
  | ExitNonZero None => raise CalledProcessError
  | NoSuchProgram => raise FileNotFoundError
  end.

(** [subprocess.run(cmd, check=True, capture_output=True, text=True)]: the
    captured output is decoded before the exit status is looked at, so
    output that does not decode raises [UnicodeDecodeError] whatever the
    status, once the program has run. *)
Definition subprocess_run_text (t : Tool) (input output : string) : Py unit :=
  w <- get ;;
  let decodes := output_decodes w t input output (files w) in
  match exec t input output (files w) with
  | Exit0 f =>
      modify (set_files (insert output f)) ;;;
      if decodes then ret tt else raise UnicodeDecodeError
  | ExitNonZero partial =>
      match partial with
      | Some f => modify (set_files (insert output f))
      | None => ret tt
      end ;;;
      raise (if decodes then CalledProcessError else UnicodeDecodeError)
  | NoSuchProgram => raise FileNotFoundError
  end.

(** ** Chunk boundaries *)

Definition make_chunk (self : VideoEditor) (id : nat) (start end_ : Q) : ChunkInfo :=
  {| chunk_id := id;
     start_time := start;
     end_time := end_;
     duration := end_ - start;
     input_path := path_join (chunks_dir self) ("chunk_" ++ format_03d id ++ "_input.mp4");
     output_path := path_join (chunks_dir self) ("chunk_" ++ format_03d id ++ "_output.mp4");
     processed := false;
     checksum := None |}.

(** The [while start < duration] loop of [_calculate_chunks], with its
    three variables [start], [chunk_id] and [chunks].  The loop need not
    end (a chunk duration of 0 never advances [start]), so it runs on
    fuel; [None] is the loop still running when the fuel is spent. *)
Fixpoint calculate_chunks_loop (fuel : nat) (self : VideoEditor) (duration : Q)
    (start : Q) (chunk_id : nat) (chunks : list ChunkInfo) : option (list ChunkInfo) :=
  match fuel with
  | O => None
  | S fuel' =>
      if Qlt_le_dec start duration then
        let end_ := Qmin (start + inject_Z (chunk_duration (config self))) duration in
        let chunk := make_chunk self chunk_id start end_ in
        calculate_chunks_loop fuel' self duration end_ (S chunk_id) (chunks ++ [chunk])
      else Some chunks
  end.

Definition set_chunks (cs : list ChunkInfo) (d : Q) (s : EditState) : EditState :=
  {| chunks := cs; current_step := current_step s;
     completed_steps := completed_steps s;
     metadata :=
       {| input_checksum := input_checksum (metadata s);
          total_chunks := Some (length cs);
          total_duration := Some d;
          concat_output := concat_output (metadata s);
          transcript := transcript (metadata s) |} |}.

(** [_calculate_chunks] *)
Definition _calculate_chunks (fuel : nat) (self : VideoEditor) : Py (list ChunkInfo) :=
  w <- get ;;
  match chunks (mem w) with
  | _ :: _ => ret (chunks (mem w))
  | [] =>
      duration <- _get_video_duration (input_video (config self)) ;;
      match calculate_chunks_loop fuel self duration 0 0 [] with
      | None => diverge
      | Some cs =>
          modify (set_mem (set_chunks cs duration)) ;;;
          _save_state ;;;
          ret cs
      end
  end.

(** [_split_into_chunks] *)
Definition _split_into_chunks (self : VideoEditor) (cs : list ChunkInfo) : Py unit :=
  logger "Splitting video into chunks..." ;;;
  for_each cs (fun chunk =>
    present <- path_exists (input_path chunk) ;;
    if present then logger "Chunk already exists, skipping split"
    else
      logger "Extracting chunk" ;;;
      subprocess_run (SplitCopy (start_time chunk) (duration chunk))
        (input_video (config self)) (input_path chunk) ;;;
      logger "Chunk extracted successfully").

(** ** The per-chunk effects *)

Definition _remove_silence (input output : string) : Py unit :=
  logger "Detecting and removing silence..." ;;;
  try_except_only is_called_process_error
    (subprocess_run_text SilenceRemove input output ;;;
     logger "Silence removed successfully")
    (fun _ =>
       logger "Silence removal failed" ;;;
       logger "Copying original file without silence removal..." ;;;
       copy2 input output).

Definition _apply_speed (input output : string) (speed : Q) : Py unit :=
  (if Qeq_bool speed 0 then raise ZeroDivisionError else ret tt) ;;;
  subprocess_run (SpeedChange speed) input output.

(** The [for cmd in commands] loop of [_apply_jump_cuts]: the first
    variant that runs ends the loop, a failing one moves to the next. *)
Fixpoint detect_scenes (variants : list nat) (input scenes_file : string) : Py bool :=
  match variants with
  | [] => ret false
  | v :: rest =>
      try_except_only is_called_process_or_not_found
        (subprocess_run (SceneDetect v) input scenes_file ;;; ret true)
        (fun _ => detect_scenes rest input scenes_file)
  end.

Definition _apply_jump_cuts (self : VideoEditor) (input output : string) : Py unit :=
  let scenes_file := path_join (temp_dir self) "scenes.csv" in
  _ <- detect_scenes [0; 1; 2]%nat input scenes_file ;;
  copy2 input output.

Definition _apply_zoom_effects (input output : string) : Py unit :=
  w <- get ;;
  (if ffprobe_installed w then ret tt else raise FileNotFoundError) ;;;
  _ <- match files w !! input with
       | Some f =>
           match probe_dimensions f with
           | Some wh => ret wh
           | None => raise ValueError
           end
       | None => raise ValueError
       end ;;
  _ <- _get_video_duration input ;;
  try_except_only is_called_process_error
    (subprocess_run DynamicZoom input output)
    (fun _ =>
       logger "Dynamic zoom failed, trying simple zoom" ;;;
       subprocess_run SimpleZoom input output).

Definition _add_transitions (input output : string) : Py unit :=
  try_except_only is_called_process_error
    (subprocess_run ColorGrade input output)
    (fun _ => logger "Color grading failed, copying original" ;;; copy2 input output).

Definition _add_sound_effects (input output : string) : Py unit :=
  try_except_only is_called_process_error
    (subprocess_run AudioEnhance input output)
    (fun _ => logger "Audio enhancement failed, copying original" ;;; copy2 input output).

Definition _reencode_for_concat (input output : string) : Py unit :=
  subprocess_run Reencode input output.

(** ** [_process_chunk] *)

Definition temp_name (self : VideoEditor) (chunk : ChunkInfo) (suffix : string) : string :=
  path_join (temp_dir self) ("chunk_" ++ format_03d (chunk_id chunk) ++ suffix).

(** [temp_files.append(p)] *)
Definition remember_temp (p : string) : Py unit :=
  modify (set_temp_files (fun l => (l ++ [p])%list)).

(** The body of the [try] block: the ordered sub-pipeline, each sub-step
    reading the output of the one before, then the checksum of the
    finished chunk. *)
Definition chunk_pipeline (self : VideoEditor) (chunk : ChunkInfo) : Py ChunkInfo :=
  let cfg := config self in
  current_input <-
    (if remove_silence cfg then
       let silence_output := temp_name self chunk "_nosilence.mp4" in
       remember_temp silence_output ;;;
       logger "  Removing silence from chunk..." ;;;
       _remove_silence (input_path chunk) silence_output ;;;
       ret silence_output
     else ret (input_path chunk)) ;;
  current_input <-
    (if negb (Qeq_bool (speed_multiplier cfg) 1) then
       let speed_output := temp_name self chunk "_speed.mp4" in
       remember_temp speed_output ;;;
       logger "  Applying speed to chunk..." ;;;
       _apply_speed current_input speed_output (speed_multiplier cfg) ;;;
       ret speed_output
     else ret current_input) ;;
  current_input <-
    (let jump_output := temp_name self chunk "_jumpcuts.mp4" in
     remember_temp jump_output ;;;
     logger "  Applying jump cuts to chunk..." ;;;
     _apply_jump_cuts self current_input jump_output ;;;
     ret jump_output) ;;
  current_input <-
    (if apply_zoom_effects cfg then
       let zoom_output := temp_name self chunk "_zoom.mp4" in
       remember_temp zoom_output ;;;
       logger "  Applying zoom effects to chunk..." ;;;
       _apply_zoom_effects current_input zoom_output ;;;
       ret zoom_output
     else ret current_input) ;;
  current_input <-
    (if apply_transitions cfg then
       let trans_output := temp_name self chunk "_trans.mp4" in
       remember_temp trans_output ;;;
       logger "  Adding transitions to chunk..." ;;;
       _add_transitions current_input trans_output ;;;
       ret trans_output
     else ret current_input) ;;
  current_input <-
    (if add_sound_effects cfg then
       let sfx_output := temp_name self chunk "_sfx.mp4" in
       remember_temp sfx_output ;;;
       logger "  Adding sound effects to chunk..." ;;;
       _add_sound_effects current_input sfx_output ;;;
       ret sfx_output
     else ret current_input) ;;
  logger "  Re-encoding chunk for concatenation..." ;;;
  _reencode_for_concat current_input (output_path chunk) ;;;
  sum <- _calculate_checksum (output_path chunk) ;;
  logger "Chunk processed successfully" ;;;
  ret (set_processed chunk sum).

(** The [finally] block: every remembered temporary file is deleted, a
    failing delete is logged and skipped. *)
Definition delete_temp_file (temp_file : string) : Py unit :=
  try_except
    (present <- path_exists temp_file ;;
     if present then unlink temp_file else ret tt)
    (fun _ => logger "Could not delete temp file").

Definition cleanup_temp_files : Py unit :=
  w <- get ;;
  for_each (temp_files w) delete_temp_file.

(** [_process_chunk]: the Boolean is the method's result, the chunk is
    the [chunk] object as the method leaves it ([processed] and [checksum]
    are assigned at the end of a successful [try] block only). *)
Definition _process_chunk (self : VideoEditor) (chunk : ChunkInfo) : Py (bool * ChunkInfo) :=
  logger "Processing chunk..." ;;;
  present <- path_exists (output_path chunk) ;;
  if present then
    logger "Chunk already processed, skipping" ;;; ret (true, chunk)
  else
    modify (set_temp_files (fun _ => [])) ;;;
    try_finally
      (try_except
         (chunk' <- chunk_pipeline self chunk ;; ret (true, chunk'))
         (fun _ => logger "Error processing chunk" ;;; ret (false, chunk)))
      cleanup_temp_files.

(** ** [run] *)

(** [self.state["completed_steps"].append(step)] *)
Definition complete_step (step : string) (s : EditState) : EditState :=
  {| chunks := chunks s; current_step := current_step s;
     completed_steps := completed_steps s ++ [step];
     metadata := metadata s |}.

Definition step_done (step : string) (s : EditState) : bool :=
  bool_decide (step ∈ completed_steps s).

(** The state [run] installs when the input has changed. *)
Definition fresh_state (current_input_checksum : string) : EditState :=
  {| chunks := []; current_step := None; completed_steps := [];
     metadata :=
       {| input_checksum := Some current_input_checksum;
          total_chunks := None; total_duration := None;
          concat_output := None; transcript := None |} |}.

Definition set_input_checksum (sum : string) (s : EditState) : EditState :=
  {| chunks := chunks s; current_step := current_step s;
     completed_steps := completed_steps s;
     metadata :=
       {| input_checksum := Some sum;
          total_chunks := total_chunks (metadata s);
          total_duration := total_duration (metadata s);
          concat_output := concat_output (metadata s);
          transcript := transcript (metadata s) |} |}.

(** The inner [for i, state_chunk in enumerate(...)] loop: the first
    entry of [self.state["chunks"]] with the chunk's id is replaced. *)
Fixpoint replace_chunk (chunk : ChunkInfo) (l : list ChunkInfo) : list ChunkInfo :=
  match l with
  | [] => []
  | c :: l' =>
      if Nat.eqb (chunk_id c) (chunk_id chunk) then chunk :: l'
      else c :: replace_chunk chunk l'
  end.

Definition store_chunk (chunk : ChunkInfo) (s : EditState) : EditState :=
  {| chunks := replace_chunk chunk (chunks s); current_step := current_step s;
     completed_steps := completed_steps s; metadata := metadata s |}.

(** Lines 979-1004: the input checksum is compared with the stored one. *)
Definition validate_input (self : VideoEditor) : Py unit :=
  current_input_checksum <- _calculate_checksum (input_video (config self)) ;;
  w <- get ;;
  let saved_input_checksum := input_checksum (metadata (mem w)) in
  if truthy saved_input_checksum
     && negb (bool_decide (saved_input_checksum = Some current_input_checksum)) then
    logger "Input video has changed! Clearing old work..." ;;;
    modify (set_mem (fun _ => fresh_state current_input_checksum)) ;;;
    _save_state ;;;
    chunk_dir <- getattr self "chunk_dir" ;;
    there <- dir_exists chunk_dir ;;
    (if there then rmtree chunk_dir ;;; mkdir chunk_dir else ret tt) ;;;
    temp <- getattr self "temp_dir" ;;
    there <- dir_exists temp ;;
    (if there then rmtree temp ;;; mkdir temp else ret tt)
  else if negb (truthy saved_input_checksum) then
    modify (set_mem (set_input_checksum current_input_checksum)) ;;;
    _save_state
  else ret tt.

(** Step 3, the [for chunk in chunks] loop.  The Boolean is [false] when
    the loop left [run] through [return False]; the list is [chunks] with
    the chunk objects as the loop left them. *)
Fixpoint process_chunks (self : VideoEditor) (cs : list ChunkInfo)
    : Py (bool * list ChunkInfo) :=
  match cs with
  | [] => ret (true, [])
  | chunk :: rest =>
      if negb (processed chunk) then
        r <- _process_chunk self chunk ;;
        let '(success, chunk') := r in
        if negb success then
          logger "Failed to process chunk" ;;; ret (false, chunk' :: rest)
        else
          modify (set_mem (store_chunk chunk')) ;;;
          _save_state ;;;
          r' <- process_chunks self rest ;;
          ret (r'.1, chunk' :: r'.2)
      else
        r' <- process_chunks self rest ;;
        ret (r'.1, chunk :: r'.2)
  end.

(** Everything [run] does before the chunk loop: banner, input
    validation, steps 1 and 2. *)
Definition prepare_chunks (fuel : nat) (self : VideoEditor) : Py (list ChunkInfo) :=
  logger "Starting Auto Video Editor" ;;;
  validate_input self ;;;
  w <- get ;;
  cs <- (if negb (step_done "chunk_calculation" (mem w)) then
           cs <- _calculate_chunks fuel self ;;
           modify (set_mem (complete_step "chunk_calculation")) ;;;
           _save_state ;;;
           ret cs
         else ret (chunks (mem w))) ;;
  logger "Total chunks" ;;;
  w <- get ;;
  (if negb (step_done "chunk_splitting" (mem w)) then
     _split_into_chunks self cs ;;;
     modify (set_mem (complete_step "chunk_splitting")) ;;;
     _save_state
   else ret tt) ;;;
  ret cs.

(** [run] *)
Definition run (fuel : nat) (self : VideoEditor) : Py bool :=
  try_except
    (cs <- prepare_chunks fuel self ;;
     r <- process_chunks self cs ;;
     if negb r.1 then ret false
     else
       finish_pipeline self r.2 ;;;
       logger "Video editing completed successfully!" ;;;
       ret true)
    (fun _ => logger "Editing pipeline failed" ;;; ret false).

End Pipeline.
(** ** Chunk boundaries partition the video *)

Local Open Scope Q_scope.

(** [contiguous s cs e]: the chunks of [cs] tile the interval from [s] to
    [e]: the first starts at [s], each starts where the one before ends
    (no gap, no overlap), none is empty, and the last ends at [e]. *)
Fixpoint contiguous (s : Q) (cs : list ChunkInfo) (e : Q) : Prop :=
  match cs with
  | [] => s == e
  | c :: cs' =>
      start_time c == s /\ start_time c < end_time c /\ contiguous (end_time c) cs' e
  end.

(** [end_i = min(start_i + C, D)] *)
Definition clipped (C : Z) (D : Q) (c : ChunkInfo) : Prop :=
  end_time c == Qmin (start_time c + inject_Z C) D.

Lemma contiguous_last (s e : Q) (cs : list ChunkInfo) :
  cs <> [] -> contiguous s cs e -> exists c, last cs = Some c /\ end_time c == e.
Proof.
  revert s. induction cs as [|c cs IH]; intros s Hne Hc; [congruence|].
  destruct Hc as (_ & _ & Hc). destruct cs as [|c' cs].
  - exists c. split; [reflexivity | exact Hc].
  - destruct (IH (end_time c)) as (d & Hd & He); [congruence | exact Hc |].
    exists d. split; [exact Hd | exact He].
Qed.

Lemma inject_Z_pos (z : Z) : (0 < z)%Z -> 0 < inject_Z z.
Proof. intros H. change 0 with (inject_Z 0). rewrite <- Zlt_Qlt. exact H. Qed.

Lemma inject_Z_of_nat_nonneg (n : nat) : 0 <= inject_Z (Z.of_nat n).
Proof. change 0 with (inject_Z 0). rewrite <- Zle_Qle. lia. Qed.

Lemma inject_Z_succ_mult (m : nat) (c : Q) :
  inject_Z (Z.of_nat (S m)) * c == inject_Z (Z.of_nat m) * c + c.
Proof.
  rewrite Nat2Z.inj_succ. unfold Z.succ. rewrite inject_Z_plus. ring.
Qed.

(** The loop started at [start] with [n] chunks still to cut: [n] is the
    least number of steps of [C] that reach [D] from [start]. *)
Lemma calculate_chunks_loop_spec (self : VideoEditor) (D : Q) :
  let C := chunk_duration (config self) in
  (0 < C)%Z ->
  forall (n fuel : nat) (start : Q) (id : nat) (acc : list ChunkInfo),
    (n < fuel)%nat ->
    start <= D ->
    D - start <= inject_Z (Z.of_nat n) * inject_Z C ->
    (forall m, n = S m -> inject_Z (Z.of_nat m) * inject_Z C < D - start) ->
    exists cs,
      calculate_chunks_loop fuel self D start id acc = Some (acc ++ cs)%list /\
      length cs = n /\
      contiguous start cs D /\
      Forall (clipped C D) cs /\
      map chunk_id cs = seq id n.
Proof.
  intros C HC. assert (HCq : 0 < inject_Z C) by (apply inject_Z_pos; exact HC).
  induction n as [|n IH]; intros fuel start id acc Hfuel Hle Hup Hlow.
  - destruct fuel as [|fuel]; [lia|]. simpl.
    change (inject_Z (Z.of_nat 0)) with 0 in Hup.
    assert (Heq : start == D) by lra.
    destruct (Qlt_le_dec start D) as [Hlt|_]; [lra|].
    exists []. rewrite app_nil_r. repeat split; auto.
  - destruct fuel as [|fuel]; [lia|]. simpl.
    specialize (Hlow n eq_refl).
    rewrite inject_Z_succ_mult in Hup.
    assert (Hn : 0 <= inject_Z (Z.of_nat n) * inject_Z C).
    { apply Qmult_le_0_compat; [apply inject_Z_of_nat_nonneg | lra]. }
    destruct (Qlt_le_dec start D) as [Hlt|Hge]; [|lra].
    fold C.
    set (end_ := Qmin (start + inject_Z C) D).
    assert (Hend : end_ == Qmin (start + inject_Z C) D) by reflexivity.
    assert (Hend_le : end_ <= D) by apply Q.le_min_r.
    assert (Hend_gt : start < end_) by (apply Q.min_glb_lt; lra).
    destruct (IH fuel end_ (S id) (acc ++ [make_chunk self id start end_])%list)
      as (cs & Hrun & Hlen & Hcont & Hclip & Hids).
    + lia.
    + exact Hend_le.
    + destruct (Q.min_spec (start + inject_Z C) D) as [[_ E]|[_ E]];
        rewrite Hend, E; lra.
    + intros m ->. rewrite inject_Z_succ_mult in Hlow.
      assert (0 <= inject_Z (Z.of_nat m) * inject_Z C).
      { apply Qmult_le_0_compat; [apply inject_Z_of_nat_nonneg | lra]. }
      destruct (Q.min_spec (start + inject_Z C) D) as [[_ E]|[E' E]];
        rewrite Hend, E; lra.
    + exists (make_chunk self id start end_ :: cs).
      rewrite Hrun, <- app_assoc.
      split; [reflexivity|].
      split; [simpl; congruence|].
      split; [simpl; split; [reflexivity | split; assumption]|].
      split.
      * constructor; [|exact Hclip]. unfold clipped. simpl. exact Hend.
      * simpl. congruence.
Qed.

(** The number of chunks for a video of length [D] cut every [C]. *)
Definition chunk_count (D : Q) (C : Z) : nat := Z.to_nat (Qceiling (D / inject_Z C)).

Lemma chunk_count_bounds (D : Q) (C : Z) :
  0 < D -> (0 < C)%Z ->
  D <= inject_Z (Z.of_nat (chunk_count D C)) * inject_Z C /\
  (forall m, chunk_count D C = S m -> inject_Z (Z.of_nat m) * inject_Z C < D) /\
  (0 < chunk_count D C)%nat.
Proof.
  intros HD HC.
  assert (HCq : 0 < inject_Z C) by (apply inject_Z_pos; exact HC).
  assert (Hq : 0 < D / inject_Z C) by (apply Qlt_shift_div_l; lra).
  pose proof (Qle_ceiling (D / inject_Z C)) as Hce.
  pose proof (Qceiling_lt (D / inject_Z C)) as Hlt.
  assert (Hpos : (0 < Qceiling (D / inject_Z C))%Z).
  { rewrite Zlt_Qlt. change (inject_Z 0) with 0. lra. }
  unfold chunk_count.
  assert (Hback : D / inject_Z C * inject_Z C == D) by (field; lra).
  split; [|split].
  - rewrite Z2Nat.id by lia. rewrite <- Hback at 1.
    apply Qmult_le_compat_r; lra.
  - intros m Hm.
    assert (Z.of_nat m = Qceiling (D / inject_Z C) - 1)%Z by lia.
    rewrite H. rewrite <- Hback at 2.
    apply Qmult_lt_compat_r; lra.
  - lia.
Qed.

(** More fuel never changes the answer of a loop that has ended. *)
Lemma calculate_chunks_loop_fuel_mono (self : VideoEditor) (D : Q) :
  forall (a b : nat) (start : Q) (id : nat) (acc r : list ChunkInfo),
    calculate_chunks_loop a self D start id acc = Some r ->
    (a <= b)%nat ->
    calculate_chunks_loop b self D start id acc = Some r.
Proof.
  induction a as [|a IHa]; intros b st i acc r Ha Hab; [discriminate|].
  destruct b as [|b]; [lia|]. simpl in *.
  destruct (Qlt_le_dec st D); [|exact Ha].
  apply IHa; [exact Ha | lia].
Qed.

(** What [_calculate_chunks] leaves behind once it has computed [cs]. *)
Definition chunks_saved (cs : list ChunkInfo) (D : Q) (w : World) : World :=
  set_state_json (Some (set_chunks cs D (mem w))) (set_mem (set_chunks cs D) w).

(** C1.  For a total duration [D > 0] (what [ffprobe] reports of the input
    video) and a configured chunk duration [C > 0], [_calculate_chunks],
    called with no chunk list cached in the state, returns a chunk list that
    tiles [[0, D)] contiguously, without gap or overlap; each chunk ends at
    [min(start + C, D)]; there are [ceil(D / C)] chunks; the last one ends
    at [D]; the ids count up from 0.  The loop ends: any fuel above the
    chunk count gives this same list, which is also written to the state. *)
Theorem calculate_chunks_partition (self : VideoEditor) (w : World) (f : File) (D : Q) :
  let C := chunk_duration (config self) in
  0 < D -> (0 < C)%Z ->
  chunks (mem w) = [] ->
  ffprobe_installed w = true ->
  files w !! input_video (config self) = Some f ->
  probe_duration f = Some D ->
  state_writable w = true ->
  exists cs : list ChunkInfo,
    (forall fuel, (chunk_count D C < fuel)%nat ->
       _calculate_chunks fuel self w = (Returned cs, chunks_saved cs D w)) /\
    length cs = Z.to_nat (Qceiling (D / inject_Z C)) /\
    contiguous 0 cs D /\
    Forall (clipped C D) cs /\
    (exists c, last cs = Some c /\ end_time c == D) /\
    map chunk_id cs = seq 0 (length cs).
Proof.
  intros C HD HC Hcache Hprobe Hfile Hdur Hwr.
  destruct (chunk_count_bounds D C HD HC) as (Hup & Hlow & Hpos).
  destruct (calculate_chunks_loop_spec self D HC (chunk_count D C)
              (S (chunk_count D C)) 0 0%nat [])
    as (cs & Hrun & Hlen & Hcont & Hclip & Hids).
  - lia.
  - lra.
  - fold C. lra.
  - intros m Hm. specialize (Hlow m Hm). fold C. lra.
  - change ([] ++ cs)%list with cs in Hrun.
    exists cs. split; [|split; [|split; [|split; [|split]]]].
    + intros fuel Hfuel.
      destruct (calculate_chunks_loop_spec self D HC (chunk_count D C) fuel 0 0%nat [])
        as (cs' & Hrun' & _); [lia | lra | fold C; lra | | ].
      { intros m Hm. specialize (Hlow m Hm). fold C. lra. }
      change ([] ++ cs')%list with cs' in Hrun'.
      assert (Hsame : cs' = cs).
      { pose proof (calculate_chunks_loop_fuel_mono self D _ fuel _ _ _ _ Hrun) as Hm.
        rewrite Hm in Hrun' by lia. congruence. }
      subst cs'.
      unfold _calculate_chunks, bind, get. rewrite Hcache.
      unfold _get_video_duration, bind, get. rewrite Hprobe. simpl.
      rewrite Hfile, Hdur. unfold ret. rewrite Hrun'.
      unfold modify, _save_state, bind, get. simpl. rewrite Hwr. reflexivity.
    + exact Hlen.
    + exact Hcont.
    + exact Hclip.
    + apply (contiguous_last 0); [|exact Hcont].
      intros ->. simpl in Hlen. lia.
    + rewrite Hlen. exact Hids.
Qed.

(** *** The example of the specification: 650 seconds cut every 300 *)

Definition example_config : EditConfig :=
  {| input_video := "downloads/raw.mp4";
     output_video := "edited/raw_EDITED.mp4";
     speed_multiplier := 12 # 10;
     remove_silence := true;
     apply_transitions := true;
     apply_zoom_effects := true;
     add_subtitles := true;
     add_subscribe_popup := true;
     add_sound_effects := true;
     background_music := None;
     chunk_duration := 300;
     max_workers := 2;
     extract_subtitles := true;
     generate_metadata := true;
     openrouter_api_key := None |}.

Definition example_editor : VideoEditor :=
  {| config := example_config; work_dir := "work" |}.

Definition example_input (digest : string) : File :=
  {| sha256 := digest; probe_duration := Some 650;
     probe_dimensions := Some (1920, 1080)%Z |}.

(** A first run: no state file, only the input video on disk. *)
Definition first_run_world : World :=
  {| mem := initial_state;
     temp_files := [];
     files := {[ "downloads/raw.mp4" := example_input "aa11" ]};
     dirs := {[ "work/chunks"; "work/temp" ]};
     state_json := None;
     state_writable := true;
     ffprobe_installed := true;
     output_decodes := fun _ _ _ _ => true;
     log := [] |}.

Lemma calculate_chunks_partition_witness :
  exists cs : list ChunkInfo,
    _calculate_chunks 4 example_editor first_run_world
      = (Returned cs, chunks_saved cs 650 first_run_world) /\
    map (fun c => (start_time c, end_time c)) cs
      = [(0, 300); (300, 600); (600, 650)] /\
    map output_path cs
      = ["work/chunks/chunk_000_output.mp4"; "work/chunks/chunk_001_output.mp4";
         "work/chunks/chunk_002_output.mp4"]%string /\
    contiguous 0 cs 650 /\
    Forall (clipped 300 650) cs.
Proof.
  destruct (calculate_chunks_partition example_editor first_run_world
              (example_input "aa11") 650)
    as (cs & Hrun & Hlen & Hcont & Hclip & _);
    [reflexivity | reflexivity | reflexivity | reflexivity | reflexivity
    | reflexivity | reflexivity |].
  exists cs.
  assert (Hfuel : (chunk_count 650 (chunk_duration (config example_editor)) < 4)%nat)
    by (vm_compute; lia).
  pose proof (Hrun 4%nat Hfuel) as H4.
  assert (Hcs : cs = [make_chunk example_editor 0 0 300;
                      make_chunk example_editor 1 300 600;
                      make_chunk example_editor 2 600 650]).
  { assert (E : forall a b : outcome (list ChunkInfo) * World, a = b -> a.1 = b.1)
      by (intros ? ? ->; reflexivity).
    apply E in H4. vm_compute in H4. injection H4 as <-. reflexivity. }
  split; [exact H4|].
  split; [rewrite Hcs; reflexivity|].
  split; [rewrite Hcs; reflexivity|].
  split; [exact Hcont | exact Hclip].
Defined.

(** ** What a run may remove from the disk *)

Local Close Scope Q_scope.

Section Frame.

Variable exec : Tool -> string -> string -> gmap string File -> ExecResult.
Variable self : VideoEditor.

(** A path below [self.temp_dir]. *)
Definition in_temp (p : string) : bool := String.prefix (temp_dir self ++ "/") p.

Definition on_disk (w : World) (p : string) : Prop := is_Some (files w !! p).

(** No file is removed. *)
Definition files_grow (w w' : World) : Prop :=
  forall p, on_disk w p -> on_disk w' p.

(** No file outside the temporary directory is removed. *)
Definition keeps (w w' : World) : Prop :=
  forall p, in_temp p = false -> on_disk w p -> on_disk w' p.

(** Every remembered temporary file is in the temporary directory. *)
Definition temps_ok (w : World) : Prop :=
  Forall (fun p => in_temp p = true) (temp_files w).

(** A computation that removes no file and remembers temporary files of
    the temporary directory only. *)
Definition tidy {A} (m : Py A) : Prop :=
  forall w r w', m w = (r, w') ->
    files_grow w w' /\ (temps_ok w -> temps_ok w').

Lemma files_grow_refl w : files_grow w w.
Proof. intros p H; exact H. Qed.

Lemma files_grow_trans w1 w2 w3 :
  files_grow w1 w2 -> files_grow w2 w3 -> files_grow w1 w3.
Proof. intros H1 H2 p H. auto. Qed.

Lemma files_grow_keeps w w' : files_grow w w' -> keeps w w'.
Proof. intros H p _ Hp. auto. Qed.

Lemma keeps_refl w : keeps w w.
Proof. intros p _ H; exact H. Qed.

Lemma keeps_trans w1 w2 w3 : keeps w1 w2 -> keeps w2 w3 -> keeps w1 w3.
Proof. intros H1 H2 p Hp H. auto. Qed.

Lemma tidy_ret {A} (a : A) : tidy (ret a).
Proof. intros w r w' [= <- <-]. split; [apply files_grow_refl | auto]. Qed.

Lemma tidy_raise {A} (e : Exn) : tidy (raise (A:=A) e).
Proof. intros w r w' [= <- <-]. split; [apply files_grow_refl | auto]. Qed.

Lemma tidy_diverge {A} : tidy (diverge (A:=A)).
Proof. intros w r w' [= <- <-]. split; [apply files_grow_refl | auto]. Qed.

Lemma tidy_get : tidy get.
Proof. intros w r w' [= <- <-]. split; [apply files_grow_refl | auto]. Qed.

Lemma tidy_gets {A} (f : World -> A) : tidy (gets f).
Proof. intros w r w' [= <- <-]. split; [apply files_grow_refl | auto]. Qed.

Lemma tidy_bind {A B} (m : Py A) (k : A -> Py B) :
  tidy m -> (forall a, tidy (k a)) -> tidy (bind m k).
Proof.
  intros Hm Hk w r w' H. unfold bind in H.
  destruct (m w) as [[a|e|] w1] eqn:E; destruct (Hm _ _ _ E) as [G T].
  - destruct (Hk a _ _ _ H) as [G' T'].
    split; [eapply files_grow_trans; eauto | auto].
  - injection H as <- <-. auto.
  - injection H as <- <-. auto.
Qed.

Lemma tidy_bind_raise {A B} (e : Exn) (k : A -> Py B) : tidy (bind (raise e) k).
Proof. intros w r w' [= <- <-]. split; [apply files_grow_refl | auto]. Qed.

Lemma tidy_try_except_only {A} (c : Exn -> bool) (m : Py A) (h : Exn -> Py A) :
  tidy m -> (forall e, tidy (h e)) -> tidy (try_except_only c m h).
Proof.
  intros Hm Hh w r w' H. unfold try_except_only in H.
  destruct (m w) as [[a|e|] w1] eqn:E; destruct (Hm _ _ _ E) as [G T].
  - injection H as <- <-. auto.
  - destruct (c e).
    + destruct (Hh e _ _ _ H) as [G' T'].
      split; [eapply files_grow_trans; eauto | auto].
    + injection H as <- <-. auto.
  - injection H as <- <-. auto.
Qed.

Lemma tidy_try_except {A} (m : Py A) (h : Exn -> Py A) :
  tidy m -> (forall e, tidy (h e)) -> tidy (try_except m h).
Proof.
  intros Hm Hh w r w' H. unfold try_except in H.
  destruct (m w) as [[a|e|] w1] eqn:E; destruct (Hm _ _ _ E) as [G T].
  - injection H as <- <-. auto.
  - destruct (Hh e _ _ _ H) as [G' T'].
    split; [eapply files_grow_trans; eauto | auto].
  - injection H as <- <-. auto.
Qed.

Lemma tidy_logger (line : string) : tidy (logger line).
Proof. intros w r w' [= <- <-]. split; [intros p H; exact H | auto]. Qed.

Lemma tidy_set_mem (f : EditState -> EditState) : tidy (modify (set_mem f)).
Proof. intros w r w' [= <- <-]. split; [intros p H; exact H | auto]. Qed.

Lemma tidy_write (p : string) (f : File) : tidy (modify (set_files (insert p f))).
Proof.
  intros w r w' [= <- <-]. split; [|auto].
  intros q [x Hq]. unfold on_disk. simpl.
  destruct (decide (p = q)) as [->|Hne].
  - rewrite lookup_insert_eq. eauto.
  - rewrite lookup_insert_ne by exact Hne. eauto.
Qed.

Lemma tidy_for_each {A} (xs : list A) (body : A -> Py unit) :
  (forall x, tidy (body x)) -> tidy (for_each xs body).
Proof.
  intros Hb. induction xs as [|x xs IH]; simpl.
  - apply tidy_ret.
  - apply tidy_bind; auto.
Qed.

Create HintDb tidy.

#[local] Hint Resolve tidy_ret tidy_raise tidy_diverge tidy_get tidy_gets
  tidy_logger tidy_set_mem tidy_write tidy_bind_raise : tidy.

(** Takes a [tidy] goal apart along the structure of the code. *)
Ltac tidy_step :=
  match goal with
  | |- tidy _ => solve [auto with tidy nocore]
  | |- tidy (bind _ _) => apply tidy_bind; [|intros ?]
  | |- tidy (try_except_only _ _ _) => apply tidy_try_except_only; [|intros ?]
  | |- tidy (try_except _ _) => apply tidy_try_except; [|intros ?]
  | |- tidy (for_each _ _) => apply tidy_for_each; intros ?
  | |- tidy (if ?b then _ else _) => destruct b
  | |- tidy (match ?x with _ => _ end) => destruct x
  end.

Ltac tidy_tac := repeat tidy_step.

Lemma tidy_path_exists (p : string) : tidy (path_exists p).
Proof. unfold path_exists. tidy_tac. Qed.

Lemma tidy_copy2 (src dst : string) : tidy (copy2 src dst).
Proof. unfold copy2. tidy_tac. Qed.

Lemma tidy_subprocess_run (t : Tool) (i o : string) : tidy (subprocess_run exec t i o).
Proof. unfold subprocess_run. tidy_tac. Qed.

Lemma tidy_subprocess_run_text (t : Tool) (i o : string) :
  tidy (subprocess_run_text exec t i o).
Proof.
  unfold subprocess_run_text. apply tidy_bind; [apply tidy_get|]. intros w.
  cbv zeta. tidy_tac.
Qed.

Lemma tidy_save_state : tidy _save_state.
Proof.
  unfold _save_state. apply tidy_bind; [apply tidy_get|]. intros w.
  destruct (state_writable w); [|apply tidy_raise].
  intros w0 r w' [= <- <-]. split; [intros p H; exact H | auto].
Qed.

Lemma tidy_get_video_duration (p : string) : tidy (_get_video_duration p).
Proof. unfold _get_video_duration. tidy_tac. Qed.

Lemma tidy_calculate_checksum (p : string) : tidy (_calculate_checksum p).
Proof. unfold _calculate_checksum. tidy_tac. Qed.

#[local] Hint Resolve tidy_path_exists tidy_copy2 tidy_subprocess_run
  tidy_subprocess_run_text tidy_save_state tidy_get_video_duration tidy_calculate_checksum : tidy.

Lemma tidy_remove_silence (i o : string) : tidy (_remove_silence exec i o).
Proof. unfold _remove_silence. tidy_tac. Qed.

Lemma tidy_apply_speed (i o : string) (q : Q) : tidy (_apply_speed exec i o q).
Proof. unfold _apply_speed. tidy_tac. Qed.

Lemma tidy_detect_scenes (vs : list nat) (i o : string) : tidy (detect_scenes exec vs i o).
Proof. induction vs as [|v vs IH]; simpl; tidy_tac. Qed.

#[local] Hint Resolve tidy_detect_scenes : tidy.

Lemma tidy_apply_jump_cuts (i o : string) : tidy (_apply_jump_cuts exec self i o).
Proof. unfold _apply_jump_cuts. tidy_tac. Qed.

Lemma tidy_apply_zoom_effects (i o : string) : tidy (_apply_zoom_effects exec i o).
Proof. unfold _apply_zoom_effects. tidy_tac. Qed.

Lemma tidy_add_transitions (i o : string) : tidy (_add_transitions exec i o).
Proof. unfold _add_transitions. tidy_tac. Qed.

Lemma tidy_add_sound_effects (i o : string) : tidy (_add_sound_effects exec i o).
Proof. unfold _add_sound_effects. tidy_tac. Qed.

Lemma tidy_reencode_for_concat (i o : string) : tidy (_reencode_for_concat exec i o).
Proof. unfold _reencode_for_concat. tidy_tac. Qed.

#[local] Hint Resolve tidy_remove_silence tidy_apply_speed tidy_apply_jump_cuts
  tidy_apply_zoom_effects tidy_add_transitions tidy_add_sound_effects
  tidy_reencode_for_concat : tidy.

Lemma prefix_app (a b : string) : String.prefix a (a ++ b) = true.
Proof.
  induction a as [|c a IH].
  - change ("" ++ b) with b. destruct b; reflexivity.
  - change (String c a ++ b) with (String c (a ++ b)). simpl.
    destruct (Ascii.ascii_dec c c); [exact IH | congruence].
Qed.

Lemma string_app_assoc (a b c : string) : (a ++ b) ++ c = a ++ b ++ c.
Proof.
  induction a as [|x a IH]; [reflexivity|].
  change (String x ((a ++ b) ++ c) = String x (a ++ b ++ c)). now rewrite IH.
Qed.

Lemma temp_name_in_temp (chunk : ChunkInfo) (suffix : string) :
  in_temp (temp_name self chunk suffix) = true.
Proof.
  unfold in_temp, temp_name, path_join.
  rewrite <- (string_app_assoc (temp_dir self) "/"). apply prefix_app.
Qed.

Lemma tidy_remember_temp (p : string) : in_temp p = true -> tidy (remember_temp p).
Proof.
  intros Hp w r w' [= <- <-]. split; [intros q H; exact H|].
  unfold temps_ok. simpl. intros H. apply Forall_app. split; [exact H|].
  constructor; [exact Hp | constructor].
Qed.

Lemma tidy_chunk_pipeline (chunk : ChunkInfo) : tidy (chunk_pipeline exec self chunk).
Proof.
  unfold chunk_pipeline.
  repeat first [ apply tidy_remember_temp; apply temp_name_in_temp | tidy_step ].
Qed.

(** The output of a computed chunk is in the chunk directory, not in the
    temporary one. *)
Lemma make_chunk_output_not_temp (id : nat) (start end_ : Q) :
  in_temp (output_path (make_chunk self id start end_)) = false.
Proof.
  unfold in_temp, make_chunk, temp_dir, chunks_dir, path_join. simpl.
  generalize ("chunk_" ++ format_03d id ++ "_output.mp4"). intros name.
  induction (work_dir self) as [|c wd IH].
  - reflexivity.
  - change (String.prefix (String c ((wd ++ "/" ++ "temp") ++ "/"))
              (String c ((wd ++ "/" ++ "chunks") ++ "/" ++ name)) = false).
    simpl. destruct (Ascii.ascii_dec c c); [exact IH | congruence].
Qed.

(** A [bind] that returned went through a returning first half. *)
Lemma bind_returned {W A B} (m : M W A) (k : A -> M W B) (w w' : W) (b : B) :
  bind m k w = (Returned b, w') ->
  exists a w1, m w = (Returned a, w1) /\ k a w1 = (Returned b, w').
Proof.
  unfold bind. destruct (m w) as [[a|e|] w1]; intros H; try discriminate.
  exists a, w1. auto.
Qed.

(** *** The [finally] block *)

Lemma delete_temp_file_spec (t : string) (w : World) :
  exists w', delete_temp_file t w = (Returned tt, w') /\
             forall p, p <> t -> on_disk w p -> on_disk w' p.
Proof.
  unfold delete_temp_file, try_except, bind, path_exists, gets.
  destruct (files w !! t) as [f|] eqn:E.
  - rewrite bool_decide_eq_true_2 by eauto.
    unfold unlink, bind, get. rewrite E. unfold modify.
    eexists. split; [reflexivity|].
    intros p Hp [x Hx]. unfold on_disk. simpl.
    rewrite lookup_delete_ne by congruence. eauto.
  - rewrite bool_decide_eq_false_2 by (intros [x Hx]; discriminate).
    eexists. split; [reflexivity|]. auto.
Qed.

Lemma cleanup_loop_spec (l : list string) :
  Forall (fun p => in_temp p = true) l ->
  forall w, exists w', for_each l delete_temp_file w = (Returned tt, w') /\ keeps w w'.
Proof.
  induction 1 as [|t l Ht _ IH]; intros w; simpl.
  - exists w. split; [reflexivity | apply keeps_refl].
  - destruct (delete_temp_file_spec t w) as (w1 & E1 & K1).
    destruct (IH w1) as (w2 & E2 & K2).
    exists w2. unfold bind. rewrite E1. split; [exact E2|].
    intros p Hp Hon. apply K2; [exact Hp|]. apply K1; [|exact Hon].
    intros ->. congruence.
Qed.

Lemma cleanup_temp_files_spec (w : World) :
  temps_ok w ->
  exists w', cleanup_temp_files w = (Returned tt, w') /\ keeps w w'.
Proof.
  intros H. unfold cleanup_temp_files, bind, get.
  apply cleanup_loop_spec. exact H.
Qed.

(** *** [_process_chunk] *)

(** The state in which the [try] block of [_process_chunk] starts. *)
Definition try_entry (w : World) : World :=
  set_temp_files (fun _ => []) (add_log "Processing chunk..." w).

(** The output-existence check: a chunk whose output file is on disk is
    skipped; no tool runs and the disk is as before. *)
Lemma process_chunk_skip (chunk : ChunkInfo) (w : World) :
  on_disk w (output_path chunk) ->
  _process_chunk exec self chunk w
  = (Returned (true, chunk),
     add_log "Chunk already processed, skipping" (add_log "Processing chunk..." w)).
Proof.
  intros H. unfold _process_chunk, bind, logger, modify, path_exists, gets. simpl.
  rewrite bool_decide_eq_true_2 by exact H. reflexivity.
Qed.

(** The shape of [_process_chunk] when the output file is not there. *)
Lemma process_chunk_unfold (chunk : ChunkInfo) (w : World) :
  files w !! output_path chunk = None ->
  _process_chunk exec self chunk w
  = try_finally
      (try_except
         (chunk' <- chunk_pipeline exec self chunk ;; ret (true, chunk'))
         (fun _ => logger "Error processing chunk" ;;; ret (false, chunk)))
      cleanup_temp_files (try_entry w).
Proof.
  intros H. unfold _process_chunk, bind at 1 2 3, logger, modify, path_exists, gets. simpl.
  rewrite bool_decide_eq_false_2 by (rewrite H; intros [x Hx]; discriminate).
  reflexivity.
Qed.

(** An exception of the sub-pipeline becomes the result [False]; the
    chunk object is left as it was. *)
Lemma process_chunk_caught (chunk : ChunkInfo) (w w3 : World) (e : Exn) :
  files w !! output_path chunk = None ->
  chunk_pipeline exec self chunk (try_entry w) = (Raised e, w3) ->
  exists w', _process_chunk exec self chunk w = (Returned (false, chunk), w') /\
             keeps w w'.
Proof.
  intros Hnone Hraise. rewrite process_chunk_unfold by exact Hnone.
  destruct (tidy_chunk_pipeline chunk _ _ _ Hraise) as [G T].
  assert (T3 : temps_ok (add_log "Error processing chunk" w3)).
  { apply T. constructor. }
  destruct (cleanup_temp_files_spec _ T3) as (w' & Ec & Kc).
  exists w'. unfold try_finally, try_except, bind at 1. rewrite Hraise.
  unfold bind, logger, modify, ret. simpl. rewrite Ec. split; [reflexivity|].
  intros p Hp Hon. apply Kc; [exact Hp|]. apply (G p). exact Hon.
Qed.

Lemma process_chunk_keeps (chunk : ChunkInfo) (w w' : World) r :
  _process_chunk exec self chunk w = (r, w') -> keeps w w'.
Proof.
  destruct (files w !! output_path chunk) as [f|] eqn:E.
  - rewrite process_chunk_skip by (unfold on_disk; rewrite E; eauto).
    intros [= <- <-]. intros p _ H. exact H.
  - rewrite process_chunk_unfold by exact E.
    unfold try_finally.
    set (body := try_except _ _).
    assert (Hbody : tidy body).
    { subst body. apply tidy_try_except.
      - apply tidy_bind; [apply tidy_chunk_pipeline | intros; apply tidy_ret].
      - intros e. apply tidy_bind; [apply tidy_logger | intros; apply tidy_ret]. }
    destruct (body (try_entry w)) as [o w1] eqn:Eb.
    destruct (Hbody _ _ _ Eb) as [G T].
    assert (T1 : temps_ok w1) by (apply T; constructor).
    destruct (cleanup_temp_files_spec _ T1) as (w2 & Ec & Kc).
    assert (K : keeps w w2).
    { intros p Hp Hon. apply Kc; [exact Hp|]. apply (G p). exact Hon. }
    rewrite Ec. destruct o; intros [= <- <-]; try exact K.
    intros p Hp Hon. apply (G p). exact Hon.
Qed.

(** A computation that removes nothing outside the temporary directory. *)
Definition gentle {A} (m : Py A) : Prop :=
  forall w r w', m w = (r, w') -> keeps w w'.

Lemma tidy_gentle {A} (m : Py A) : tidy m -> gentle m.
Proof. intros H w r w' E. apply files_grow_keeps. apply (H _ _ _ E). Qed.

Lemma gentle_bind {A B} (m : Py A) (k : A -> Py B) :
  gentle m -> (forall a, gentle (k a)) -> gentle (bind m k).
Proof.
  intros Hm Hk w r w' H. unfold bind in H.
  destruct (m w) as [[a|e|] w1] eqn:E; pose proof (Hm _ _ _ E) as K.
  - eapply keeps_trans; [exact K | eapply Hk; exact H].
  - injection H as <- <-. exact K.
  - injection H as <- <-. exact K.
Qed.

Lemma gentle_process_chunk (chunk : ChunkInfo) : gentle (_process_chunk exec self chunk).
Proof. intros w r w' H. eapply process_chunk_keeps; exact H. Qed.

Lemma tidy_store_and_save (c : ChunkInfo) :
  tidy (modify (set_mem (store_chunk c)) ;;; _save_state).
Proof. tidy_tac. Qed.

Lemma gentle_process_chunks (cs : list ChunkInfo) : gentle (process_chunks exec self cs).
Proof.
  induction cs as [|chunk rest IH]; simpl.
  - apply tidy_gentle, tidy_ret.
  - destruct (processed chunk); simpl.
    + apply gentle_bind; [exact IH | intros; apply tidy_gentle, tidy_ret].
    + apply gentle_bind; [apply gentle_process_chunk|].
      intros [success chunk']. destruct success; simpl.
      * apply gentle_bind; [apply tidy_gentle, tidy_set_mem | intros _].
        apply gentle_bind; [apply tidy_gentle, tidy_save_state | intros _].
        apply gentle_bind; [exact IH | intros; apply tidy_gentle, tidy_ret].
      * apply tidy_gentle. tidy_tac.
Qed.

(** A sub-pipeline that returned has left the chunk's output on disk. *)
Lemma chunk_pipeline_output (chunk c' : ChunkInfo) (w w1 : World) :
  chunk_pipeline exec self chunk w = (Returned c', w1) ->
  on_disk w1 (output_path chunk).
Proof.
  unfold chunk_pipeline. intros H.
  do 6 (apply bind_returned in H as (? & ? & _ & H)).
  apply bind_returned in H as (? & ? & _ & H).
  apply bind_returned in H as (? & ? & _ & H).
  apply bind_returned in H as (sum & wa & Hsum & H).
  apply bind_returned in H as (? & wb & Hlog & H).
  injection H as <- <-. injection Hlog as <- <-.
  unfold _calculate_checksum, bind, get in Hsum.
  unfold on_disk. simpl.
  destruct (files _ !! output_path chunk) as [f|] eqn:E; [|discriminate].
  injection Hsum as <- <-. rewrite E. eauto.
Qed.

Lemma process_chunk_success_on_disk (chunk c' : ChunkInfo) (w w' : World) :
  _process_chunk exec self chunk w = (Returned (true, c'), w') ->
  in_temp (output_path chunk) = false ->
  on_disk w' (output_path chunk).
Proof.
  intros H Hout.
  destruct (files w !! output_path chunk) as [f|] eqn:E.
  - eapply process_chunk_keeps; [exact H | exact Hout |].
    unfold on_disk. rewrite E. eauto.
  - rewrite process_chunk_unfold in H by exact E.
    unfold try_finally, try_except, bind at 1 in H.
    destruct (chunk_pipeline exec self chunk (try_entry w)) as [[c''|e|] w1] eqn:Ep.
    + pose proof (chunk_pipeline_output _ _ _ _ Ep) as Hon.
      destruct (tidy_chunk_pipeline chunk _ _ _ Ep) as [_ T].
      assert (T1 : temps_ok w1) by (apply T; constructor).
      destruct (cleanup_temp_files_spec _ T1) as (w2 & Ec & Kc).
      unfold ret in H. rewrite Ec in H. injection H as <- <-.
      apply Kc; assumption.
    + unfold bind, logger, modify, ret in H. simpl in H.
      destruct (cleanup_temp_files _) as [[[]|?|] ?]; discriminate.
    + discriminate.
Qed.

(** *** The chunk loop *)

(** The loop over [done ++ rest] once it has gone through [done]. *)
Lemma process_chunks_app (rest : list ChunkInfo) :
  forall (done done' : list ChunkInfo) (w1 w2 : World),
    process_chunks exec self done w1 = (Returned (true, done'), w2) ->
    process_chunks exec self (done ++ rest) w1
    = bind (process_chunks exec self rest)
           (fun r => ret (r.1, (done' ++ r.2)%list)) w2.
Proof.
  induction done as [|chunk done IH]; intros done' w1 w2 H.
  - injection H as <- <-. simpl. unfold bind.
    destruct (process_chunks exec self rest w1) as [[[b l]|e|] w3]; reflexivity.
  - simpl in *. destruct (processed chunk); simpl in *.
    + apply bind_returned in H as ([b l] & w1' & Hd & H).
      injection H as -> <- <-. simpl in Hd.
      unfold bind at 1. rewrite (IH _ _ _ Hd). unfold bind.
      destruct (process_chunks exec self rest w1') as [[[b' l']|e|] w3]; reflexivity.
    + apply bind_returned in H as ([s c'] & wa & Hp & H).
      unfold bind at 1. rewrite Hp.
      destruct s; simpl in *; [|apply bind_returned in H as (? & ? & _ & H); discriminate].
      apply bind_returned in H as (? & wb & Hb & H). unfold bind at 1. rewrite Hb.
      apply bind_returned in H as (? & wc & Hc & H). unfold bind at 1. rewrite Hc.
      apply bind_returned in H as ([b l] & wd & Hd & H).
      injection H as -> <- <-. simpl in Hd.
      unfold bind at 1. rewrite (IH _ _ _ Hd). unfold bind.
      destruct (process_chunks exec self rest wd) as [[[b' l']|e|] w3]; reflexivity.
Qed.

(** Every chunk the loop has gone through and had to process has its
    output on disk. *)
Lemma process_chunks_outputs :
  forall (done done' : list ChunkInfo) (w w' : World),
    process_chunks exec self done w = (Returned (true, done'), w') ->
    forall c, c ∈ done -> processed c = false ->
              in_temp (output_path c) = false -> on_disk w' (output_path c).
Proof.
  induction done as [|chunk done IH]; intros done' w w' H c Hin Hc Hout.
  - inversion Hin.
  - simpl in H. destruct (processed chunk) eqn:Epc; simpl in H.
    + apply bind_returned in H as ([b l] & w1 & Hd & H).
      injection H as -> <- <-. simpl in Hd.
      apply elem_of_cons in Hin as [->|Hin]; [congruence|].
      eapply IH; eauto.
    + apply bind_returned in H as ([s c'] & wa & Hp & H).
      destruct s; simpl in H; [|apply bind_returned in H as (? & ? & _ & H); discriminate].
      apply bind_returned in H as (? & wb & Hb & H).
      apply bind_returned in H as (? & wc & Hc' & H).
      apply bind_returned in H as ([b l] & wd & Hd & H).
      injection H as -> <- <-. simpl in Hd.
      apply elem_of_cons in Hin as [->|Hin]; [|eapply IH; eauto].
      eapply gentle_process_chunks; [exact Hd | exact Hout |].
      eapply (tidy_save_state _ _ _ Hc'). eapply (tidy_set_mem _ _ _ _ Hb).
      eapply process_chunk_success_on_disk; eauto.
Qed.

(** The loop on chunks that are flagged as processed or have their output
    on disk: every one is skipped, by the flag or by the output-existence
    check; no tool runs and the files on disk stay as they are. *)
Lemma process_chunks_skips :
  forall (cs : list ChunkInfo) (w : World),
    state_writable w = true ->
    (forall c, c ∈ cs -> processed c = true \/ on_disk w (output_path c)) ->
    exists w', process_chunks exec self cs w = (Returned (true, cs), w') /\
               files w' = files w.
Proof.
  induction cs as [|chunk rest IH]; intros w Hwr Hall.
  - exists w. split; reflexivity.
  - assert (Hrest : forall w1, files w1 = files w ->
              forall c, c ∈ rest -> processed c = true \/ on_disk w1 (output_path c)).
    { intros w1 Hf c Hc. destruct (Hall c) as [?|Hon]; [now right | now left |].
      right. unfold on_disk in *. rewrite Hf. exact Hon. }
    simpl. destruct (processed chunk) eqn:Ep; simpl.
    + destruct (IH w Hwr (Hrest w eq_refl)) as (w' & Hrun & Hf).
      exists w'. unfold bind. rewrite Hrun. split; [reflexivity | exact Hf].
    + destruct (Hall chunk) as [Hflag|Hon]; [apply list_elem_of_here | congruence |].
      unfold bind at 1. rewrite (process_chunk_skip chunk w Hon). simpl.
      unfold bind at 1, modify at 1. unfold bind at 1, _save_state, bind at 1, get at 1.
      simpl. rewrite Hwr. unfold modify at 1.
      match goal with
      | |- context [bind (process_chunks exec self rest) _ ?w1] =>
          destruct (IH w1) as (w' & Hrun & Hf);
            [simpl; exact Hwr | apply Hrest; reflexivity |];
          exists w'; unfold bind; rewrite Hrun; split; [reflexivity | exact Hf]
      end.
Qed.

(** *** Before the chunk loop *)

(** The instance has no attribute [chunk_dir]. *)
Lemma getattr_chunk_dir : getattr self "chunk_dir" = raise (AttributeError "chunk_dir").
Proof. reflexivity. Qed.

Lemma tidy_validate_input : tidy (validate_input self).
Proof.
  unfold validate_input. rewrite getattr_chunk_dir.
  apply tidy_bind; [apply tidy_calculate_checksum | intros sum].
  apply tidy_bind; [apply tidy_get | intros w].
  destruct (_ && _); [|tidy_tac].
  apply tidy_bind; [apply tidy_logger | intros _].
  apply tidy_bind; [apply tidy_set_mem | intros _].
  apply tidy_bind; [apply tidy_save_state | intros _].
  apply tidy_bind_raise.
Qed.

Lemma tidy_calculate_chunks (fuel : nat) : tidy (_calculate_chunks fuel self).
Proof. unfold _calculate_chunks. tidy_tac. Qed.

Lemma tidy_split_into_chunks (cs : list ChunkInfo) : tidy (_split_into_chunks exec self cs).
Proof. unfold _split_into_chunks. tidy_tac. Qed.

Lemma tidy_prepare_chunks (fuel : nat) : tidy (prepare_chunks exec fuel self).
Proof.
  unfold prepare_chunks.
  repeat first [ apply tidy_validate_input | apply tidy_calculate_chunks
               | apply tidy_split_into_chunks | tidy_step ].
Qed.

(** ** A failed chunk is fatal to the run *)

(** C8.  [run] has prepared the chunk list [done ++ chunk :: rest] and its
    loop has gone through [done].  The next chunk is not yet processed, its
    output file is not on disk, and its sub-pipeline raises an exception
    [e], whichever it is.  Then [_process_chunk] catches it and returns
    [False] with the chunk object untouched, and [run] returns [False]
    (the later chunks and steps are not run).  Nothing that was on disk
    outside the temporary directory has been removed, and the chunks of
    [done] that this run had to process have their output file on disk.
    Such an output file is what a later call of [_process_chunk] checks
    first: it returns [True] at once, runs no tool and leaves the files as
    they are; and a later chunk loop over chunks that each are flagged as
    processed or have their output on disk skips them all. *)
Theorem failed_chunk_aborts_run
    (finish_pipeline : VideoEditor -> list ChunkInfo -> Py unit)
    (fuel : nat) (w w1 w2 w3 : World)
    (done done' rest : list ChunkInfo) (chunk : ChunkInfo) (e : Exn) :
  prepare_chunks exec fuel self w = (Returned (done ++ chunk :: rest)%list, w1) ->
  process_chunks exec self done w1 = (Returned (true, done'), w2) ->
  processed chunk = false ->
  files w2 !! output_path chunk = None ->
  chunk_pipeline exec self chunk (try_entry w2) = (Raised e, w3) ->
  exists w4 : World,
    _process_chunk exec self chunk w2 = (Returned (false, chunk), w4) /\
    run exec finish_pipeline fuel self w
      = (Returned false, add_log "Failed to process chunk" w4) /\
    keeps w w4 /\
    (forall c, c ∈ done -> processed c = false ->
               in_temp (output_path c) = false -> on_disk w4 (output_path c)) /\
    (forall c w', on_disk w4 (output_path c) -> files w' = files w4 ->
       exists w'', _process_chunk exec self c w' = (Returned (true, c), w'') /\
                   files w'' = files w') /\
    (forall cs w', files w' = files w4 -> state_writable w' = true ->
       (forall c, c ∈ cs -> processed c = true \/ on_disk w4 (output_path c)) ->
       exists w'', process_chunks exec self cs w' = (Returned (true, cs), w'') /\
                   files w'' = files w').
Proof.
  intros Hprep Hdone Hflag Hnone Hraise.
  destruct (process_chunk_caught chunk w2 w3 e Hnone Hraise) as (w4 & Hpc & K24).
  exists w4. split; [exact Hpc|].
  assert (K12 : keeps w1 w2) by (eapply gentle_process_chunks; exact Hdone).
  assert (K01 : keeps w w1).
  { apply files_grow_keeps. eapply tidy_prepare_chunks. exact Hprep. }
  split; [|split; [|split; [|split]]].
  - unfold run, try_except, bind at 1. rewrite Hprep.
    unfold bind at 1. rewrite (process_chunks_app _ _ _ _ _ Hdone).
    simpl. rewrite Hflag. simpl.
    unfold bind at 1 2. rewrite Hpc. simpl. reflexivity.
  - eapply keeps_trans; [exact K01|]. eapply keeps_trans; [exact K12 | exact K24].
  - intros c Hin Hc Hout. apply K24; [exact Hout|].
    eapply process_chunks_outputs; eauto.
  - intros c w' Hon Hfiles.
    assert (Hon' : on_disk w' (output_path c)) by (unfold on_disk in *; congruence).
    rewrite (process_chunk_skip c w' Hon'). eexists. split; reflexivity.
  - intros cs w' Hfiles Hwr Hall. apply process_chunks_skips; [exact Hwr|].
    intros c Hc. destruct (Hall c Hc) as [?|Hon]; [now left|].
    right. unfold on_disk in *. congruence.
Qed.

End Frame.

(** *** A run in which the second of three chunks fails *)

(** What a tool that works writes. *)
Definition produced (output : string) : File :=
  {| sha256 := "sha256 of " ++ output; probe_duration := Some 1%Q;
     probe_dimensions := Some (1920, 1080)%Z |}.

(** Every tool works, except the final re-encoding of chunk 1. *)
Definition flaky_exec (t : Tool) (input output : string) (fs : gmap string File)
    : ExecResult :=
  match t with
  | Reencode =>
      if String.eqb output "work/chunks/chunk_001_output.mp4"
      then ExitNonZero None else Exit0 (produced output)
  | _ => Exit0 (produced output)
  end.

Definition no_finish (self : VideoEditor) (cs : list ChunkInfo) : Py unit := ret tt.

Definition chunk0 : ChunkInfo := make_chunk example_editor 0 0 300.
Definition chunk1 : ChunkInfo := make_chunk example_editor 1 300 600.
Definition chunk2 : ChunkInfo := make_chunk example_editor 2 600 650.

Definition after_prepare : World :=
  (prepare_chunks flaky_exec 4 example_editor first_run_world).2.

Definition after_chunk0 : World :=
  (process_chunks flaky_exec example_editor [chunk0] after_prepare).2.

Definition chunk0_done : ChunkInfo :=
  set_processed chunk0 "sha256 of work/chunks/chunk_000_output.mp4".

Definition chunk1_crash : World :=
  (chunk_pipeline flaky_exec example_editor chunk1 (try_entry after_chunk0)).2.

Lemma failed_chunk_aborts_run_witness :
  exists w4 : World,
    _process_chunk flaky_exec example_editor chunk1 after_chunk0
      = (Returned (false, chunk1), w4) /\
    run flaky_exec no_finish 4 example_editor first_run_world
      = (Returned false, add_log "Failed to process chunk" w4) /\
    keeps example_editor first_run_world w4 /\
    on_disk w4 "work/chunks/chunk_000_output.mp4" /\
    (forall w', files w' = files w4 ->
       exists w'', _process_chunk flaky_exec example_editor chunk0 w'
                   = (Returned (true, chunk0), w'') /\ files w'' = files w').
Proof.
  destruct (failed_chunk_aborts_run flaky_exec example_editor no_finish 4
              first_run_world after_prepare after_chunk0 chunk1_crash
              [chunk0] [chunk0_done] [chunk2] chunk1 CalledProcessError)
    as (w4 & Hpc & Hrun & Hkeep & Hout & Hskip & _).
  - vm_compute. reflexivity.
  - vm_compute. reflexivity.
  - reflexivity.
  - vm_compute. reflexivity.
  - vm_compute. reflexivity.
  - exists w4.
    assert (Hon : on_disk w4 "work/chunks/chunk_000_output.mp4").
    { apply (Hout chunk0); [apply list_elem_of_singleton | |]; reflexivity. }
    split; [exact Hpc|]. split; [exact Hrun|]. split; [exact Hkeep|].
    split; [exact Hon|].
    intros w' Hw'. apply (Hskip chunk0 w'); [exact Hon | exact Hw'].
Defined.

(** ** A changed input video *)

(** Whatever the tools do, a run that finds a stored checksum different
    from the checksum of the input resets the state, writes it, and then
    stops on [self.chunk_dir]: the attribute does not exist ([__init__]
    names it [chunks_dir]).  [run] catches the [AttributeError] and returns
    [False]; no directory has been emptied. *)
Lemma changed_input_run_stops
    (exec : Tool -> string -> string -> gmap string File -> ExecResult)
    (finish_pipeline : VideoEditor -> list ChunkInfo -> Py unit)
    (fuel : nat) (self : VideoEditor) (w : World) (f : File) (saved : string) :
  files w !! input_video (config self) = Some f ->
  input_checksum (metadata (mem w)) = Some saved ->
  truthy (Some saved) = true ->
  saved <> sha256 f ->
  state_writable w = true ->
  exists w',
    run exec finish_pipeline fuel self w = (Returned false, w') /\
    mem w' = fresh_state (sha256 f) /\
    state_json w' = Some (fresh_state (sha256 f)) /\
    files w' = files w /\
    dirs w' = dirs w.
Proof.
  intros Hf Hsaved Htruthy Hne Hwr.
  unfold run, try_except, prepare_chunks, bind at 1 2 3.
  unfold logger at 1, modify at 1.
  unfold validate_input. rewrite getattr_chunk_dir.
  unfold bind at 1. unfold _calculate_checksum, bind at 1, get at 1. simpl.
  rewrite Hf. unfold ret at 1. unfold bind at 1, get at 1. simpl.
  rewrite Hsaved, Htruthy. simpl.
  rewrite bool_decide_eq_false_2 by congruence. simpl.
  unfold _save_state. unfold bind, logger, modify, get, raise. simpl.
  rewrite Hwr. simpl.
  eexists. split; [reflexivity|]. simpl. auto.
Qed.

(** The state file of an interrupted earlier run on the first video
    (checksum "aa11"): chunk 0 was processed. *)
Definition resumed_state : EditState :=
  {| chunks := [chunk0_done; chunk1; chunk2];
     current_step := Some "init";
     completed_steps := ["chunk_calculation"; "chunk_splitting"];
     metadata :=
       {| input_checksum := Some "aa11"; total_chunks := Some 3%nat;
          total_duration := Some 650%Q; concat_output := None;
          transcript := None |} |}.

(** What is left of chunk 0 of the first video. *)
Definition stale_file : File :=
  {| sha256 := "cut from the first video"; probe_duration := Some 250%Q;
     probe_dimensions := Some (1920, 1080)%Z |}.

(** The input video has been replaced (checksum "bb22"); the chunk
    directory still holds the files cut from the first one. *)
Definition changed_input_world : World :=
  {| mem := resumed_state;
     temp_files := [];
     files := {[ "downloads/raw.mp4" := example_input "bb22";
                 "work/chunks/chunk_000_input.mp4" := stale_file;
                 "work/chunks/chunk_000_output.mp4" := stale_file ]};
     dirs := {[ "work/chunks"; "work/temp" ]};
     state_json := Some resumed_state;
     state_writable := true;
     ffprobe_installed := true;
     output_decodes := fun _ _ _ _ => true;
     log := [] |}.

(** Every tool works. *)
Definition working_exec (t : Tool) (input output : string) (fs : gmap string File)
    : ExecResult := Exit0 (produced output).

(** C2, as the code runs.  On the changed input the first run resets the
    state file but returns [False] with the chunk directory untouched.  The
    next invocation ([__init__], then [run]) finds the new checksum stored,
    recomputes the chunks, and skips both the split and the processing of
    chunk 0 because the files of the first video are still there: the run
    returns [True] with the stale output of chunk 0 in place. *)
Theorem changed_input_reuses_stale_chunk :
  let first := run working_exec no_finish 4 example_editor changed_input_world in
  let reopened := __init__ example_editor first.2 in
  let second := run working_exec no_finish 4 example_editor reopened.2 in
  first.1 = Returned false /\
  state_json first.2 = Some (fresh_state "bb22") /\
  files first.2 = files changed_input_world /\
  dirs first.2 = dirs changed_input_world /\
  second.1 = Returned true /\
  files second.2 !! "work/chunks/chunk_000_output.mp4" = Some stale_file /\
  files second.2 !! "work/chunks/chunk_000_input.mp4" = Some stale_file.
Proof.
  intros first reopened second.
  destruct (changed_input_run_stops working_exec no_finish 4 example_editor
              changed_input_world (example_input "bb22") "aa11")
    as (w' & Hrun & _ & Hjson & Hfiles & Hdirs);
    [reflexivity | reflexivity | reflexivity | discriminate | reflexivity |].
  assert (Hfirst : first = (Returned false, w')) by exact Hrun.
  split; [rewrite Hfirst; reflexivity|].
  split; [rewrite Hfirst; exact Hjson|].
  split; [rewrite Hfirst; exact Hfiles|].
  split; [rewrite Hfirst; exact Hdirs|].
  split; [vm_compute; reflexivity|].
  split; vm_compute; reflexivity.
Qed.

(* ===================================================================== *)
(** ** Further facts on the chunk loop                                     *)
(* ===================================================================== *)

Local Open Scope Q_scope.

(** Every chunk the loop appends carries [duration = end - start]. *)
Definition duration_consistent (c : ChunkInfo) : Prop :=
  duration c = end_time c - start_time c.

Lemma calculate_chunks_loop_durations (self : VideoEditor) (D : Q) :
  forall (fuel : nat) (start : Q) (id : nat) (acc cs : list ChunkInfo),
    calculate_chunks_loop fuel self D start id acc = Some cs ->
    Forall duration_consistent acc -> Forall duration_consistent cs.
Proof.
  induction fuel as [|fuel IH]; intros start id acc cs H Hacc; [discriminate|].
  simpl in H. destruct (Qlt_le_dec start D).
  - eapply IH; [exact H|]. apply Forall_app. split; [exact Hacc|].
    constructor; [reflexivity | constructor].
  - injection H as <-. exact Hacc.
Qed.

(** [sum(c.duration for c in chunks)] *)
Definition total_chunk_duration (cs : list ChunkInfo) : Q :=
  fold_right (fun c acc => duration c + acc) 0 cs.

Lemma contiguous_total_duration (cs : list ChunkInfo) :
  forall s e, contiguous s cs e -> Forall duration_consistent cs ->
              total_chunk_duration cs == e - s.
Proof.
  induction cs as [|c cs IH]; intros s e Hc Hd; simpl in *.
  - rewrite Hc. ring.
  - destruct Hc as (Hs & _ & Hc). apply Forall_cons in Hd as [Hd Hds].
    rewrite (IH _ _ Hc Hds), Hd, Hs. ring.
Qed.

(** X1.  Whatever the fuel, when the chunk loop ends on a video of length
    [D > 0] cut every [C > 0] seconds, the [duration] fields of its chunks
    add up to [D], and every chunk lasts more than 0 and at most [C]
    seconds. *)
Theorem chunk_durations_sum_to_total (self : VideoEditor) (D : Q) (fuel : nat)
    (cs : list ChunkInfo) :
  let C := chunk_duration (config self) in
  0 < D -> (0 < C)%Z ->
  calculate_chunks_loop fuel self D 0 0 [] = Some cs ->
  total_chunk_duration cs == D /\
  Forall (fun c => 0 < duration c <= inject_Z C) cs.
Proof.
  intros C HD HC Hrun.
  destruct (chunk_count_bounds D C HD HC) as (Hup & Hlow & _).
  destruct (calculate_chunks_loop_spec self D HC (chunk_count D C)
              (S (chunk_count D C)) 0 0%nat [])
    as (cs0 & Hrun0 & _ & Hcont & Hclip & _);
    [lia | lra | fold C; lra | intros m Hm; specialize (Hlow m Hm); fold C; lra |].
  change ([] ++ cs0)%list with cs0 in Hrun0.
  assert (cs0 = cs) as ->.
  { destruct (Nat.le_ge_cases fuel (S (chunk_count D C))) as [Hle|Hge].
    - pose proof (calculate_chunks_loop_fuel_mono self D _ _ _ _ _ _ Hrun Hle). congruence.
    - pose proof (calculate_chunks_loop_fuel_mono self D _ _ _ _ _ _ Hrun0 Hge). congruence. }
  pose proof (calculate_chunks_loop_durations self D _ _ _ _ _ Hrun (Forall_nil_2 _)) as Hd.
  split.
  - rewrite (contiguous_total_duration cs 0 D Hcont Hd). ring.
  - clear Hrun Hrun0. revert Hcont Hclip Hd. generalize 0 at 1. 
    induction cs as [|c cs IH]; intros s Hcont Hclip Hd; [constructor|].
    destruct Hcont as (Hs & Hlt & Hcont).
    apply Forall_cons in Hclip as [Hc Hclip]. apply Forall_cons in Hd as [Hdc Hd].
    constructor; [|eapply IH; eauto].
    rewrite Hdc. unfold clipped in Hc. fold C in Hc.
    pose proof (Q.le_min_l (start_time c + inject_Z C) D). split; lra.
Qed.

Lemma chunk_durations_sum_to_total_witness :
  exists cs, calculate_chunks_loop 10 example_editor 650 0 0 [] = Some cs /\
             total_chunk_duration cs == 650 /\
             Forall (fun c => 0 < duration c <= 300) cs.
Proof.
  eexists. split; [vm_compute; reflexivity|].
  apply (chunk_durations_sum_to_total example_editor 650 10);
    [reflexivity | reflexivity | vm_compute; reflexivity].
Defined.

(** A configuration whose chunk duration is 0. *)
Definition zero_chunk_editor : VideoEditor :=
  {| config :=
       {| input_video := "downloads/raw.mp4";
          output_video := "edited/raw_EDITED.mp4";
          speed_multiplier := 12 # 10;
          remove_silence := true; apply_transitions := true;
          apply_zoom_effects := true; add_subtitles := true;
          add_subscribe_popup := true; add_sound_effects := true;
          background_music := None; chunk_duration := 0; max_workers := 2;
          extract_subtitles := true; generate_metadata := true;
          openrouter_api_key := None |};
     work_dir := "work" |}.

Lemma calculate_chunks_loop_stuck (self : VideoEditor) (D : Q) :
  (chunk_duration (config self) <= 0)%Z ->
  forall (fuel : nat) (start : Q) (id : nat) (acc : list ChunkInfo),
    start < D -> calculate_chunks_loop fuel self D start id acc = None.
Proof.
  intros HC. assert (HCq : inject_Z (chunk_duration (config self)) <= 0).
  { change 0 with (inject_Z 0). rewrite <- Zle_Qle. exact HC. }
  induction fuel as [|fuel IH]; intros start id acc Hlt; [reflexivity|].
  simpl. destruct (Qlt_le_dec start D) as [_|Hge]; [|lra].
  apply IH. apply Q.min_lt_iff. left. lra.
Qed.

(** X2.  With a configured chunk duration of 0 or less and a video of
    positive length the [while] loop of [_calculate_chunks] never ends:
    [start] never reaches the duration, so no amount of fuel gives a chunk
    list, and nothing is written to the state. *)
Theorem calculate_chunks_never_ends (self : VideoEditor) (w : World) (f : File)
    (D : Q) (fuel : nat) :
  (chunk_duration (config self) <= 0)%Z ->
  0 < D ->
  chunks (mem w) = [] ->
  ffprobe_installed w = true ->
  files w !! input_video (config self) = Some f ->
  probe_duration f = Some D ->
  _calculate_chunks fuel self w = (Diverged, w).
Proof.
  intros HC HD Hcache Hprobe Hfile Hdur.
  unfold _calculate_chunks, bind, get. rewrite Hcache.
  unfold _get_video_duration, bind, get. rewrite Hprobe. simpl.
  rewrite Hfile, Hdur. unfold ret.
  rewrite (calculate_chunks_loop_stuck self D HC fuel 0 0%nat [] HD). reflexivity.
Qed.

Lemma calculate_chunks_never_ends_witness :
  _calculate_chunks 1000 zero_chunk_editor first_run_world = (Diverged, first_run_world).
Proof.
  apply (calculate_chunks_never_ends zero_chunk_editor first_run_world
           (example_input "aa11") 650 1000);
    [discriminate | reflexivity | reflexivity | reflexivity | reflexivity | reflexivity].
Defined.

(** X3.  A video whose reported duration is 0 or negative gives no chunk at
    all: [_calculate_chunks] returns the empty list after one test of the
    loop condition and records [total_chunks = 0]. *)
Theorem calculate_chunks_empty_video (self : VideoEditor) (w : World) (f : File)
    (D : Q) (fuel : nat) :
  D <= 0 ->
  chunks (mem w) = [] ->
  ffprobe_installed w = true ->
  files w !! input_video (config self) = Some f ->
  probe_duration f = Some D ->
  state_writable w = true ->
  exists w',
    _calculate_chunks (S fuel) self w = (Returned [], w') /\
    total_chunks (metadata (mem w')) = Some 0%nat /\
    chunks (mem w') = [] /\
    state_json w' = Some (mem w') /\
    files w' = files w.
Proof.
  intros HD Hcache Hprobe Hfile Hdur Hwr.
  unfold _calculate_chunks, bind, get. rewrite Hcache.
  unfold _get_video_duration, bind, get. rewrite Hprobe. simpl.
  rewrite Hfile, Hdur. unfold ret.
  destruct (Qlt_le_dec 0 D) as [Hlt|_]; [lra|].
  unfold modify, _save_state, bind, get. simpl. rewrite Hwr.
  eexists. split; [reflexivity|]. simpl. repeat split.
Qed.

Definition empty_video_world : World :=
  {| mem := initial_state; temp_files := [];
     files := {[ "downloads/raw.mp4" :=
                   {| sha256 := "aa11"; probe_duration := Some 0;
                      probe_dimensions := None |} ]};
     dirs := {[ "work/chunks"; "work/temp" ]};
     state_json := None; state_writable := true;
     ffprobe_installed := true;
     output_decodes := fun _ _ _ _ => true; log := [] |}.

Lemma calculate_chunks_empty_video_witness :
  exists w',
    _calculate_chunks 1 example_editor empty_video_world = (Returned [], w') /\
    total_chunks (metadata (mem w')) = Some 0%nat.
Proof.
  destruct (calculate_chunks_empty_video example_editor empty_video_world
              {| sha256 := "aa11"; probe_duration := Some 0; probe_dimensions := None |}
              0 0)
    as (w' & Hrun & Htot & _);
    [discriminate | reflexivity | reflexivity | reflexivity | reflexivity | reflexivity |].
  exists w'. split; assumption.
Defined.

Local Close Scope Q_scope.

(* ===================================================================== *)
(** ** Further facts on the editor's steps                                 *)
(* ===================================================================== *)

Abbreviation Exec := (Tool -> string -> string -> gmap string File -> ExecResult).

(** *** [_split_into_chunks] *)

(** The body of the [for chunk in chunks] loop of [_split_into_chunks]. *)
Definition split_one (exec : Exec) (self : VideoEditor) (chunk : ChunkInfo) : Py unit :=
  present <- path_exists (input_path chunk) ;;
  if present then logger "Chunk already exists, skipping split"
  else
    logger "Extracting chunk" ;;;
    subprocess_run exec (SplitCopy (start_time chunk) (duration chunk))
      (input_video (config self)) (input_path chunk) ;;;
    logger "Chunk extracted successfully".

Lemma split_into_chunks_unfold (exec : Exec) (self : VideoEditor) (cs : list ChunkInfo)
    (w : World) :
  _split_into_chunks exec self cs w
  = for_each cs (split_one exec self) (add_log "Splitting video into chunks..." w).
Proof. reflexivity. Qed.

Lemma split_loop_present (exec : Exec) (self : VideoEditor) (cs : list ChunkInfo) :
  forall w,
    (forall c, c ∈ cs -> is_Some (files w !! input_path c)) ->
    exists w',
      for_each cs (split_one exec self) w = (Returned tt, w') /\
      files w' = files w /\ mem w' = mem w /\ state_json w' = state_json w.
Proof.
  induction cs as [|c cs IH]; intros w Hall.
  - exists w. repeat split.
  - simpl. unfold bind at 1. unfold split_one at 1, bind at 1, path_exists, gets.
    rewrite bool_decide_eq_true_2 by (apply Hall; apply list_elem_of_here).
    unfold logger at 1, modify.
    destruct (IH (add_log "Chunk already exists, skipping split" w))
      as (w' & Hrun & Hf & Hm & Hs).
    { intros c' Hc'. apply (Hall c'). apply list_elem_of_further. exact Hc'. }
    exists w'. split; [exact Hrun|]. repeat split; assumption.
Qed.

Lemma split_one_creates (exec : Exec) (self : VideoEditor) (c : ChunkInfo) (w w' : World) :
  split_one exec self c w = (Returned tt, w') ->
  is_Some (files w' !! input_path c) /\
  forall p, is_Some (files w !! p) -> is_Some (files w' !! p).
Proof.
  intros Hone. unfold split_one in Hone.
  apply bind_returned in Hone as (present & w0 & Hp & Hone).
  unfold path_exists, gets in Hp. injection Hp as <- <-.
  case_bool_decide as Hex.
  - injection Hone as <-. split; [exact Hex | auto].
  - apply bind_returned in Hone as ([] & wa & Ha & Hone).
    apply bind_returned in Hone as ([] & wb & Hb & Hone).
    injection Hone as <-. injection Ha as <-.
    unfold subprocess_run, bind, get in Hb.
    destruct (exec _ _ _ _) as [out|[partial|]|]; try discriminate.
    injection Hb as <-. simpl. split.
    + rewrite lookup_insert_eq. eauto.
    + intros p [x Hx]. destruct (decide (input_path c = p)) as [->|Hne].
      * rewrite lookup_insert_eq. eauto.
      * rewrite lookup_insert_ne by exact Hne. eauto.
Qed.

Lemma split_loop_creates (exec : Exec) (self : VideoEditor) (cs : list ChunkInfo) :
  forall w w',
    for_each cs (split_one exec self) w = (Returned tt, w') ->
    (forall c, c ∈ cs -> is_Some (files w' !! input_path c)) /\
    (forall p, is_Some (files w !! p) -> is_Some (files w' !! p)).
Proof.
  induction cs as [|c cs IH]; intros w w' Hrun.
  - injection Hrun as <-. split; [intros c Hc; inversion Hc | auto].
  - simpl in Hrun. apply bind_returned in Hrun as ([] & w1 & Hone & Hrest).
    destruct (split_one_creates _ _ _ _ _ Hone) as [Hc Hg1].
    destruct (IH _ _ Hrest) as [Hall Hg2].
    split; [|auto].
    intros c0 Hin. apply elem_of_cons in Hin as [->|Hin]; auto.
Qed.

(** X4.  [_split_into_chunks] is idempotent.  After a split that returned,
    every chunk's input file is on disk; a second split then runs no tool,
    whatever the tools would do, and changes neither the files on disk nor
    the state. *)
Theorem split_into_chunks_idempotent (exec exec' : Exec) (self : VideoEditor)
    (cs : list ChunkInfo) (w w1 : World) :
  _split_into_chunks exec self cs w = (Returned tt, w1) ->
  (forall c, c ∈ cs -> is_Some (files w1 !! input_path c)) /\
  exists w2,
    _split_into_chunks exec' self cs w1 = (Returned tt, w2) /\
    files w2 = files w1 /\ mem w2 = mem w1 /\ state_json w2 = state_json w1.
Proof.
  rewrite split_into_chunks_unfold. intros Hrun.
  destruct (split_loop_creates _ _ _ _ _ Hrun) as [Hall _].
  split; [exact Hall|].
  rewrite split_into_chunks_unfold.
  destruct (split_loop_present exec' self cs
              (add_log "Splitting video into chunks..." w1))
    as (w2 & Hrun2 & Hf & Hm & Hs); [exact Hall|].
  exists w2. split; [exact Hrun2|]. repeat split; assumption.
Qed.

Definition split_once : World :=
  (_split_into_chunks working_exec example_editor [chunk0; chunk1; chunk2]
     first_run_world).2.

Lemma split_into_chunks_idempotent_witness :
  is_Some (files split_once !! "work/chunks/chunk_001_input.mp4") /\
  exists w2,
    _split_into_chunks flaky_exec example_editor [chunk0; chunk1; chunk2] split_once
      = (Returned tt, w2) /\
    files w2 = files split_once.
Proof.
  destruct (split_into_chunks_idempotent working_exec flaky_exec example_editor
              [chunk0; chunk1; chunk2] first_run_world split_once)
    as (Hall & w2 & Hrun & Hf & _); [vm_compute; reflexivity|].
  split.
  - apply (Hall chunk1). apply list_elem_of_further, list_elem_of_here.
  - exists w2. split; assumption.
Defined.

(** *** Resuming *)

(** X5.  A resumed run whose state records both [chunk_calculation] and
    [chunk_splitting], on an input whose checksum is the stored one, gets
    its chunk list from the state: nothing is probed, split or written;
    only two log lines are added. *)
Theorem prepare_chunks_resumes (exec : Exec) (fuel : nat) (self : VideoEditor)
    (w : World) (f : File) :
  files w !! input_video (config self) = Some f ->
  input_checksum (metadata (mem w)) = Some (sha256 f) ->
  truthy (Some (sha256 f)) = true ->
  step_done "chunk_calculation" (mem w) = true ->
  step_done "chunk_splitting" (mem w) = true ->
  prepare_chunks exec fuel self w
  = (Returned (chunks (mem w)),
     add_log "Total chunks" (add_log "Starting Auto Video Editor" w)).
Proof.
  intros Hf Hsum Htr Hcalc Hsplit.
  unfold prepare_chunks. unfold bind at 1. unfold logger at 1, modify.
  unfold bind at 1. unfold validate_input, bind at 1.
  unfold _calculate_checksum, bind at 1, get at 1. simpl. rewrite Hf.
  unfold ret at 1. unfold bind at 1, get at 1. simpl.
  rewrite Hsum, Htr. rewrite bool_decide_eq_true_2 by reflexivity. simpl.
  unfold ret at 1. unfold bind at 1, get at 1. simpl. rewrite Hcalc. simpl.
  unfold bind at 1, ret at 1. unfold bind at 1, logger at 1, modify.
  unfold bind at 1, get at 1. simpl. rewrite Hsplit. simpl.
  reflexivity.
Qed.

(** The state file of the interrupted run on the first video, read back
    while that video is still the input. *)
Definition resumed_world : World :=
  {| mem := resumed_state; temp_files := [];
     files := {[ "downloads/raw.mp4" := example_input "aa11";
                 "work/chunks/chunk_000_output.mp4" := stale_file ]};
     dirs := {[ "work/chunks"; "work/temp" ]};
     state_json := Some resumed_state; state_writable := true;
     ffprobe_installed := false;
     output_decodes := fun _ _ _ _ => true; log := [] |}.

Lemma prepare_chunks_resumes_witness :
  prepare_chunks flaky_exec 0 example_editor resumed_world
  = (Returned [chunk0_done; chunk1; chunk2],
     add_log "Total chunks" (add_log "Starting Auto Video Editor" resumed_world)).
Proof.
  apply (prepare_chunks_resumes flaky_exec 0 example_editor resumed_world
           (example_input "aa11")); reflexivity.
Defined.

(** X6.  On a first run (no checksum stored) [run]'s input validation
    stores the checksum of the input video and writes the state, leaving the
    chunk list and the completed steps as they are; validating again is then
    a no-op. *)
Theorem validate_input_first_run (self : VideoEditor) (w : World) (f : File) :
  files w !! input_video (config self) = Some f ->
  input_checksum (metadata (mem w)) = None ->
  truthy (Some (sha256 f)) = true ->
  state_writable w = true ->
  exists w1,
    validate_input self w = (Returned tt, w1) /\
    input_checksum (metadata (mem w1)) = Some (sha256 f) /\
    chunks (mem w1) = chunks (mem w) /\
    completed_steps (mem w1) = completed_steps (mem w) /\
    state_json w1 = Some (mem w1) /\
    files w1 = files w /\
    validate_input self w1 = (Returned tt, w1).
Proof.
  intros Hf Hnone Htr Hwr.
  destruct (sha256 f) as [|a digest] eqn:Esha; [discriminate|]. clear Htr.
  unfold validate_input at 1, bind at 1.
  unfold _calculate_checksum, bind at 1, get at 1. simpl. rewrite Hf.
  unfold ret at 1. unfold bind at 1, get at 1. simpl. rewrite Hnone. simpl.
  unfold bind at 1, modify at 1. unfold _save_state, bind, get. simpl.
  rewrite Hwr. unfold modify. rewrite Esha.
  eexists. split; [reflexivity|]. simpl. do 5 (split; [reflexivity|]).
  unfold validate_input, bind at 1.
  unfold _calculate_checksum, bind at 1, get at 1. simpl. rewrite Hf.
  unfold ret at 1. unfold bind at 1, get at 1. simpl. rewrite Esha.
  rewrite bool_decide_eq_true_2 by reflexivity. reflexivity.
Qed.

Lemma validate_input_first_run_witness :
  exists w1,
    validate_input example_editor first_run_world = (Returned tt, w1) /\
    input_checksum (metadata (mem w1)) = Some "aa11" /\
    state_json w1 = Some (mem w1) /\
    validate_input example_editor w1 = (Returned tt, w1).
Proof.
  destruct (validate_input_first_run example_editor first_run_world (example_input "aa11"))
    as (w1 & H1 & H2 & _ & _ & H3 & _ & H4); [reflexivity.. |].
  exists w1. repeat split; assumption.
Defined.

(** X7.  When the configured input video does not exist, [run] fails on
    the very first step (the checksum of the input), catches the exception
    and returns [False]: the state, the state file and the disk are
    untouched, whatever the tools and the later steps would do. *)
Theorem run_missing_input (exec : Exec)
    (finish_pipeline : VideoEditor -> list ChunkInfo -> Py unit)
    (fuel : nat) (self : VideoEditor) (w : World) :
  files w !! input_video (config self) = None ->
  run exec finish_pipeline fuel self w
  = (Returned false,
     add_log "Editing pipeline failed" (add_log "Starting Auto Video Editor" w)).
Proof.
  intros Hnone. unfold run, try_except, prepare_chunks.
  unfold bind at 1 2. unfold logger at 1, modify at 1.
  unfold bind at 1. unfold validate_input, bind at 1.
  unfold _calculate_checksum, bind at 1, get at 1. simpl. rewrite Hnone.
  reflexivity.
Qed.

Definition no_input_world : World :=
  {| mem := initial_state; temp_files := []; files := ∅;
     dirs := {[ "work/chunks"; "work/temp" ]};
     state_json := None; state_writable := true;
     ffprobe_installed := true;
     output_decodes := fun _ _ _ _ => true; log := [] |}.

Lemma run_missing_input_witness :
  run working_exec no_finish 4 example_editor no_input_world
  = (Returned false,
     add_log "Editing pipeline failed"
       (add_log "Starting Auto Video Editor" no_input_world)).
Proof.
  apply (run_missing_input working_exec no_finish 4 example_editor no_input_world).
  reflexivity.
Defined.

(** *** Content-preserving fallbacks of the per-chunk effects *)

(** What a step that falls back to a copy does on each way its tool can
    end, the input file being on disk and different from the output. *)
Definition copy_fallback (step : Exec -> string -> string -> Py unit) (t : Tool) : Prop :=
  forall (exec : Exec) (input output : string) (w : World) (f : File),
    files w !! input = Some f ->
    input <> output ->
    (forall out, exec t input output (files w) = Exit0 out ->
       exists w', step exec input output w = (Returned tt, w') /\
                  files w' = <[output := out]> (files w)) /\
    (forall partial, exec t input output (files w) = ExitNonZero partial ->
       exists w', step exec input output w = (Returned tt, w') /\
                  files w' = <[output := f]> (files w)) /\
    (exec t input output (files w) = NoSuchProgram ->
       exists w', step exec input output w = (Raised FileNotFoundError, w') /\
                  files w' = files w).

Lemma guarded_run_copy_fallback (t : Tool) (exec : Exec) (input output : string)
    (after : Py unit) (before : Exn -> Py unit) (w : World) (f : File) :
  files w !! input = Some f ->
  input <> output ->
  (forall w0, exists w1, after w0 = (Returned tt, w1) /\ files w1 = files w0) ->
  (forall e w0, exists w1, before e w0 = (Returned tt, w1) /\ files w1 = files w0) ->
  let step := try_except_only is_called_process_error
                (subprocess_run exec t input output ;;; after)
                (fun e => before e ;;; copy2 input output) in
  (forall out, exec t input output (files w) = Exit0 out ->
     exists w', step w = (Returned tt, w') /\ files w' = <[output := out]> (files w)) /\
  (forall partial, exec t input output (files w) = ExitNonZero partial ->
     exists w', step w = (Returned tt, w') /\ files w' = <[output := f]> (files w)) /\
  (exec t input output (files w) = NoSuchProgram ->
     exists w', step w = (Raised FileNotFoundError, w') /\ files w' = files w).
Proof.
  intros Hin Hne Hafter Hbefore step. subst step.
  unfold try_except_only, bind at 1 3 5, subprocess_run, bind, get.
  split; [|split].
  - intros out ->. unfold modify.
    destruct (Hafter (set_files (insert output out) w)) as (w1 & -> & Hf).
    exists w1. split; [reflexivity | exact Hf].
  - intros partial ->. destruct partial as [g|]; unfold modify, raise; simpl.
    + destruct (Hbefore CalledProcessError (set_files (insert output g) w))
        as (w1 & -> & Hf).
      unfold copy2, bind, get. rewrite Hf. simpl.
      rewrite lookup_insert_ne by congruence. rewrite Hin. unfold modify.
      eexists. split; [reflexivity|]. simpl. rewrite Hf. simpl.
      apply insert_insert_eq.
    + destruct (Hbefore CalledProcessError w) as (w1 & -> & Hf).
      unfold copy2, bind, get. rewrite Hf, Hin. unfold modify.
      eexists. split; [reflexivity|]. simpl. rewrite Hf. reflexivity.
  - intros ->. unfold raise. simpl. eexists. split; reflexivity.
Qed.

(** [_remove_silence] runs its tool with [text=True]: the steps of
    [copy_fallback] when what the tool printed decodes, and
    [UnicodeDecodeError], which the handler for [CalledProcessError] does
    not catch, when it does not; the output path then holds what the tool
    left there. *)
Definition text_copy_fallback (step : Exec -> string -> string -> Py unit) (t : Tool)
    : Prop :=
  forall (exec : Exec) (input output : string) (w : World) (f : File),
    files w !! input = Some f ->
    input <> output ->
    let decodes := output_decodes w t input output (files w) in
    (forall out, exec t input output (files w) = Exit0 out ->
       exists w', step exec input output w
                  = (if decodes then Returned tt else Raised UnicodeDecodeError, w') /\
                  files w' = <[output := out]> (files w)) /\
    (forall partial, exec t input output (files w) = ExitNonZero partial ->
       exists w', step exec input output w
                  = (if decodes then Returned tt else Raised UnicodeDecodeError, w') /\
                  files w' = if decodes then <[output := f]> (files w)
                             else match partial with
                                  | Some g => <[output := g]> (files w)
                                  | None => files w
                                  end) /\
    (exec t input output (files w) = NoSuchProgram ->
       exists w', step exec input output w = (Raised FileNotFoundError, w') /\
                  files w' = files w).

(** X8.  [_add_transitions] and [_add_sound_effects] degrade to a copy:
    when the tool exits with status 0 the output is what the tool wrote;
    when it exits with a non-zero status, whatever partial output it left,
    the step returns normally and the output is a copy of the input; only
    a tool that is not installed makes the step raise ([FileNotFoundError]
    is not caught), the disk being untouched.  [_remove_silence] does the
    same as long as what its tool printed decodes as text; when it does
    not, the step raises [UnicodeDecodeError] on either exit status, after
    the tool has run, and no copy is made. *)
Theorem effects_fall_back_to_copy :
  copy_fallback _add_transitions ColorGrade /\
  copy_fallback _add_sound_effects AudioEnhance /\
  text_copy_fallback _remove_silence SilenceRemove.
Proof.
  split; [|split]; intros exec input output w f Hin Hne.
  - unfold _add_transitions.
    destruct (guarded_run_copy_fallback ColorGrade exec input output
                (ret tt) (fun _ => logger "Color grading failed, copying original")
                w f Hin Hne) as (H0 & H1 & H2).
    { intros w0. eexists. split; reflexivity. }
    { intros e w0. eexists. split; reflexivity. }
    split; [|split].
    + intros out Hex. destruct (H0 out Hex) as (w' & Hrun & Hf). exists w'.
      split; [|exact Hf]. rewrite <- Hrun.
      unfold try_except_only, bind, ret.
      destruct (subprocess_run _ _ _ _ _) as [[[]|e|] w1]; reflexivity.
    + intros partial Hex. destruct (H1 partial Hex) as (w' & Hrun & Hf). exists w'.
      split; [|exact Hf]. rewrite <- Hrun.
      unfold try_except_only, bind, ret.
      destruct (subprocess_run _ _ _ _ _) as [[[]|e|] w1]; reflexivity.
    + intros Hex. destruct (H2 Hex) as (w' & Hrun & Hf). exists w'.
      split; [|exact Hf]. rewrite <- Hrun.
      unfold try_except_only, bind, ret.
      destruct (subprocess_run _ _ _ _ _) as [[[]|e|] w1]; reflexivity.
  - unfold _add_sound_effects.
    destruct (guarded_run_copy_fallback AudioEnhance exec input output
                (ret tt) (fun _ => logger "Audio enhancement failed, copying original")
                w f Hin Hne) as (H0 & H1 & H2).
    { intros w0. eexists. split; reflexivity. }
    { intros e w0. eexists. split; reflexivity. }
    split; [|split].
    + intros out Hex. destruct (H0 out Hex) as (w' & Hrun & Hf). exists w'.
      split; [|exact Hf]. rewrite <- Hrun.
      unfold try_except_only, bind, ret.
      destruct (subprocess_run _ _ _ _ _) as [[[]|e|] w1]; reflexivity.
    + intros partial Hex. destruct (H1 partial Hex) as (w' & Hrun & Hf). exists w'.
      split; [|exact Hf]. rewrite <- Hrun.
      unfold try_except_only, bind, ret.
      destruct (subprocess_run _ _ _ _ _) as [[[]|e|] w1]; reflexivity.
    + intros Hex. destruct (H2 Hex) as (w' & Hrun & Hf). exists w'.
      split; [|exact Hf]. rewrite <- Hrun.
      unfold try_except_only, bind, ret.
      destruct (subprocess_run _ _ _ _ _) as [[[]|e|] w1]; reflexivity.
  - cbv zeta.
    unfold _remove_silence, try_except_only, subprocess_run_text, logger.
    unfold bind, get, modify, raise, ret. simpl.
    split; [|split].
    + intros out ->.
      destruct (output_decodes w SilenceRemove input output (files w));
        eexists; split; reflexivity.
    + intros partial ->.
      destruct (output_decodes w SilenceRemove input output (files w)),
        partial as [g|]; simpl; unfold copy2, bind, get, modify; simpl;
        rewrite ?lookup_insert_ne by congruence; rewrite ?Hin;
        eexists; (split; [reflexivity|]); simpl;
        try reflexivity; apply insert_insert_eq.
    + intros ->. eexists. split; reflexivity.
Qed.

(** Every tool exits with a non-zero status. *)
Definition failing_exec (t : Tool) (input output : string) (fs : gmap string File)
    : ExecResult := ExitNonZero (Some (produced "partial")).

(** The first-run machine in a locale in which what the tools print does
    not decode. *)
Definition undecodable_world : World :=
  {| mem := initial_state;
     temp_files := [];
     files := {[ "downloads/raw.mp4" := example_input "aa11" ]};
     dirs := {[ "work/chunks"; "work/temp" ]};
     state_json := None;
     state_writable := true;
     ffprobe_installed := true;
     output_decodes := fun _ _ _ _ => false;
     log := [] |}.

Lemma effects_fall_back_to_copy_witness :
  (exists w',
     _add_transitions failing_exec "downloads/raw.mp4" "work/temp/out.mp4" first_run_world
       = (Returned tt, w') /\
     files w' !! "work/temp/out.mp4" = Some (example_input "aa11")) /\
  (exists w',
     _remove_silence failing_exec "downloads/raw.mp4" "work/temp/out.mp4" undecodable_world
       = (Raised UnicodeDecodeError, w') /\
     files w' !! "work/temp/out.mp4" = Some (produced "partial")).
Proof.
  destruct effects_fall_back_to_copy as (Htrans & _ & Hsilence).
  split.
  - destruct (Htrans failing_exec "downloads/raw.mp4" "work/temp/out.mp4" first_run_world
                (example_input "aa11") eq_refl) as (_ & Hfail & _); [discriminate|].
    destruct (Hfail (Some (produced "partial")) eq_refl) as (w' & Hrun & Hf).
    exists w'. split; [exact Hrun|]. rewrite Hf. apply lookup_insert_eq.
  - destruct (Hsilence failing_exec "downloads/raw.mp4" "work/temp/out.mp4"
                undecodable_world (example_input "aa11") eq_refl) as (_ & Hfail & _);
      [discriminate|].
    destruct (Hfail (Some (produced "partial")) eq_refl) as (w' & Hrun & Hf).
    exists w'. split; [exact Hrun|]. rewrite Hf. apply lookup_insert_eq.
Defined.

(** *** [_apply_jump_cuts] *)

Lemma detect_scenes_spec (exec : Exec) (input scenes_file : string) :
  forall (variants : list nat) (w : World),
    exists b w',
      detect_scenes exec variants input scenes_file w = (Returned b, w') /\
      forall p, p <> scenes_file -> files w' !! p = files w !! p.
Proof.
  induction variants as [|v vs IH]; intros w; simpl.
  - exists false, w. split; [reflexivity | auto].
  - unfold try_except_only, bind, subprocess_run, bind, get.
    destruct (exec (SceneDetect v) input scenes_file (files w)) as [out|[partial|]|];
      unfold modify, raise, ret; simpl.
    + eexists _, _. split; [reflexivity|]. intros p Hp. simpl.
      apply lookup_insert_ne. congruence.
    + destruct (IH (set_files (insert scenes_file partial) w)) as (b & w' & Hrun & Hf).
      exists b, w'. split; [exact Hrun|]. intros p Hp. rewrite (Hf p Hp). simpl.
      apply lookup_insert_ne. congruence.
    + destruct (IH w) as (b & w' & Hrun & Hf). exists b, w'. split; assumption.
    + destruct (IH w) as (b & w' & Hrun & Hf). exists b, w'. split; assumption.
Qed.

(** X9.  [_apply_jump_cuts] is a plain copy: whether scene detection runs,
    fails or is not installed in any of its three spellings, the step never
    raises on an existing input, and its output is the input file unchanged;
    at most [scenes.csv] in the temporary directory is written besides. *)
Theorem apply_jump_cuts_copies (exec : Exec) (self : VideoEditor)
    (input output : string) (w : World) (f : File) :
  files w !! input = Some f ->
  input <> path_join (temp_dir self) "scenes.csv" ->
  exists w',
    _apply_jump_cuts exec self input output w = (Returned tt, w') /\
    files w' !! output = Some f /\
    forall p, p <> output -> p <> path_join (temp_dir self) "scenes.csv" ->
              files w' !! p = files w !! p.
Proof.
  intros Hin Hne. unfold _apply_jump_cuts.
  destruct (detect_scenes_spec exec input (path_join (temp_dir self) "scenes.csv")
              [0; 1; 2]%nat w) as (b & w1 & Hrun & Hf).
  unfold bind. rewrite Hrun. unfold copy2, bind, get.
  rewrite (Hf input Hne), Hin. unfold modify.
  eexists. split; [reflexivity|]. simpl. split.
  - apply lookup_insert_eq.
  - intros p Hp Hs. rewrite lookup_insert_ne by congruence. apply Hf. exact Hs.
Qed.

Lemma apply_jump_cuts_copies_witness :
  exists w',
    _apply_jump_cuts failing_exec example_editor "downloads/raw.mp4"
      "work/temp/chunk_000_jumpcuts.mp4" first_run_world = (Returned tt, w') /\
    files w' !! "work/temp/chunk_000_jumpcuts.mp4" = Some (example_input "aa11").
Proof.
  destruct (apply_jump_cuts_copies failing_exec example_editor "downloads/raw.mp4"
              "work/temp/chunk_000_jumpcuts.mp4" first_run_world (example_input "aa11"))
    as (w' & Hrun & Hout & _); [reflexivity | discriminate |].
  exists w'. split; assumption.
Defined.

(** *** What [_process_chunk] leaves behind *)

Lemma delete_temp_file_exact (t : string) (w : World) :
  exists w', delete_temp_file t w = (Returned tt, w') /\
             files w' = delete t (files w) /\ temp_files w' = temp_files w.
Proof.
  unfold delete_temp_file, try_except, bind, path_exists, gets.
  destruct (files w !! t) as [f|] eqn:E.
  - rewrite bool_decide_eq_true_2 by eauto.
    unfold unlink, bind, get. rewrite E. unfold modify.
    eexists. split; [reflexivity|]. split; reflexivity.
  - rewrite bool_decide_eq_false_2 by (intros [x Hx]; discriminate).
    eexists. split; [reflexivity|]. split; [|reflexivity].
    symmetry. apply delete_id. exact E.
Qed.

Lemma cleanup_loop_exact (l : list string) :
  forall w, exists w',
    for_each l delete_temp_file w = (Returned tt, w') /\
    temp_files w' = temp_files w /\
    (forall p, p ∈ l -> files w' !! p = None) /\
    (forall p, p ∉ l -> files w' !! p = files w !! p).
Proof.
  induction l as [|t l IH]; intros w; simpl.
  - exists w. repeat split; auto. intros p Hp. inversion Hp.
  - destruct (delete_temp_file_exact t w) as (w1 & E1 & Hf1 & Ht1).
    destruct (IH w1) as (w2 & E2 & Ht2 & Hin & Hout).
    exists w2. unfold bind. rewrite E1. split; [exact E2|].
    split; [congruence|]. split.
    + intros p Hp. destruct (decide (p ∈ l)) as [Hl|Hl]; [auto|].
      rewrite (Hout p Hl), Hf1.
      apply elem_of_cons in Hp as [->|Hp]; [apply lookup_delete_eq | contradiction].
    + intros p Hp. apply not_elem_of_cons in Hp as [Hne Hp].
      rewrite (Hout p Hp), Hf1. apply lookup_delete_ne. congruence.
Qed.

(** A computation that always ends (with a value or an exception). *)
Definition halts {A} (m : Py A) : Prop := forall w, (m w).1 <> Diverged.

Lemma halts_ret {A} (a : A) : halts (ret a).
Proof. intros w. discriminate. Qed.

Lemma halts_raise {A} (e : Exn) : halts (raise (A:=A) e).
Proof. intros w. discriminate. Qed.

Lemma halts_get : halts get.
Proof. intros w. discriminate. Qed.

Lemma halts_gets {A} (f : World -> A) : halts (gets f).
Proof. intros w. discriminate. Qed.

Lemma halts_modify (f : World -> World) : halts (modify f).
Proof. intros w. discriminate. Qed.

Lemma halts_bind {A B} (m : Py A) (k : A -> Py B) :
  halts m -> (forall a, halts (k a)) -> halts (bind m k).
Proof.
  intros Hm Hk w. unfold bind. specialize (Hm w).
  destruct (m w) as [[a|e|] w1]; simpl in *; [apply Hk | discriminate | congruence].
Qed.

Lemma halts_try_except_only {A} (c : Exn -> bool) (m : Py A) (h : Exn -> Py A) :
  halts m -> (forall e, halts (h e)) -> halts (try_except_only c m h).
Proof.
  intros Hm Hh w. unfold try_except_only. specialize (Hm w).
  destruct (m w) as [[a|e|] w1]; simpl in *; [discriminate | | congruence].
  destruct (c e); [apply Hh | discriminate].
Qed.

Lemma halts_try_except {A} (m : Py A) (h : Exn -> Py A) :
  halts m -> (forall e, halts (h e)) -> halts (try_except m h).
Proof.
  intros Hm Hh w. unfold try_except. specialize (Hm w).
  destruct (m w) as [[a|e|] w1]; simpl in *; [discriminate | apply Hh | congruence].
Qed.

Lemma halts_for_each {A} (xs : list A) (body : A -> Py unit) :
  (forall x, halts (body x)) -> halts (for_each xs body).
Proof.
  intros Hb. induction xs as [|x xs IH]; simpl; [apply halts_ret|].
  apply halts_bind; auto.
Qed.

(** Takes a [halts] goal apart along the structure of the code. *)
Ltac halts_step :=
  match goal with
  | |- halts (ret _) => apply halts_ret
  | |- halts (raise _) => apply halts_raise
  | |- halts get => apply halts_get
  | |- halts (gets _) => apply halts_gets
  | |- halts (modify _) => apply halts_modify
  | |- halts (logger _) => apply halts_modify
  | |- halts (remember_temp _) => apply halts_modify
  | |- halts (bind _ _) => apply halts_bind; [|intros ?]
  | |- halts (try_except_only _ _ _) => apply halts_try_except_only; [|intros ?]
  | |- halts (try_except _ _) => apply halts_try_except; [|intros ?]
  | |- halts (for_each _ _) => apply halts_for_each; intros ?
  | |- halts (if ?b then _ else _) => destruct b
  | |- halts (match ?x with _ => _ end) => destruct x
  | H : halts ?m |- halts ?m => exact H
  end.

Lemma halts_subprocess_run (exec : Exec) (t : Tool) (i o : string) :
  halts (subprocess_run exec t i o).
Proof. unfold subprocess_run. repeat halts_step. Qed.

Lemma halts_subprocess_run_text (exec : Exec) (t : Tool) (i o : string) :
  halts (subprocess_run_text exec t i o).
Proof.
  unfold subprocess_run_text. apply halts_bind; [apply halts_get|]. intros w.
  cbv zeta. repeat halts_step.
Qed.

Lemma halts_copy2 (i o : string) : halts (copy2 i o).
Proof. unfold copy2. repeat halts_step. Qed.

Lemma halts_get_video_duration (p : string) : halts (_get_video_duration p).
Proof. unfold _get_video_duration. repeat halts_step. Qed.

Lemma halts_detect_scenes (exec : Exec) (vs : list nat) (i o : string) :
  halts (detect_scenes exec vs i o).
Proof.
  induction vs as [|v vs IH]; simpl;
    repeat first [apply halts_subprocess_run | halts_step].
Qed.

(** The sub-pipeline of a chunk has no loop of its own: it always ends. *)
Lemma halts_chunk_pipeline (exec : Exec) (self : VideoEditor) (chunk : ChunkInfo) :
  halts (chunk_pipeline exec self chunk).
Proof.
  unfold chunk_pipeline, _remove_silence, _apply_speed, _apply_jump_cuts,
    _apply_zoom_effects, _add_transitions, _add_sound_effects,
    _reencode_for_concat, _calculate_checksum.
  repeat first [ apply halts_subprocess_run | apply halts_subprocess_run_text
               | apply halts_copy2
               | apply halts_get_video_duration | apply halts_detect_scenes
               | halts_step ].
Qed.

(** X10.  Whatever way [_process_chunk] leaves its [try] block (success or
    any exception), it returns a Boolean, never raises and never hangs; none
    of the temporary files it remembered is on disk afterwards (deleting an
    existing file succeeds in this file system); and a [False] result comes
    with the chunk object as it was. *)
Theorem process_chunk_cleans_up (exec : Exec) (self : VideoEditor)
    (chunk : ChunkInfo) (w : World) :
  files w !! output_path chunk = None ->
  exists (ok : bool) (chunk' : ChunkInfo) (w' : World),
    _process_chunk exec self chunk w = (Returned (ok, chunk'), w') /\
    (forall p, p ∈ temp_files w' -> files w' !! p = None) /\
    (ok = false -> chunk' = chunk).
Proof.
  intros Hnone. rewrite process_chunk_unfold by exact Hnone.
  unfold try_finally, try_except, bind at 1.
  pose proof (halts_chunk_pipeline exec self chunk (try_entry w)) as Hhalt.
  destruct (chunk_pipeline exec self chunk (try_entry w)) as [[c'|e|] w1] eqn:Ep.
  - unfold ret.
    destruct (cleanup_loop_exact (temp_files w1) w1) as (w2 & Ec & Ht & Hin & _).
    unfold cleanup_temp_files, bind, get. rewrite Ec.
    exists true, c', w2. split; [reflexivity|]. split; [|discriminate].
    intros p Hp. apply Hin. rewrite <- Ht. exact Hp.
  - unfold bind at 1, logger, modify, ret.
    set (w1' := add_log "Error processing chunk" w1).
    destruct (cleanup_loop_exact (temp_files w1') w1') as (w2 & Ec & Ht & Hin & _).
    unfold cleanup_temp_files, bind, get. rewrite Ec.
    exists false, chunk, w2. split; [reflexivity|]. split; [|reflexivity].
    intros p Hp. apply Hin. rewrite <- Ht. exact Hp.
  - exfalso. apply Hhalt. reflexivity.
Qed.

Lemma process_chunk_cleans_up_witness :
  exists (ok : bool) (chunk' : ChunkInfo) (w' : World),
    _process_chunk flaky_exec example_editor chunk1 after_chunk0
      = (Returned (ok, chunk'), w') /\
    (forall p, p ∈ temp_files w' -> files w' !! p = None).
Proof.
  destruct (process_chunk_cleans_up flaky_exec example_editor chunk1 after_chunk0)
    as (ok & c' & w' & Hrun & Hclean & _); [vm_compute; reflexivity|].
  exists ok, c', w'. split; assumption.
Defined.

(** What the sub-pipeline returns: the chunk flagged as processed, with
    the checksum of the output file it has just written. *)
Lemma chunk_pipeline_result (exec : Exec) (self : VideoEditor)
    (chunk c' : ChunkInfo) (w w1 : World) :
  chunk_pipeline exec self chunk w = (Returned c', w1) ->
  exists f, files w1 !! output_path chunk = Some f /\
            c' = set_processed chunk (sha256 f).
Proof.
  unfold chunk_pipeline. intros H.
  do 6 (apply bind_returned in H as (? & ? & _ & H)).
  apply bind_returned in H as (? & ? & _ & H).
  apply bind_returned in H as (? & ? & _ & H).
  apply bind_returned in H as (sum & wa & Hsum & H).
  apply bind_returned in H as (? & wb & Hlog & H).
  injection H as <- <-. injection Hlog as <- <-.
  unfold _calculate_checksum, bind, get in Hsum. simpl.
  destruct (files _ !! output_path chunk) as [f|] eqn:E; [|discriminate].
  injection Hsum as <- <-. exists f. split; [exact E | reflexivity].
Qed.

(** X11.  A chunk that [_process_chunk] had to process and reports as done
    is flagged [processed], carries the SHA-256 of exactly the output file
    that is on disk when the call returns, and is otherwise unchanged; the
    output file is outside the temporary directory by hypothesis, as the
    computed chunk paths are. *)
Theorem process_chunk_success_checksum (exec : Exec) (self : VideoEditor)
    (chunk chunk' : ChunkInfo) (w w' : World) :
  files w !! output_path chunk = None ->
  in_temp self (output_path chunk) = false ->
  _process_chunk exec self chunk w = (Returned (true, chunk'), w') ->
  exists f,
    files w' !! output_path chunk = Some f /\
    chunk' = set_processed chunk (sha256 f) /\
    processed chunk' = true /\
    checksum chunk' = Some (sha256 f) /\
    output_path chunk' = output_path chunk /\
    chunk_id chunk' = chunk_id chunk.
Proof.
  intros Hnone Hout Hrun. rewrite process_chunk_unfold in Hrun by exact Hnone.
  unfold try_finally, try_except, bind at 1 in Hrun.
  destruct (chunk_pipeline exec self chunk (try_entry w)) as [[c''|e|] w1] eqn:Ep.
  - destruct (chunk_pipeline_result _ _ _ _ _ _ Ep) as (f & Hf & Hc).
    destruct (tidy_chunk_pipeline exec self chunk _ _ _ Ep) as [_ T].
    assert (T1 : temps_ok self w1) by (apply T; constructor).
    destruct (cleanup_loop_exact (temp_files w1) w1) as (w2 & Ec & _ & _ & Hkeep).
    unfold ret, cleanup_temp_files, bind, get in Hrun. rewrite Ec in Hrun.
    injection Hrun as <- <-. exists f.
    split.
    + rewrite Hkeep; [exact Hf|]. intros Hin.
      unfold temps_ok in T1. rewrite Forall_forall in T1.
      specialize (T1 _ Hin). congruence.
    + subst c''. repeat split.
  - unfold bind, logger, modify, ret in Hrun. simpl in Hrun.
    destruct (cleanup_temp_files _) as [[[]|?|] ?]; discriminate.
  - discriminate.
Qed.

Lemma process_chunk_success_checksum_witness :
  exists f,
    files after_chunk0 !! "work/chunks/chunk_000_output.mp4" = Some f /\
    chunk0_done = set_processed chunk0 (sha256 f).
Proof.
  destruct (process_chunk_success_checksum flaky_exec example_editor chunk0 chunk0_done
              after_prepare
              (_process_chunk flaky_exec example_editor chunk0 after_prepare).2)
    as (f & Hf & Hc & _); [vm_compute; reflexivity | reflexivity
                          | vm_compute; reflexivity |].
  exists f. split; [|exact Hc].
  rewrite <- Hf. vm_compute. reflexivity.
Defined.

(** ** Subtitle time stamps *)

Local Open Scope Q_scope.

(** *** Binary64 floats

    A finite float is the rational it denotes.  [round64] rounds a
    rational to the nearest float, ties to the even significand, as every
    float operation of Python rounds its exact result; the exponent is
    that of the binade of the number, not below that of the subnormal
    floats.  Results beyond the largest float (infinities) do not arise
    from the numbers handled here and are not modelled. *)

(** The nearest whole number, a tie going to the even one. *)
Definition rne (q : Q) : Z :=
  let f := Qfloor q in
  match Qcompare (q - inject_Z f) (1 # 2) with
  | Lt => f
  | Gt => (f + 1)%Z
  | Eq => if Z.even f then f else (f + 1)%Z
  end.

(** [floor (log2 q)] for a positive [q]. *)
Definition Qlog2 (q : Q) : Z :=
  if Qle_bool 1 q then Z.log2 (Qfloor q)
  else (- Z.log2_up (Qceiling (/ q)))%Z.

(** The exponent of the last bit of the significand of the floats around
    [q]: 53 bits from the leading one, 2^-1074 at the least. *)
Definition ulp_exponent (q : Q) : Z := (Z.max (Qlog2 (Qabs q)) (-1022) - 52)%Z.

Definition round64 (q : Q) : Q :=
  if Qeq_bool q 0 then 0
  else inject_Z (rne (q / 2 ^ ulp_exponent q)) * 2 ^ ulp_exponent q.

(** The rationals that are floats. *)
Definition is_float (q : Q) : Prop := round64 q == q.

(** [int(x)] on a float: truncation towards zero. *)
Definition py_int (x : Q) : Z := Z.quot (Qnum x) (Zpos (Qden x)).

(** C's [fmod]: the remainder of the truncated quotient, always a float,
    so computed exactly. *)
Definition fmod (x y : Q) : Q := x - y * inject_Z (py_int (x / y)).

Definition Qltb (x y : Q) : bool := negb (Qle_bool y x).

(** [x % y] on floats ([float_rem] of CPython): [fmod], moved by [y] (a
    float addition, rounded) when it is not 0 and its sign is not that
    of [y]. *)
Definition float_mod (x y : Q) : Q :=
  let m := fmod x y in
  if negb (Qeq_bool m 0) && negb (Bool.eqb (Qltb y 0) (Qltb m 0))
  then round64 (m + y) else m.

(** [x // y] on floats ([_float_div_mod] of CPython): the quotient of
    [x - fmod(x, y)] by [y], each operation rounded, corrected by 1 with
    the remainder, then snapped to the nearest whole number. *)
Definition float_floordiv (x y : Q) : Q :=
  let m := fmod x y in
  let div := round64 (round64 (x - m) / y) in
  let div := if negb (Qeq_bool m 0) && negb (Bool.eqb (Qltb y 0) (Qltb m 0))
             then round64 (div - 1) else div in
  if Qeq_bool div 0 then 0
  else
    let floordiv := inject_Z (Qfloor div) in
    if Qltb (1 # 2) (round64 (div - floordiv)) then round64 (floordiv + 1)
    else floordiv.

(** [f"{z:0Nd}"]: zero padding up to the width, the sign counting. *)
Definition format_d (width : nat) (z : Z) : string :=
  let s := NilZero.string_of_uint (N.to_uint (Z.to_N (Z.abs z))) in
  if (z <? 0)%Z
  then ("-" ++ String.concat "" (repeat "0" (width - 1 - String.length s)) ++ s)%string
  else (String.concat "" (repeat "0" (width - String.length s)) ++ s)%string.

(** The four numbers [_format_srt_timestamp] prints. *)
Record SrtFields : Type := {
  srt_hours : Z;
  srt_minutes : Z;
  srt_secs : Z;
  srt_millis : Z
}.

Definition srt_fields (seconds : Q) : SrtFields :=
  {| srt_hours := py_int (float_floordiv seconds 3600);
     srt_minutes := py_int (float_floordiv (float_mod seconds 3600) 60);
     srt_secs := py_int (float_mod seconds 60);
     srt_millis := py_int (round64 (float_mod seconds 1 * 1000)) |}.

(** [_format_srt_timestamp] *)
Definition _format_srt_timestamp (seconds : Q) : string :=
  let f := srt_fields seconds in
  (format_d 2 (srt_hours f) ++ ":" ++ format_d 2 (srt_minutes f) ++ ":"
    ++ format_d 2 (srt_secs f) ++ "," ++ format_d 3 (srt_millis f))%string.

(** *** Rounding *)

Lemma rne_comp (x y : Q) : x == y -> rne x = rne y.
Proof.
  intros H. unfold rne. rewrite (Qfloor_comp _ _ H).
  assert (E : Qcompare (x - inject_Z (Qfloor y)) (1 # 2)
              = Qcompare (y - inject_Z (Qfloor y)) (1 # 2))
    by (rewrite H; reflexivity).
  cbv zeta. rewrite E. reflexivity.
Qed.

#[local] Instance rne_proper : Proper (Qeq ==> eq) rne.
Proof. intros x y H. apply rne_comp, H. Qed.

Lemma rne_inject_Z (z : Z) : rne (inject_Z z) = z.
Proof.
  unfold rne. rewrite Qfloor_Z. cbv zeta.
  assert (E : Qcompare (inject_Z z - inject_Z z) (1 # 2) = Lt)
    by (apply (proj1 (Qlt_alt _ _)); lra).
  rewrite E. reflexivity.
Qed.

(** [rne] is within a half of its argument, and not below its floor. *)
Lemma rne_spec (q : Q) :
  inject_Z (rne q) - q <= 1 # 2 /\ q - inject_Z (rne q) <= 1 # 2 /\
  (Qfloor q <= rne q)%Z.
Proof.
  unfold rne. cbv zeta.
  pose proof (Qfloor_le q) as Hlo. pose proof (Qlt_floor q) as Hhi.
  assert (Hone : inject_Z (Qfloor q + 1) == inject_Z (Qfloor q) + 1)
    by (rewrite inject_Z_plus; reflexivity).
  rewrite Hone in Hhi.
  destruct (Qcompare (q - inject_Z (Qfloor q)) (1 # 2)) eqn:E.
  - apply (proj2 (Qeq_alt _ _)) in E.
    destruct (Z.even (Qfloor q)); rewrite ?Hone;
      (split; [lra|split; [lra|lia]]).
  - apply (proj2 (Qlt_alt _ _)) in E. split; [lra|split; [lra|lia]].
  - apply (proj2 (Qgt_alt _ _)) in E. rewrite Hone. split; [lra|split; [lra|lia]].
Qed.

Lemma Qlog2_comp (x y : Q) : x == y -> Qlog2 x = Qlog2 y.
Proof.
  intros H. unfold Qlog2.
  assert (E : Qle_bool 1 x = Qle_bool 1 y).
  { destruct (Qle_bool 1 x) eqn:Ex, (Qle_bool 1 y) eqn:Ey; try reflexivity.
    - apply Qle_bool_iff in Ex. rewrite H in Ex. apply Qle_bool_iff in Ex. congruence.
    - apply Qle_bool_iff in Ey. rewrite <- H in Ey. apply Qle_bool_iff in Ey. congruence. }
  rewrite E, (Qfloor_comp _ _ H).
  assert (E' : Qceiling (/ x) = Qceiling (/ y)) by (apply Qceiling_comp; rewrite H; reflexivity).
  rewrite E'. reflexivity.
Qed.

Lemma ulp_exponent_comp (x y : Q) : x == y -> ulp_exponent x = ulp_exponent y.
Proof.
  intros H. unfold ulp_exponent.
  rewrite (Qlog2_comp (Qabs x) (Qabs y)) by (rewrite H; reflexivity).
  reflexivity.
Qed.

Lemma round64_comp (x y : Q) : x == y -> round64 x == round64 y.
Proof.
  intros H. unfold round64.
  assert (E : Qeq_bool x 0 = Qeq_bool y 0).
  { destruct (Qeq_bool x 0) eqn:Ex, (Qeq_bool y 0) eqn:Ey; try reflexivity.
    - apply Qeq_bool_iff in Ex. rewrite H in Ex. apply Qeq_bool_iff in Ex. congruence.
    - apply Qeq_bool_iff in Ey. rewrite <- H in Ey. apply Qeq_bool_iff in Ey. congruence. }
  rewrite E. destruct (Qeq_bool y 0); [reflexivity|].
  rewrite (ulp_exponent_comp x y H).
  rewrite (rne_comp (x / 2 ^ ulp_exponent y) (y / 2 ^ ulp_exponent y))
    by (rewrite H; reflexivity).
  reflexivity.
Qed.

#[local] Instance round64_proper : Proper (Qeq ==> Qeq) round64.
Proof. intros x y H. apply round64_comp, H. Qed.

Lemma round64_0 : round64 0 == 0.
Proof. reflexivity. Qed.

Lemma pow2_pos (e : Z) : 0 < 2 ^ e.
Proof. apply Qpower_0_lt. reflexivity. Qed.

(** [round64 q] is a whole multiple of the last bit. *)
Lemma round64_shape (q : Q) :
  ~ q == 0 ->
  round64 q == inject_Z (rne (q / 2 ^ ulp_exponent q)) * 2 ^ ulp_exponent q.
Proof.
  intros H. unfold round64.
  destruct (Qeq_bool q 0) eqn:E; [apply Qeq_bool_iff in E; tauto | reflexivity].
Qed.

(** The rounding error is at most half of the last bit. *)
Lemma round64_error (q : Q) :
  round64 q - q <= (1 # 2) * 2 ^ ulp_exponent q /\
  q - round64 q <= (1 # 2) * 2 ^ ulp_exponent q.
Proof.
  pose proof (pow2_pos (ulp_exponent q)) as Hp.
  destruct (Qeq_dec q 0) as [H0|H0].
  - assert (Hr : round64 q == 0) by (rewrite (round64_comp q 0 H0); reflexivity).
    rewrite Hr. split; lra.
  - rewrite (round64_shape q H0).
    set (p := 2 ^ ulp_exponent q) in *.
    destruct (rne_spec (q / p)) as (H1 & H2 & _).
    set (M := inject_Z (rne (q / p))) in *.
    assert (Hq : q == (q / p) * p) by (field; lra).
    set (t := q / p) in *.
    split; nra.
Qed.

Lemma round64_nonneg (q : Q) : 0 <= q -> 0 <= round64 q.
Proof.
  intros Hq. destruct (Qeq_dec q 0) as [H0|H0].
  - rewrite (round64_comp q 0 H0). apply Qle_refl.
  - rewrite (round64_shape q H0).
    pose proof (pow2_pos (ulp_exponent q)) as Hp.
    apply Qmult_le_0_compat; [|lra].
    destruct (rne_spec (q / 2 ^ ulp_exponent q)) as (_ & _ & Hfl).
    assert (Hf : (0 <= Qfloor (q / 2 ^ ulp_exponent q))%Z).
    { change 0%Z with (Qfloor 0). apply Qfloor_resp_le.
      apply Qle_shift_div_l; [exact Hp | lra]. }
    change 0 with (inject_Z 0). rewrite <- Zle_Qle. lia.
Qed.

(** *** What rounding does to the numbers of a time stamp *)

Lemma Qlog2_below (q : Q) (b : Z) :
  (0 < b)%Z -> q < inject_Z (2 ^ b) -> (Qlog2 q < b)%Z.
Proof.
  intros Hb Hq. unfold Qlog2. destruct (Qle_bool 1 q) eqn:E.
  - apply Qle_bool_iff in E.
    assert (H1 : (1 <= Qfloor q)%Z).
    { change 1%Z with (Qfloor 1). apply Qfloor_resp_le. exact E. }
    apply Z.log2_lt_pow2; [lia|].
    rewrite Zlt_Qlt. eapply Qle_lt_trans; [apply Qfloor_le | exact Hq].
  - pose proof (Z.log2_up_nonneg (Qceiling (/ q))). lia.
Qed.

(** Below 1024 the last bit of a float is [2^-43] at most. *)
Lemma ulp_exponent_below_1024 (q : Q) :
  0 <= q -> q < 1024 -> (ulp_exponent q <= -43)%Z.
Proof.
  intros H0 H1. unfold ulp_exponent.
  rewrite (Qlog2_comp (Qabs q) q) by (apply Qabs_pos; exact H0).
  assert (Qlog2 q < 10)%Z by (apply Qlog2_below; [lia | exact H1]).
  lia.
Qed.

Lemma round64_near_below_1024 (q : Q) :
  0 <= q -> q < 1024 ->
  round64 q <= q + (1 # 17592186044416) /\ q <= round64 q + (1 # 17592186044416).
Proof.
  intros H0 H1.
  destruct (round64_error q) as [Hup Hdown].
  assert (Hp : 2 ^ ulp_exponent q <= 2 ^ (-43)).
  { apply Qpower_le_compat_l; [|lra].
    apply ulp_exponent_below_1024; assumption. }
  assert (Hc : 2 ^ (-43) == 1 # 8796093022208) by reflexivity.
  rewrite Hc in Hp. split; lra.
Qed.

(** The product of a fractional part by 1000, rounded, stays below 1000. *)
Lemma round64_millis (y : Q) :
  0 <= y -> y <= 1000 * (1 - (1 # 9007199254740992)) ->
  0 <= round64 y /\ round64 y < 1000.
Proof.
  intros H0 H1. split; [apply round64_nonneg; exact H0|].
  destruct (round64_near_below_1024 y H0) as [Hup _]; lra.
Qed.

(** A whole number below [2^53] is a float. *)
Lemma round64_inject_Z (z : Z) :
  (0 <= z < 2 ^ 53)%Z -> round64 (inject_Z z) == inject_Z z.
Proof.
  intros [H0 H1]. destruct (Z.eq_dec z 0%Z) as [->|Hz]; [reflexivity|].
  assert (Hpos : 0 < inject_Z z)
    by (change 0 with (inject_Z 0); rewrite <- Zlt_Qlt; lia).
  assert (Hq : ~ inject_Z z == 0) by (intros H; lra).
  rewrite (round64_shape _ Hq).
  assert (He : ulp_exponent (inject_Z z) = (Z.log2 z - 52)%Z).
  { unfold ulp_exponent.
    rewrite (Qlog2_comp (Qabs (inject_Z z)) (inject_Z z)) by (apply Qabs_pos; lra).
    unfold Qlog2.
    replace (Qle_bool 1 (inject_Z z)) with true
      by (symmetry; apply Qle_bool_iff; change 1 with (inject_Z 1);
          rewrite <- Zle_Qle; lia).
    rewrite Qfloor_Z. pose proof (Z.log2_nonneg z). lia. }
  rewrite He.
  assert (Hlog : (0 <= Z.log2 z < 53)%Z).
  { split; [apply Z.log2_nonneg | apply Z.log2_lt_pow2; lia]. }
  set (k := (52 - Z.log2 z)%Z).
  replace (Z.log2 z - 52)%Z with (- k)%Z by (unfold k; lia).
  assert (Hk : (0 <= k)%Z) by (unfold k; lia).
  assert (HP : 0 < inject_Z (2 ^ k)).
  { change 0 with (inject_Z 0). rewrite <- Zlt_Qlt. apply Z.pow_pos_nonneg; lia. }
  assert (Hp : 2 ^ (- k) == / inject_Z (2 ^ k)).
  { rewrite Qpower_opp. apply Qinv_comp. rewrite Zpower_Qpower by exact Hk. reflexivity. }
  assert (Hr : rne (inject_Z z / 2 ^ (- k)) = (z * 2 ^ k)%Z).
  { rewrite <- (rne_inject_Z (z * 2 ^ k)). apply rne_comp.
    rewrite Hp, inject_Z_mult. field. lra. }
  rewrite Hr, Hp, inject_Z_mult. field. lra.
Qed.

Lemma Qceiling_between_1_2 (q : Q) : 1 < q -> q < 2 -> Qceiling q = 2%Z.
Proof.
  intros H1 H2.
  pose proof (Qle_ceiling q) as Hle. pose proof (Qceiling_lt q) as Hlt.
  assert (Hm : inject_Z (Qceiling q - 1) == inject_Z (Qceiling q) - 1).
  { unfold Zminus. rewrite inject_Z_plus. reflexivity. }
  rewrite Hm in Hlt.
  assert (A : (1 < Qceiling q)%Z) by (rewrite Zlt_Qlt; change (inject_Z 1) with 1; lra).
  assert (B : (Qceiling q < 3)%Z) by (rewrite Zlt_Qlt; change (inject_Z 3) with 3; lra).
  lia.
Qed.

(** The fractional part of a float that is not negative is a multiple of
    [2^-53] below 1. *)
Lemma float_fraction (x : Q) :
  is_float x -> 0 <= x ->
  x - inject_Z (Qfloor x) <= 1 - (1 # 9007199254740992).
Proof.
  unfold is_float. intros Hfl H0.
  pose proof (Qfloor_le x) as Hlo. pose proof (Qlt_floor x) as Hhi.
  assert (Hone : inject_Z (Qfloor x + 1) == inject_Z (Qfloor x) + 1)
    by (rewrite inject_Z_plus; reflexivity).
  rewrite Hone in Hhi.
  destruct (Qlt_le_dec (1 - (1 # 9007199254740992)) (x - inject_Z (Qfloor x)))
    as [Hbig|]; [|assumption].
  assert (Hx0 : ~ x == 0).
  { intros E. rewrite (Qfloor_comp _ _ E) in Hbig. rewrite E in Hbig.
    vm_compute in Hbig. discriminate. }
  rewrite (round64_shape x Hx0) in Hfl.
  set (M := rne (x / 2 ^ ulp_exponent x)) in *.
  destruct (Qlt_le_dec x 1) as [Hsmall|Hge1].
  - (* below 1: the last bit is 2^-53 *)
    assert (HF : Qfloor x = 0%Z).
    { assert (Qfloor x < 1)%Z by (rewrite Zlt_Qlt; change (inject_Z 1) with 1; lra).
      assert (0 <= Qfloor x)%Z by (change 0%Z with (Qfloor 0); apply Qfloor_resp_le; exact H0).
      lia. }
    rewrite HF in *. change (inject_Z 0) with 0 in *.
    assert (He : ulp_exponent x = (-53)%Z).
    { unfold ulp_exponent.
      rewrite (Qlog2_comp (Qabs x) x) by (apply Qabs_pos; exact H0).
      unfold Qlog2.
      replace (Qle_bool 1 x) with false.
      2:{ symmetry. destruct (Qle_bool 1 x) eqn:E; [|reflexivity].
          apply Qle_bool_iff in E. lra. }
      rewrite (Qceiling_between_1_2 (/ x)); [reflexivity| |].
      - change 1 with (/ 1). apply -> Qinv_lt_contravar; lra.
      - change 2 with (/ (1 # 2)). apply -> Qinv_lt_contravar; lra. }
    rewrite He in Hfl.
    assert (Hc : 2 ^ (-53) == 1 # 9007199254740992) by reflexivity.
    rewrite Hc in Hfl.
    assert (HM : (M < 9007199254740992)%Z).
    { rewrite Zlt_Qlt. change (inject_Z 9007199254740992) with 9007199254740992. lra. }
    assert (HM' : inject_Z M <= 9007199254740991).
    { change 9007199254740991 with (inject_Z 9007199254740991).
      rewrite <- Zle_Qle. lia. }
    lra.
  - (* from 1 on: the last bit is a multiple of 2^-52 *)
    assert (HF1 : (1 <= Qfloor x)%Z).
    { change 1%Z with (Qfloor 1). apply Qfloor_resp_le. exact Hge1. }
    assert (He : (-52 <= ulp_exponent x)%Z).
    { unfold ulp_exponent.
      rewrite (Qlog2_comp (Qabs x) x) by (apply Qabs_pos; exact H0).
      unfold Qlog2.
      replace (Qle_bool 1 x) with true by (symmetry; apply Qle_bool_iff; exact Hge1).
      pose proof (Z.log2_nonneg (Qfloor x)). lia. }
    set (E := ulp_exponent x) in *.
    assert (Hj : 2 ^ E * 4503599627370496 == inject_Z (2 ^ (E + 52))).
    { rewrite Zpower_Qpower by lia. change (inject_Z 2) with 2.
      rewrite Qpower_plus by discriminate. apply Qmult_comp; reflexivity. }
    set (N := (M * 2 ^ (E + 52) - Qfloor x * 4503599627370496)%Z).
    assert (HN : (x - inject_Z (Qfloor x)) * 4503599627370496 == inject_Z N).
    { unfold N, Zminus. rewrite inject_Z_plus, inject_Z_opp, !inject_Z_mult.
      change (inject_Z 4503599627370496) with 4503599627370496.
      rewrite <- Hj. rewrite <- Hfl at 1. ring. }
    assert (HN1 : (N < 4503599627370496)%Z).
    { rewrite Zlt_Qlt. rewrite <- HN.
      change (inject_Z 4503599627370496) with 4503599627370496. lra. }
    assert (HN2 : inject_Z N <= 4503599627370495).
    { change 4503599627370495 with (inject_Z 4503599627370495).
      rewrite <- Zle_Qle. lia. }
    lra.
Qed.

(** *** The float operations on a time that is not negative *)

Lemma py_int_inject_Z (z : Z) : py_int (inject_Z z) = z.
Proof. unfold py_int, inject_Z. cbn [Qnum Qden]. apply Z.quot_1_r. Qed.

Lemma py_int_nonneg (x : Q) : 0 <= x -> py_int x = Qfloor x.
Proof.
  destruct x as [n d]. unfold Qle, py_int, Qfloor. cbn [Qnum Qden].
  intros H. apply Z.quot_div_nonneg; lia.
Qed.

Lemma Qfloor_div_pos (x : Q) (k : positive) :
  Qfloor (x / inject_Z (Zpos k)) = (Qfloor x / Zpos k)%Z.
Proof.
  destruct x as [n d]. unfold Qdiv, Qmult, Qinv, inject_Z, Qfloor. cbn [Qnum Qden].
  rewrite Z.mul_1_r, Pos2Z.inj_mul. symmetry. apply Z.div_div; lia.
Qed.

Lemma Qfloor_sub_Z (x : Q) (z : Z) : Qfloor (x - inject_Z z) = (Qfloor x - z)%Z.
Proof.
  destruct x as [n d]. unfold Qminus, Qplus, Qopp, inject_Z, Qfloor. cbn [Qnum Qden].
  rewrite Pos.mul_1_r, Z.mul_1_r, Z.div_add by lia. lia.
Qed.

Lemma Qltb_lt (x y : Q) : Qltb x y = true <-> x < y.
Proof.
  unfold Qltb. rewrite negb_true_iff. split; intros H.
  - apply Qnot_le_lt. intros Hle. apply Qle_bool_iff in Hle. congruence.
  - destruct (Qle_bool y x) eqn:E; [|reflexivity].
    apply Qle_bool_iff in E. exfalso. apply (Qlt_not_le _ _ H). exact E.
Qed.

Lemma Qltb_ge (x y : Q) : Qltb x y = false <-> y <= x.
Proof.
  unfold Qltb. rewrite negb_false_iff. apply Qle_bool_iff.
Qed.

(** The remainder of a float that is not negative by a positive whole
    number: the exact remainder. *)
Lemma fmod_pos (x : Q) (c : positive) :
  0 <= x ->
  fmod x (inject_Z (Zpos c)) == x - inject_Z (Zpos c * (Qfloor x / Zpos c)).
Proof.
  intros H0. unfold fmod.
  rewrite py_int_nonneg.
  - rewrite Qfloor_div_pos, inject_Z_mult. reflexivity.
  - apply Qle_shift_div_l; [reflexivity | lra].
Qed.

Lemma fmod_pos_bounds (x : Q) (c : positive) :
  0 <= x ->
  0 <= fmod x (inject_Z (Zpos c)) /\
  fmod x (inject_Z (Zpos c)) < inject_Z (Zpos c) /\
  Qfloor (fmod x (inject_Z (Zpos c))) = (Qfloor x mod Zpos c)%Z.
Proof.
  intros H0. pose proof (fmod_pos x c H0) as E.
  pose proof (Qfloor_le x) as Hlo. pose proof (Qlt_floor x) as Hhi.
  assert (Hone : inject_Z (Qfloor x + 1) == inject_Z (Qfloor x) + 1)
    by (rewrite inject_Z_plus; reflexivity).
  rewrite Hone in Hhi.
  set (F := Qfloor x) in *.
  set (k := (Zpos c * (F / Zpos c))%Z) in *.
  set (r := (F mod Zpos c)%Z).
  pose proof (Z.mod_pos_bound F (Zpos c) ltac:(lia)) as Hmod. fold r in Hmod.
  assert (Heq : F = (k + r)%Z)
    by (unfold k, r; apply Z.div_mod; lia).
  assert (A : inject_Z (k + r) == inject_Z k + inject_Z r)
    by (rewrite inject_Z_plus; reflexivity).
  rewrite <- Heq in A.
  assert (B : 0 <= inject_Z r)
    by (change 0 with (inject_Z 0); rewrite <- Zle_Qle; lia).
  assert (C : inject_Z r + 1 <= inject_Z (Zpos c)).
  { change 1 with (inject_Z 1). rewrite <- inject_Z_plus, <- Zle_Qle. lia. }
  split; [rewrite E; lra|]. split; [rewrite E; lra|].
  rewrite (Qfloor_comp _ _ E), Qfloor_sub_Z. fold F. lia.
Qed.

Lemma float_mod_pos (x : Q) (c : positive) :
  0 <= x -> float_mod x (inject_Z (Zpos c)) = fmod x (inject_Z (Zpos c)).
Proof.
  intros H0. unfold float_mod. cbv zeta.
  destruct (fmod_pos_bounds x c H0) as (Hm & _ & _).
  replace (Qltb (inject_Z (Zpos c)) 0) with false
    by (symmetry; apply Qltb_ge; discriminate).
  replace (Qltb (fmod x (inject_Z (Zpos c))) 0) with false
    by (symmetry; apply Qltb_ge; exact Hm).
  simpl. rewrite andb_false_r. reflexivity.
Qed.

(** The floor division of a float that is not negative (and below
    [2^53]) by a positive whole number is exact. *)
Lemma float_floordiv_pos (x : Q) (c : positive) :
  0 <= x -> (Qfloor x < 2 ^ 53)%Z ->
  float_floordiv x (inject_Z (Zpos c)) == inject_Z (Qfloor x / Zpos c).
Proof.
  intros H0 Hbig. unfold float_floordiv. cbv zeta.
  destruct (fmod_pos_bounds x c H0) as (Hm & _ & _).
  pose proof (fmod_pos x c H0) as E.
  replace (Qltb (inject_Z (Zpos c)) 0) with false
    by (symmetry; apply Qltb_ge; discriminate).
  replace (Qltb (fmod x (inject_Z (Zpos c))) 0) with false
    by (symmetry; apply Qltb_ge; exact Hm).
  replace (negb (Bool.eqb false false)) with false by reflexivity.
  rewrite andb_false_r.
  assert (HF : (0 <= Qfloor x)%Z)
    by (change 0%Z with (Qfloor 0); apply Qfloor_resp_le; exact H0).
  set (F := Qfloor x) in *.
  set (k := (F / Zpos c)%Z) in *.
  assert (Hk : (0 <= k)%Z) by (apply Z.div_pos; lia).
  assert (Hck : (Zpos c * k <= F)%Z) by (apply Z.mul_div_le; lia).
  assert (Hkk : (k <= Zpos c * k)%Z) by nia.
  assert (R1 : round64 (x - fmod x (inject_Z (Zpos c))) == inject_Z (Zpos c * k)).
  { rewrite (round64_comp _ (inject_Z (Zpos c * k))) by (rewrite E; ring).
    apply round64_inject_Z. lia. }
  assert (R2 : round64 (round64 (x - fmod x (inject_Z (Zpos c))) / inject_Z (Zpos c))
               == inject_Z k).
  { rewrite (round64_comp _ (inject_Z k)).
    - apply round64_inject_Z. lia.
    - rewrite R1, inject_Z_mult. field. discriminate. }
  set (div := round64 (round64 (x - fmod x (inject_Z (Zpos c))) / inject_Z (Zpos c))) in *.
  destruct (Qeq_bool div 0) eqn:Ez.
  - apply Qeq_bool_iff in Ez. rewrite <- R2. symmetry. exact Ez.
  - assert (Hfd : Qfloor div = k) by (rewrite (Qfloor_comp _ _ R2); apply Qfloor_Z).
    rewrite Hfd.
    assert (Hd0 : round64 (div - inject_Z k) == 0).
    { rewrite (round64_comp _ 0) by (rewrite R2; ring). reflexivity. }
    replace (Qltb (1 # 2) (round64 (div - inject_Z k))) with false.
    + reflexivity.
    + symmetry. apply Qltb_ge. rewrite Hd0. discriminate.
Qed.

Lemma py_int_whole (q : Q) (z : Z) : q == inject_Z z -> (0 <= z)%Z -> py_int q = z.
Proof.
  intros E Hz. rewrite py_int_nonneg.
  - rewrite (Qfloor_comp _ _ E). apply Qfloor_Z.
  - rewrite E. change 0 with (inject_Z 0). rewrite <- Zle_Qle. exact Hz.
Qed.

(** What the four fields are for a float from 0 up to [2^53]: hours,
    minutes and seconds split the whole seconds of the input exactly;
    the milliseconds are the floor of the rounded product of the
    fractional part by 1000. *)
Lemma srt_fields_spec (seconds : Q) :
  is_float seconds -> 0 <= seconds -> seconds < 9007199254740992 ->
  let f := srt_fields seconds in
  let F := Qfloor seconds in
  srt_hours f = (F / 3600)%Z /\
  srt_minutes f = ((F mod 3600) / 60)%Z /\
  srt_secs f = (F mod 60)%Z /\
  (0 <= srt_millis f < 1000)%Z /\
  inject_Z F + inject_Z (srt_millis f) / 1000
    <= seconds + (1 # 1000) * (1 # 17592186044416) /\
  seconds < inject_Z F + inject_Z (srt_millis f) / 1000
            + (1 # 1000) * (1 + (1 # 17592186044416)).
Proof.
  intros Hfl H0 Hbig. cbv zeta.
  unfold srt_fields. cbn [srt_hours srt_minutes srt_secs srt_millis].
  pose proof (Qfloor_le seconds) as Hlo. pose proof (Qlt_floor seconds) as Hhi.
  assert (Hone : inject_Z (Qfloor seconds + 1) == inject_Z (Qfloor seconds) + 1)
    by (rewrite inject_Z_plus; reflexivity).
  rewrite Hone in Hhi.
  assert (HF0 : (0 <= Qfloor seconds)%Z)
    by (change 0%Z with (Qfloor 0); apply Qfloor_resp_le; exact H0).
  assert (HF1 : (Qfloor seconds < 2 ^ 53)%Z).
  { rewrite Zlt_Qlt. change (inject_Z (2 ^ 53)) with 9007199254740992. lra. }
  set (F := Qfloor seconds) in *.
  rewrite (float_mod_pos seconds 3600 H0 : float_mod seconds 3600 = _).
  rewrite (float_mod_pos seconds 60 H0 : float_mod seconds 60 = _).
  rewrite (float_mod_pos seconds 1 H0 : float_mod seconds 1 = _).
  change (float_floordiv seconds 3600)
    with (float_floordiv seconds (inject_Z (Zpos 3600))).
  change (float_floordiv (fmod seconds (inject_Z 3600)) 60)
    with (float_floordiv (fmod seconds (inject_Z 3600)) (inject_Z (Zpos 60))).
  destruct (fmod_pos_bounds seconds 3600 H0) as (Hm0 & Hm1 & Hmf).
  destruct (fmod_pos_bounds seconds 60 H0) as (Hs0 & Hs1 & Hsf).
  fold F in Hmf, Hsf.
  pose proof (Z.mod_pos_bound F 3600 ltac:(lia)) as Hmod3600.
  pose proof (Z.mod_pos_bound F 60 ltac:(lia)) as Hmod60.
  split.
  { apply py_int_whole; [apply float_floordiv_pos; assumption|].
    apply Z.div_pos; lia. }
  split.
  { apply py_int_whole.
    - rewrite float_floordiv_pos; [rewrite Hmf; reflexivity | exact Hm0 |].
      rewrite Hmf. lia.
    - apply Z.div_pos; lia. }
  split.
  { rewrite py_int_nonneg by exact Hs0. exact Hsf. }
  (* the milliseconds *)
  pose proof (fmod_pos seconds 1 H0) as Efrac. fold F in Efrac.
  rewrite Z.div_1_r, Z.mul_1_l in Efrac.
  pose proof (float_fraction seconds Hfl H0) as Hfrac. fold F in Hfrac.
  set (y := fmod seconds (inject_Z (Zpos 1)) * 1000) in *.
  assert (Hy : y == (seconds - inject_Z F) * 1000)
    by (unfold y; rewrite Efrac; reflexivity).
  clearbody y.
  assert (Hy0 : 0 <= y) by lra.
  assert (Hy1 : y <= 1000 * (1 - (1 # 9007199254740992))) by lra.
  destruct (round64_millis y Hy0 Hy1) as [Hr0 Hr1].
  assert (Hy2 : y < 1024) by lra.
  destruct (round64_near_below_1024 y Hy0 Hy2) as [Hup Hdown].
  rewrite py_int_nonneg by exact Hr0.
  pose proof (Qfloor_le (round64 y)) as Hml. pose proof (Qlt_floor (round64 y)) as Hmh.
  assert (Hone' : inject_Z (Qfloor (round64 y) + 1) == inject_Z (Qfloor (round64 y)) + 1)
    by (rewrite inject_Z_plus; reflexivity).
  rewrite Hone' in Hmh.
  set (r := round64 y) in *. clearbody r.
  split.
  { split.
    - change 0%Z with (Qfloor 0). apply Qfloor_resp_le. exact Hr0.
    - rewrite Zlt_Qlt. apply Qle_lt_trans with r; [exact Hml | exact Hr1]. }
  unfold Qdiv. change (/ 1000) with (1 # 1000).
  split; lra.
Qed.

(** X12.  The fields of an SRT time stamp for a time that is a float from
    0 up to [2^53] seconds.  Hours, minutes and seconds are computed
    exactly: they split the whole seconds of the input, minutes and
    seconds below 60.  The milliseconds, which the code takes from a
    rounded product, are from 0 to 999 and can be one more than the exact
    ones (the float 0.009 prints [,009] though it is below 9
    thousandths): the stamp is above the input by [2^-44] thousandths of
    a second at the most, and below it by less than a millisecond and
    that much. *)
Theorem srt_timestamp_fields (seconds : Q) :
  is_float seconds -> 0 <= seconds -> seconds < 9007199254740992 ->
  let f := srt_fields seconds in
  let stamp := inject_Z (Qfloor seconds) + inject_Z (srt_millis f) / 1000 in
  (0 <= srt_hours f)%Z /\
  (0 <= srt_minutes f < 60)%Z /\
  (0 <= srt_secs f < 60)%Z /\
  (0 <= srt_millis f < 1000)%Z /\
  (3600 * srt_hours f + 60 * srt_minutes f + srt_secs f = Qfloor seconds)%Z /\
  stamp <= seconds + (1 # 1000) * (1 # 17592186044416) /\
  seconds < stamp + (1 # 1000) * (1 + (1 # 17592186044416)).
Proof.
  intros Hfl H0 Hbig.
  destruct (srt_fields_spec seconds Hfl H0 Hbig) as (Hh & Hm & Hs & Hms & Hup & Hdown).
  cbv zeta in *.
  assert (HF0 : (0 <= Qfloor seconds)%Z)
    by (change 0%Z with (Qfloor 0); apply Qfloor_resp_le; exact H0).
  set (F := Qfloor seconds) in *.
  pose proof (Z.mod_pos_bound F 3600 ltac:(lia)) as Hmod.
  rewrite Hh, Hm, Hs.
  split; [apply Z.div_pos; lia|].
  split; [split; [apply Z.div_pos; lia | apply Z.div_lt_upper_bound; lia]|].
  split; [apply Z.mod_pos_bound; lia|].
  split; [exact Hms|].
  split; [|split; assumption].
  pose proof (Z.div_mod F 3600 ltac:(lia)) as E1.
  pose proof (Z.div_mod (F mod 3600) 60 ltac:(lia)) as E2.
  assert (E3 : ((F mod 3600) mod 60 = F mod 60)%Z)
    by (apply Z.mod_mod_divide; exists 60%Z; reflexivity).
  lia.
Qed.

Lemma srt_timestamp_fields_witness :
  (0 <= srt_millis (srt_fields (3725 + (1 # 2))) < 1000)%Z /\
  (3600 * srt_hours (srt_fields (3725 + (1 # 2)))
   + 60 * srt_minutes (srt_fields (3725 + (1 # 2)))
   + srt_secs (srt_fields (3725 + (1 # 2))) = 3725)%Z.
Proof.
  destruct (srt_timestamp_fields (3725 + (1 # 2)))
    as (_ & _ & _ & Hms & Hsum & _);
    [vm_compute; reflexivity | discriminate | reflexivity |].
  split; [exact Hms | exact Hsum].
Defined.

(** Where the rounding shows.  The float nearest to 0.009 is below 9
    thousandths and prints 9 milliseconds; the float [-1e-20] has its
    three remainders rounded up to the divisor and prints 60 minutes, 60
    seconds and 1000 milliseconds. *)
Lemma srt_timestamp_rounding :
  _format_srt_timestamp (5188146770730811 # 576460752303423488) = "00:00:00,009"%string /\
  5188146770730811 # 576460752303423488 < 9 # 1000 /\
  _format_srt_timestamp
    (-6646139978924579 # 664613997892457936451903530140172288)
  = "-1:60:60,1000"%string.
Proof. split; [vm_compute; reflexivity | split; [reflexivity | vm_compute; reflexivity]]. Qed.

Lemma string_length_app (a b : string) :
  String.length (a ++ b) = (String.length a + String.length b)%nat.
Proof.
  induction a as [|c a IH]; [reflexivity|].
  change (String c a ++ b)%string with (String c (a ++ b)). simpl. now rewrite IH.
Qed.

(** A number that fits the width is printed on exactly that many
    characters: checked for every number of two and of three digits. *)
Lemma format_d_2_length (z : Z) :
  (0 <= z < 100)%Z -> String.length (format_d 2 z) = 2%nat.
Proof.
  intros H.
  assert (Hall : forallb (fun n => Nat.eqb (String.length (format_d 2 (Z.of_nat n))) 2)
                   (seq 0 100) = true) by (vm_compute; reflexivity).
  rewrite forallb_forall in Hall.
  specialize (Hall (Z.to_nat z)). rewrite Z2Nat.id in Hall by lia.
  apply Nat.eqb_eq, Hall, in_seq. lia.
Qed.

Lemma format_d_3_length (z : Z) :
  (0 <= z < 1000)%Z -> String.length (format_d 3 z) = 3%nat.
Proof.
  intros H.
  assert (Hall : forallb (fun n => Nat.eqb (String.length (format_d 3 (Z.of_nat n))) 3)
                   (seq 0 1000) = true) by (vm_compute; reflexivity).
  rewrite forallb_forall in Hall.
  specialize (Hall (Z.to_nat z)). rewrite Z2Nat.id in Hall by lia.
  apply Nat.eqb_eq, Hall, in_seq. lia.
Qed.

(** X13.  For a time from 0 up to (not including) 100 hours,
    [_format_srt_timestamp] gives a stamp of exactly twelve characters,
    the fixed-width [HH:MM:SS,mmm] that SRT asks for; the time is a
    float, as every argument of the function is. *)
Theorem srt_timestamp_width (seconds : Q) :
  is_float seconds ->
  0 <= seconds -> seconds < 360000 ->
  String.length (_format_srt_timestamp seconds) = 12%nat.
Proof.
  intros Hfl H0 H1.
  assert (Hbig : seconds < 9007199254740992) by lra.
  destruct (srt_fields_spec seconds Hfl H0 Hbig) as (Hh & Hm & Hs & Hms & _).
  cbv zeta in Hh, Hm, Hs, Hms.
  assert (HF0 : (0 <= Qfloor seconds)%Z)
    by (change 0%Z with (Qfloor 0); apply Qfloor_resp_le; exact H0).
  assert (HF1 : (Qfloor seconds < 360000)%Z).
  { rewrite Zlt_Qlt. apply Qle_lt_trans with seconds; [apply Qfloor_le | exact H1]. }
  pose proof (Z.mod_pos_bound (Qfloor seconds) 3600 ltac:(lia)) as Hmod.
  assert (Hh' : (0 <= srt_hours (srt_fields seconds) < 100)%Z).
  { rewrite Hh. split; [apply Z.div_pos; lia | apply Z.div_lt_upper_bound; lia]. }
  assert (Hm' : (0 <= srt_minutes (srt_fields seconds) < 100)%Z).
  { rewrite Hm. split; [apply Z.div_pos; lia | apply Z.div_lt_upper_bound; lia]. }
  assert (Hs' : (0 <= srt_secs (srt_fields seconds) < 100)%Z).
  { rewrite Hs. pose proof (Z.mod_pos_bound (Qfloor seconds) 60 ltac:(lia)). lia. }
  unfold _format_srt_timestamp. cbv zeta.
  rewrite !string_length_app.
  rewrite (format_d_2_length _ Hh'), (format_d_2_length _ Hm'),
    (format_d_2_length _ Hs'), (format_d_3_length _ Hms).
  reflexivity.
Qed.

Lemma srt_timestamp_width_witness :
  String.length (_format_srt_timestamp (3725 + (1 # 2))) = 12%nat.
Proof.
  apply srt_timestamp_width; [vm_compute; reflexivity | discriminate | reflexivity].
Defined.

Local Close Scope Q_scope.

End AutoEdit.

(* ===================================================================== *)
(** * [state_store.py]: the persistent job and session store              *)
(* ===================================================================== *)

Module StateStore.

(** ** Data model *)

(** [class JobStatus(Enum)] *)
Inductive JobStatus : Type :=
  | PENDING | IN_PROGRESS | COMPLETED | FAILED | SKIPPED | RETRYING.

(** [class SessionStatus(Enum)] *)
Inductive SessionStatus : Type :=
  | VALID | STALE | EXPIRED | INVALID.

Definition JobStatus_eqb (a b : JobStatus) : bool :=
  match a, b with
  | PENDING, PENDING | IN_PROGRESS, IN_PROGRESS | COMPLETED, COMPLETED
  | FAILED, FAILED | SKIPPED, SKIPPED | RETRYING, RETRYING => true
  | _, _ => false
  end.

(** A Python [dict] with string keys: the entries in insertion order, as
    [json.load] and [json.dump] keep them. *)
Definition dict (V : Type) : Type := list (string * V).

Fixpoint dict_get {V} (k : string) (d : dict V) : option V :=
  match d with
  | [] => None
  | (k', v) :: d' => if String.eqb k' k then Some v else dict_get k d'
  end.

(** [d[k] = v]: an existing key keeps its place, a new one goes last. *)
Fixpoint dict_set {V} (k : string) (v : V) (d : dict V) : dict V :=
  match d with
  | [] => [(k, v)]
  | (k', v') :: d' =>
      if String.eqb k' k then (k, v) :: d' else (k', v') :: dict_set k v d'
  end.

Definition dict_keys {V} (d : dict V) : list string := map fst d.
Definition dict_values {V} (d : dict V) : list V := map snd d.

(** The settings the store reads, each key absent ([None]) or present. *)
Record Settings : Type := {
  session_max_age_seconds : option Q;
  retry_max_attempts : option Z;
  base_backoff_seconds : option Q;
  max_backoff_seconds : option Q;
  backoff_multiplier : option Q;
  jitter : option bool
}.

Definition DEFAULT_SESSION_MAX_AGE : Q := 3600.
Definition DEFAULT_MAX_ATTEMPTS : Z := 3.
Definition DEFAULT_BASE_BACKOFF : Q := 2.
Definition DEFAULT_MAX_BACKOFF : Q := 60.
Definition DEFAULT_BACKOFF_MULTIPLIER : Q := 2.

(** [_get_default_settings] *)
Definition default_settings : Settings :=
  {| session_max_age_seconds := Some DEFAULT_SESSION_MAX_AGE;
     retry_max_attempts := Some DEFAULT_MAX_ATTEMPTS;
     base_backoff_seconds := Some DEFAULT_BASE_BACKOFF;
     max_backoff_seconds := Some DEFAULT_MAX_BACKOFF;
     backoff_multiplier := Some DEFAULT_BACKOFF_MULTIPLIER;
     jitter := Some true |}.

(** What is in a state file: a JSON document of the expected shape, or
    bytes that [json.load] rejects. *)
Inductive Stored (A : Type) : Type :=
  | Doc (a : A)
  | Garbled.
Arguments Doc {A} a.
Arguments Garbled {A}.

Section Store.

(** Job payloads and diagnostic payloads are opaque JSON values; the store
    only asks whether one is truthy ([if diagnostics:]). *)
Context {Json : Type}.
Variable json_truthy : Json -> bool.

(** The clock: the [n]-th reading of [datetime.now()] since the process
    started, in microseconds.  A stored time stamp is modelled by the instant
    it spells ([isoformat] is injective and never empty). *)
Variable clock : nat -> Z.

(** [datetime.fromisoformat(s)] followed by [.replace(tzinfo=None)]: the
    instant in microseconds, or [None] when the parse raises. *)
Variable fromisoformat : string -> option Z.

(** One entry of a job's [diagnostics] list. *)
Record Diagnostic : Type := {
  diag_timestamp : Z;
  diag_status : JobStatus;
  diag_step : option string;
  diag_data : Json
}.

(** A job record. *)
Record Job : Type := {
  job_id : string;
  job_data : Json;
  status : JobStatus;
  created_at : Z;
  updated_at : Z;
  attempts : Z;
  max_attempts : Z;
  last_error : option string;
  diagnostics : list Diagnostic;
  current_step : option string;
  start_time : option Z;
  end_time : option Z;
  export_metadata : option Json
}.

(** The [metadata] block of [jobs.json]. *)
Record JobsMetadata : Type := {
  meta_created_at : option Z;
  meta_version : option string;
  total_jobs : option nat;
  last_updated : option Z
}.

(** The document [jobs.json]. *)
Record JobsState : Type := {
  jobs_metadata : JobsMetadata;
  jobs : dict Job
}.

(** ["session"] of [session.json]; a key is [None] when absent or null. *)
Record Session : Type := {
  last_state_saved_at : option string;
  session_valid : option bool;
  state_file_path : option string;
  login_count : option Z;
  last_validation_at : option Z
}.

Record SessionState : Type := {
  session_last_updated : option Z;
  session : Session
}.

(** The store object: only its settings matter, the paths are fixed. *)
Record Store : Type := { settings : Settings }.

(** The machine: the two state files ([None]: no such file), their
    time-stamped backups (oldest first, one per second), whether the state
    directory accepts writes, how often the clock has been read, and what
    has been printed. *)
Record World : Type := {
  jobs_file : option (Stored JobsState);
  jobs_backups : list (Z * Stored JobsState);
  session_file : option (Stored SessionState);
  session_backups : list (Z * Stored SessionState);
  writable : bool;
  reads : nat;
  stdout : list string
}.

Definition set_jobs_file (f : option (Stored JobsState)) (w : World) : World :=
  {| jobs_file := f; jobs_backups := jobs_backups w;
     session_file := session_file w; session_backups := session_backups w;
     writable := writable w; reads := reads w; stdout := stdout w |}.

Definition set_jobs_backups (b : list (Z * Stored JobsState)) (w : World) : World :=
  {| jobs_file := jobs_file w; jobs_backups := b;
     session_file := session_file w; session_backups := session_backups w;
     writable := writable w; reads := reads w; stdout := stdout w |}.

Definition set_session_file (f : option (Stored SessionState)) (w : World) : World :=
  {| jobs_file := jobs_file w; jobs_backups := jobs_backups w;
     session_file := f; session_backups := session_backups w;
     writable := writable w; reads := reads w; stdout := stdout w |}.

Definition set_session_backups (b : list (Z * Stored SessionState)) (w : World) : World :=
  {| jobs_file := jobs_file w; jobs_backups := jobs_backups w;
     session_file := session_file w; session_backups := b;
     writable := writable w; reads := reads w; stdout := stdout w |}.

Definition tick (w : World) : World :=
  {| jobs_file := jobs_file w; jobs_backups := jobs_backups w;
     session_file := session_file w; session_backups := session_backups w;
     writable := writable w; reads := S (reads w); stdout := stdout w |}.

Definition add_stdout (line : string) (w : World) : World :=
  {| jobs_file := jobs_file w; jobs_backups := jobs_backups w;
     session_file := session_file w; session_backups := session_backups w;
     writable := writable w; reads := reads w; stdout := stdout w ++ [line] |}.

Abbreviation Py := (M World).

Definition print (line : string) : Py unit := modify (add_stdout line).

(** [datetime.now()] *)
Definition datetime_now : Py Z :=
  w <- get ;; modify tick ;;; ret (clock (reads w)).

(** ** Persistence *)

(** A backup file is named after the second it was taken in
    ([strftime("%Y%m%d_%H%M%S")]). *)
Definition backup_stamp (now : Z) : Z := (now / 1000000)%Z.

(** [shutil.copy2(file, backup_path)] in a directory whose backups are
    listed in name order: a backup of the same second is overwritten. *)
Fixpoint insert_backup {A} (stamp : Z) (content : A) (l : list (Z * A)) : list (Z * A) :=
  match l with
  | [] => [(stamp, content)]
  | (s, c) :: l' =>
      if (stamp <? s)%Z then (stamp, content) :: (s, c) :: l'
      else if (stamp =? s)%Z then (stamp, content) :: l'
      else (s, c) :: insert_backup stamp content l'
  end.

(** [backups[:-5]] are unlinked when there are more than five. *)
Definition keep_last {A} (n : nat) (l : list A) : list A := drop (length l - n) l.

(** [_backup_state_file] *)
Definition _backup_state_file {A}
    (file : World -> option (Stored A))
    (backups : World -> list (Z * Stored A))
    (set_backups : list (Z * Stored A) -> World -> World) : Py unit :=
  w <- get ;;
  match file w with
  | None => ret tt
  | Some content =>
      now <- datetime_now ;;
      try_except
        (w <- get ;;
         if writable w then
           modify (set_backups
                     (keep_last 5 (insert_backup (backup_stamp now) content (backups w))))
         else raise OSError)
        (fun _ => print "Warning: Could not backup")
  end.

Definition empty_jobs_state : JobsState :=
  {| jobs_metadata :=
       {| meta_created_at := None; meta_version := None;
          total_jobs := None; last_updated := None |};
     jobs := [] |}.

(** [_load_jobs_state] *)
Definition _load_jobs_state : Py JobsState :=
  try_except
    (w <- get ;;
     match jobs_file w with
     | Some (Doc state) => ret state
     | Some Garbled => raise JSONDecodeError
     | None => raise FileNotFoundError
     end)
    (fun _ => print "Error loading jobs state" ;;; ret empty_jobs_state).

Definition stamp_jobs_metadata (now : Z) (state : JobsState) : JobsState :=
  {| jobs_metadata :=
       {| meta_created_at := meta_created_at (jobs_metadata state);
          meta_version := meta_version (jobs_metadata state);
          total_jobs := Some (length (jobs state));
          last_updated := Some now |};
     jobs := jobs state |}.

(** [_save_jobs_state] *)
Definition _save_jobs_state (state : JobsState) : Py unit :=
  try_except
    (_backup_state_file jobs_file jobs_backups set_jobs_backups ;;;
     now <- datetime_now ;;
     w <- get ;;
     if writable w then
       modify (set_jobs_file (Some (Doc (stamp_jobs_metadata now state))))
     else raise OSError)
    (fun _ => print "Error saving jobs state").

Definition empty_session : Session :=
  {| last_state_saved_at := None; session_valid := None;
     state_file_path := None; login_count := None;
     last_validation_at := None |}.

Definition empty_session_state : SessionState :=
  {| session_last_updated := None; session := empty_session |}.

(** [_load_session_state] *)
Definition _load_session_state : Py SessionState :=
  try_except
    (w <- get ;;
     match session_file w with
     | Some (Doc state) => ret state
     | Some Garbled => raise JSONDecodeError
     | None => raise FileNotFoundError
     end)
    (fun _ => print "Error loading session state" ;;; ret empty_session_state).

(** [_save_session_state] *)
Definition _save_session_state (state : SessionState) : Py unit :=
  try_except
    (_backup_state_file session_file session_backups set_session_backups ;;;
     now <- datetime_now ;;
     w <- get ;;
     if writable w then
       modify (set_session_file
                 (Some (Doc {| session_last_updated := Some now;
                               session := session state |})))
     else raise OSError)
    (fun _ => print "Error saving session state").

(** ** Jobs *)

Definition set_status (s : JobStatus) (now : Z) (j : Job) : Job :=
  {| job_id := job_id j; job_data := job_data j; status := s;
     created_at := created_at j; updated_at := now;
     attempts := attempts j; max_attempts := max_attempts j;
     last_error := last_error j; diagnostics := diagnostics j;
     current_step := current_step j; start_time := start_time j;
     end_time := end_time j; export_metadata := export_metadata j |}.

Definition set_last_error (e : option string) (j : Job) : Job :=
  {| job_id := job_id j; job_data := job_data j; status := status j;
     created_at := created_at j; updated_at := updated_at j;
     attempts := attempts j; max_attempts := max_attempts j;
     last_error := e; diagnostics := diagnostics j;
     current_step := current_step j; start_time := start_time j;
     end_time := end_time j; export_metadata := export_metadata j |}.

Definition set_current_step (c : option string) (j : Job) : Job :=
  {| job_id := job_id j; job_data := job_data j; status := status j;
     created_at := created_at j; updated_at := updated_at j;
     attempts := attempts j; max_attempts := max_attempts j;
     last_error := last_error j; diagnostics := diagnostics j;
     current_step := c; start_time := start_time j;
     end_time := end_time j; export_metadata := export_metadata j |}.

Definition set_start_time (t : Z) (j : Job) : Job :=
  {| job_id := job_id j; job_data := job_data j; status := status j;
     created_at := created_at j; updated_at := updated_at j;
     attempts := attempts j; max_attempts := max_attempts j;
     last_error := last_error j; diagnostics := diagnostics j;
     current_step := current_step j; start_time := Some t;
     end_time := end_time j; export_metadata := export_metadata j |}.

Definition set_end_time (t : Z) (j : Job) : Job :=
  {| job_id := job_id j; job_data := job_data j; status := status j;
     created_at := created_at j; updated_at := updated_at j;
     attempts := attempts j; max_attempts := max_attempts j;
     last_error := last_error j; diagnostics := diagnostics j;
     current_step := current_step j; start_time := start_time j;
     end_time := Some t; export_metadata := export_metadata j |}.

(** [job["attempts"] += 1] *)
Definition bump_attempts (j : Job) : Job :=
  {| job_id := job_id j; job_data := job_data j; status := status j;
     created_at := created_at j; updated_at := updated_at j;
     attempts := (attempts j + 1)%Z; max_attempts := max_attempts j;
     last_error := last_error j; diagnostics := diagnostics j;
     current_step := current_step j; start_time := start_time j;
     end_time := end_time j; export_metadata := export_metadata j |}.

(** [job["diagnostics"].append(entry)] *)
Definition append_diagnostic (d : Diagnostic) (j : Job) : Job :=
  {| job_id := job_id j; job_data := job_data j; status := status j;
     created_at := created_at j; updated_at := updated_at j;
     attempts := attempts j; max_attempts := max_attempts j;
     last_error := last_error j; diagnostics := diagnostics j ++ [d];
     current_step := current_step j; start_time := start_time j;
     end_time := end_time j; export_metadata := export_metadata j |}.

(** [state["jobs"][job_id] = job] *)
Definition put_job (id : string) (j : Job) (state : JobsState) : JobsState :=
  {| jobs_metadata := jobs_metadata state; jobs := dict_set id j (jobs state) |}.

Definition configured_max_attempts (self : Store) : Z :=
  default DEFAULT_MAX_ATTEMPTS (retry_max_attempts (settings self)).

(** The record [add_job] builds. *)
Definition new_job (self : Store) (id : string) (data : Json) (created updated : Z) : Job :=
  {| job_id := id; job_data := data; status := PENDING;
     created_at := created; updated_at := updated;
     attempts := 0; max_attempts := configured_max_attempts self;
     last_error := None; diagnostics := [];
     current_step := None; start_time := None;
     end_time := None; export_metadata := None |}.

(** [add_job] *)
Definition add_job (self : Store) (id : string) (data : Json) : Py bool :=
  try_except
    (state <- _load_jobs_state ;;
     created <- datetime_now ;;
     updated <- datetime_now ;;
     let job_entry := new_job self id data created updated in
     _save_jobs_state (put_job id job_entry state) ;;;
     ret true)
    (fun _ => print "Error adding job" ;;; ret false).

(** The status-specific part of [mark_job_status]. *)
Definition status_update (s : JobStatus) (job : Job) : Py Job :=
  match s with
  | IN_PROGRESS =>
      job <- match start_time job with
             | None => now <- datetime_now ;; ret (set_start_time now job)
             | Some _ => ret job
             end ;;
      ret (bump_attempts job)
  | COMPLETED | FAILED | SKIPPED =>
      now <- datetime_now ;; ret (set_end_time now job)
  | RETRYING => ret (bump_attempts job)
  | PENDING => ret job
  end.

(** [mark_job_status] *)
Definition mark_job_status (self : Store) (id : string) (s : JobStatus)
    (error_message current_step_arg : option string) (diag : option Json) : Py bool :=
  try_except
    (state <- _load_jobs_state ;;
     match dict_get id (jobs state) with
     | None => print "Job not found in state store" ;;; ret false
     | Some job =>
         now <- datetime_now ;;
         let job := set_status s now job in
         let job := if truthy error_message then set_last_error error_message job else job in
         let job := if truthy current_step_arg then set_current_step current_step_arg job
                    else job in
         job <- status_update s job ;;
         job <- match diag with
                | Some d =>
                    if json_truthy d then
                      now <- datetime_now ;;
                      ret (append_diagnostic
                             {| diag_timestamp := now; diag_status := s;
                                diag_step := current_step_arg; diag_data := d |} job)
                    else ret job
                | None => ret job
                end ;;
         _save_jobs_state (put_job id job state) ;;;
         ret true
     end)
    (fun _ => print "Error updating job status" ;;; ret false).

(** [get_job] *)
Definition get_job (id : string) : Py (option Job) :=
  try_except
    (state <- _load_jobs_state ;; ret (dict_get id (jobs state)))
    (fun _ => print "Error getting job" ;;; ret None).

(** [get_jobs_by_status] *)
Definition get_jobs_by_status (s : JobStatus) : Py (list Job) :=
  try_except
    (state <- _load_jobs_state ;;
     ret (List.filter (fun job => JobStatus_eqb (status job) s) (dict_values (jobs state))))
    (fun _ => print "Error getting jobs by status" ;;; ret []).

Definition get_pending_jobs : Py (list Job) := get_jobs_by_status PENDING.

(** The test of [get_failed_jobs]: failed, and attempts left. *)
Definition retryable (job : Job) : bool :=
  JobStatus_eqb (status job) FAILED && (attempts job <? max_attempts job)%Z.

(** [get_failed_jobs] *)
Definition get_failed_jobs : Py (list Job) :=
  try_except
    (state <- _load_jobs_state ;;
     ret (List.filter retryable (dict_values (jobs state))))
    (fun _ => print "Error getting failed jobs" ;;; ret []).

(** The [for job in failed_jobs] loop of [resume_failed_jobs]. *)
Fixpoint resume_loop (self : Store) (failed_jobs : list Job) (resumed_jobs : list string)
    : Py (list string) :=
  match failed_jobs with
  | [] => ret resumed_jobs
  | job :: rest =>
      ok <- mark_job_status self (job_id job) PENDING None None None ;;
      if ok then
        print "Marked job for retry" ;;;
        resume_loop self rest (resumed_jobs ++ [job_id job])
      else resume_loop self rest resumed_jobs
  end.

(** [resume_failed_jobs] *)
Definition resume_failed_jobs (self : Store) : Py (list string) :=
  try_except
    (failed_jobs <- get_failed_jobs ;; resume_loop self failed_jobs [])
    (fun _ => print "Error resuming failed jobs" ;;; ret []).

(** ** Retry back-off *)




(** ** Session *)

(** [s.replace('Z', '+00:00')]; the letter Z has code 90. *)
Fixpoint replace_Z (s : string) : string :=
  match s with
  | EmptyString => EmptyString
  | String c s' =>
      if Ascii.eqb c (Ascii.ascii_of_nat 90) then "+00:00" ++ replace_Z s' else String c (replace_Z s')
  end.

(** [update_session_state].  A [login_count] that is in the file holds a
    number, as every writer of [session.json] leaves it. *)
Definition update_session_state (saved_at : option string) (valid : bool)
    (path : option string) : Py bool :=
  try_except
    (state <- _load_session_state ;;
     let sess := session state in
     now <- datetime_now ;;
     let sess' :=
       {| last_state_saved_at :=
            if truthy saved_at then saved_at else last_state_saved_at sess;
          session_valid := Some valid;
          state_file_path := if truthy path then path else state_file_path sess;
          login_count :=
            if valid then Some (default 0%Z (login_count sess) + 1)%Z
            else login_count sess;
          last_validation_at := Some now |} in
     _save_session_state
       {| session_last_updated := session_last_updated state; session := sess' |} ;;;
     ret true)
    (fun _ => print "Error updating session state" ;;; ret false).

Definition configured_max_age (self : Store) : Q :=
  default DEFAULT_SESSION_MAX_AGE (session_max_age_seconds (settings self)).

(** [(now - last_saved_dt).total_seconds()] *)
Definition total_seconds (microseconds : Z) : Q := (inject_Z microseconds / 1000000)%Q.

Definition Qgtb (x y : Q) : bool := negb (Qle_bool x y).

(** [check_session_ttl] *)
Definition check_session_ttl (self : Store) : Py SessionStatus :=
  try_except
    (state <- _load_session_state ;;
     let last_saved := last_state_saved_at (session state) in
     if negb (truthy last_saved) then ret INVALID
     else
       match fromisoformat (replace_Z (default "" last_saved)) with
       | None => ret INVALID
       | Some last_saved_dt =>
           let max_age := configured_max_age self in
           now <- datetime_now ;;
           let age_seconds := total_seconds (now - last_saved_dt) in
           if Qgtb age_seconds max_age then ret EXPIRED
           else if Qgtb age_seconds (max_age * (8 # 10))%Q then ret STALE
           else ret VALID
       end)
    (fun _ => print "Error checking session TTL" ;;; ret INVALID).

(** ** Facts on dictionaries *)

Lemma dict_get_set_eq {V} (k : string) (v : V) (d : dict V) :
  dict_get k (dict_set k v d) = Some v.
Proof.
  induction d as [|[k' v'] d IH]; simpl.
  - now rewrite String.eqb_refl.
  - destruct (String.eqb k' k) eqn:E; simpl.
    + now rewrite String.eqb_refl.
    + now rewrite E.
Qed.

Lemma dict_get_set_ne {V} (k k0 : string) (v : V) (d : dict V) :
  k0 <> k -> dict_get k0 (dict_set k v d) = dict_get k0 d.
Proof.
  intros Hne. induction d as [|[k' v'] d IH]; simpl.
  - destruct (String.eqb k k0) eqn:E; [|reflexivity].
    apply String.eqb_eq in E. congruence.
  - destruct (String.eqb k' k) eqn:E; simpl.
    + apply String.eqb_eq in E. subst k'.
      destruct (String.eqb k k0) eqn:E'; [|reflexivity].
      apply String.eqb_eq in E'. congruence.
    + destruct (String.eqb k' k0); [reflexivity | exact IH].
Qed.

Lemma dict_keys_set_present {V} (k : string) (v v0 : V) (d : dict V) :
  dict_get k d = Some v0 -> dict_keys (dict_set k v d) = dict_keys d.
Proof.
  induction d as [|[k' v'] d IH]; simpl; [discriminate|].
  destruct (String.eqb k' k) eqn:E; simpl.
  - intros _. apply String.eqb_eq in E. now subst.
  - intros H. unfold dict_keys in *. simpl. f_equal. exact (IH H).
Qed.

Lemma dict_get_elem {V} (k : string) (v : V) (d : dict V) :
  dict_get k d = Some v -> (k, v) ∈ d.
Proof.
  induction d as [|[k' v'] d IH]; simpl; [discriminate|].
  destruct (String.eqb k' k) eqn:E.
  - intros [= ->]. apply String.eqb_eq in E. subst. apply list_elem_of_here.
  - intros H. apply list_elem_of_further. auto.
Qed.

Lemma dict_elem_get {V} (k : string) (v : V) (d : dict V) :
  NoDup (dict_keys d) -> (k, v) ∈ d -> dict_get k d = Some v.
Proof.
  induction d as [|[k' v'] d IH]; simpl; intros Hnd Hin.
  - inversion Hin.
  - apply NoDup_cons in Hnd as [Hnotin Hnd].
    apply elem_of_cons in Hin as [[= -> ->]|Hin].
    + now rewrite String.eqb_refl.
    + destruct (String.eqb k' k) eqn:E; [|auto].
      apply String.eqb_eq in E. subst k'. exfalso. apply Hnotin.
      unfold dict_keys. apply list_elem_of_fmap. exists (k, v). auto.
Qed.

(** ** Reading and writing [jobs.json] *)

(** The record stored under [id], as a reader of the file finds it. *)
Definition stored_job (id : string) (w : World) : option Job :=
  match jobs_file w with
  | Some (Doc state) => dict_get id (jobs state)
  | _ => None
  end.

Lemma load_jobs_doc (w : World) (state : JobsState) :
  jobs_file w = Some (Doc state) -> _load_jobs_state w = (Returned state, w).
Proof. intros H. unfold _load_jobs_state, try_except, bind, get. now rewrite H. Qed.

Lemma load_jobs_fallback (w : World) :
  (forall state, jobs_file w <> Some (Doc state)) ->
  _load_jobs_state w = (Returned empty_jobs_state, add_stdout "Error loading jobs state" w).
Proof.
  intros H. unfold _load_jobs_state, try_except, bind, get.
  destruct (jobs_file w) as [[state|]|] eqn:E; try reflexivity.
  exfalso. apply (H state). reflexivity.
Qed.

(** The world after the backup step of a successful save. *)
Definition backed_up (w : World) : World :=
  match jobs_file w with
  | None => w
  | Some content =>
      set_jobs_backups
        (keep_last 5 (insert_backup (backup_stamp (clock (reads w))) content (jobs_backups w)))
        (tick w)
  end.

(** The world after a successful [_save_jobs_state]. *)
Definition saved (state : JobsState) (w : World) : World :=
  set_jobs_file
    (Some (Doc (stamp_jobs_metadata (clock (reads (backed_up w))) state)))
    (tick (backed_up w)).

Lemma save_jobs_ok (state : JobsState) (w : World) :
  writable w = true -> _save_jobs_state state w = (Returned tt, saved state w).
Proof.
  intros Hw. unfold _save_jobs_state, _backup_state_file, saved, backed_up.
  unfold try_except, bind, get, datetime_now, bind, get, modify, ret.
  destruct (jobs_file w) as [content|] eqn:E;
    repeat (simpl; rewrite ?Hw); reflexivity.
Qed.

(** A save into a directory that refuses writes changes neither the file
    nor its backups, and still returns normally. *)
Lemma save_jobs_refused (state : JobsState) (w : World) :
  writable w = false ->
  exists w', _save_jobs_state state w = (Returned tt, w') /\
             jobs_file w' = jobs_file w /\ jobs_backups w' = jobs_backups w /\
             writable w' = false.
Proof.
  intros Hw. unfold _save_jobs_state, _backup_state_file.
  unfold try_except, bind, get, datetime_now, bind, get, modify, ret, raise, print, modify.
  destruct (jobs_file w) as [content|] eqn:E;
    repeat (simpl; rewrite ?Hw);
    eexists; (split; [reflexivity|]); simpl; auto.
Qed.

Lemma saved_writable state w : writable (saved state w) = writable w.
Proof. unfold saved, backed_up. destruct (jobs_file w); reflexivity. Qed.

Lemma saved_jobs_file state w :
  exists now, jobs_file (saved state w) = Some (Doc (stamp_jobs_metadata now state)).
Proof. eexists. reflexivity. Qed.

Lemma stored_job_saved (id : string) (state : JobsState) (w : World) :
  stored_job id (saved state w) = dict_get id (jobs state).
Proof. reflexivity. Qed.

(** ** [mark_job_status] *)

#[local] Arguments _save_jobs_state : simpl never.
#[local] Arguments _load_jobs_state : simpl never.

(** The call on a job that is in the store, the directory accepting
    writes: what is stored afterwards. *)
Lemma mark_job_status_present (self : Store) (id : string) (s : JobStatus)
    (err step : option string) (diag : option Json)
    (w : World) (state : JobsState) (job : Job) :
  jobs_file w = Some (Doc state) ->
  dict_get id (jobs state) = Some job ->
  writable w = true ->
  exists (w' : World) (job' : Job),
    mark_job_status self id s err step diag w = (Returned true, w') /\
    (exists now, jobs_file w'
                 = Some (Doc (stamp_jobs_metadata now (put_job id job' state)))) /\
    writable w' = true /\
    status job' = s /\
    job_id job' = job_id job /\
    max_attempts job' = max_attempts job /\
    attempts job'
      = match s with
        | IN_PROGRESS | RETRYING => (attempts job + 1)%Z
        | _ => attempts job
        end /\
    start_time job'
      = match s with
        | IN_PROGRESS => Some (default (clock (S (reads w))) (start_time job))
        | _ => start_time job
        end /\
    end_time job'
      = match s with
        | COMPLETED | FAILED | SKIPPED => Some (clock (S (reads w)))
        | _ => end_time job
        end /\
    (s = PENDING -> err = None -> step = None -> diag = None ->
     job' = set_status PENDING (clock (reads w)) job).
Proof.
  intros Hfile Hget Hw.
  unfold mark_job_status, try_except. unfold bind at 1.
  rewrite (load_jobs_doc _ _ Hfile), Hget.
  unfold datetime_now, status_update.
  destruct s; destruct (start_time job) as [t0|] eqn:Est;
    destruct diag as [d|]; try destruct (json_truthy d);
    destruct (truthy err) eqn:Eerr, (truthy step) eqn:Estep;
    unfold bind, get, modify, ret; simpl;
    rewrite ?Est; simpl;
    eexists _, _;
    (split; [rewrite save_jobs_ok by (simpl; exact Hw); reflexivity|]);
    (split; [eexists; reflexivity|]);
    (split; [rewrite saved_writable; simpl; exact Hw|]);
    simpl; rewrite ?Est;
    repeat split; try reflexivity; try discriminate;
    intros _ -> ->; discriminate.
Qed.

(** C10.  For a job id that is not in the store (no record under it in
    [jobs.json], or no readable [jobs.json] at all), [mark_job_status]
    returns [False] and writes nothing: the jobs file and its backups, the
    session file and its backups are as before, and the clock has not even
    been read. *)
Theorem mark_job_status_unknown_id (self : Store) (id : string) (s : JobStatus)
    (err step : option string) (diag : option Json) (w : World) :
  stored_job id w = None ->
  exists w' : World,
    mark_job_status self id s err step diag w = (Returned false, w') /\
    jobs_file w' = jobs_file w /\
    jobs_backups w' = jobs_backups w /\
    session_file w' = session_file w /\
    session_backups w' = session_backups w /\
    writable w' = writable w /\
    reads w' = reads w.
Proof.
  intros Hnone. unfold stored_job in Hnone.
  unfold mark_job_status, try_except. unfold bind at 1.
  destruct (jobs_file w) as [[state|]|] eqn:E.
  - rewrite (load_jobs_doc _ _ E), Hnone.
    unfold bind, print, modify, ret. simpl.
    eexists. split; [reflexivity|]. simpl. repeat split; exact E.
  - rewrite load_jobs_fallback by (intros st; rewrite E; discriminate).
    unfold bind, print, modify, ret. simpl.
    eexists. split; [reflexivity|]. simpl. repeat split; exact E.
  - rewrite load_jobs_fallback by (intros st; rewrite E; discriminate).
    unfold bind, print, modify, ret. simpl.
    eexists. split; [reflexivity|]. simpl. repeat split; exact E.
Qed.

Lemma stored_job_after_mark (id : string) (w' : World) (now : Z)
    (job' : Job) (state : JobsState) :
  jobs_file w' = Some (Doc (stamp_jobs_metadata now (put_job id job' state))) ->
  stored_job id w' = Some job'.
Proof.
  intros H. unfold stored_job. rewrite H. simpl. apply dict_get_set_eq.
Qed.

(** C3.  For a job in the store (the state directory accepting writes),
    two calls of [mark_job_status(id, IN_PROGRESS)] in succession, whatever
    their optional arguments, both return [True]; the stored [attempts] is
    one more after the first call and two more after the second;
    [start_time] is set by the first call when it was unset (to the clock
    reading of that call) and kept when it was set, and the second call
    leaves it as the first left it.  A call with [COMPLETED], [FAILED] or
    [SKIPPED] sets [end_time] to the clock reading of that call. *)
Theorem mark_in_progress_twice (self : Store) (id : string)
    (err1 step1 err2 step2 : option string) (diag1 diag2 : option Json)
    (w : World) (job : Job) :
  stored_job id w = Some job ->
  writable w = true ->
  (exists (w1 w2 : World) (job1 job2 : Job),
     mark_job_status self id IN_PROGRESS err1 step1 diag1 w = (Returned true, w1) /\
     mark_job_status self id IN_PROGRESS err2 step2 diag2 w1 = (Returned true, w2) /\
     stored_job id w1 = Some job1 /\
     stored_job id w2 = Some job2 /\
     attempts job1 = (attempts job + 1)%Z /\
     attempts job2 = (attempts job + 2)%Z /\
     (start_time job = None -> start_time job1 = Some (clock (S (reads w)))) /\
     (forall t, start_time job = Some t -> start_time job1 = Some t) /\
     start_time job2 = start_time job1 /\
     status job1 = IN_PROGRESS /\ status job2 = IN_PROGRESS) /\
  (forall s, s = COMPLETED \/ s = FAILED \/ s = SKIPPED ->
     exists (w' : World) (job' : Job),
       mark_job_status self id s err1 step1 diag1 w = (Returned true, w') /\
       stored_job id w' = Some job' /\
       status job' = s /\
       end_time job' = Some (clock (S (reads w)))).
Proof.
  intros Hstored Hw. unfold stored_job in Hstored.
  destruct (jobs_file w) as [[state|]|] eqn:Hfile; try discriminate.
  split.
  - destruct (mark_job_status_present self id IN_PROGRESS err1 step1 diag1
                w state job Hfile Hstored Hw)
      as (w1 & job1 & Hrun1 & (now1 & Hfile1) & Hw1 & Hst1 & _ & _ & Hatt1 & Hstart1 & _).
    pose proof (stored_job_after_mark _ _ _ _ _ Hfile1) as Hstored1.
    assert (Hget1 : dict_get id (jobs (stamp_jobs_metadata now1 (put_job id job1 state)))
                    = Some job1) by (simpl; apply dict_get_set_eq).
    destruct (mark_job_status_present self id IN_PROGRESS err2 step2 diag2
                w1 _ job1 Hfile1 Hget1 Hw1)
      as (w2 & job2 & Hrun2 & (now2 & Hfile2) & Hw2 & Hst2 & _ & _ & Hatt2 & Hstart2 & _).
    pose proof (stored_job_after_mark _ _ _ _ _ Hfile2) as Hstored2.
    exists w1, w2, job1, job2.
    repeat split; try assumption.
    + lia.
    + intros Hnone. rewrite Hstart1, Hnone. reflexivity.
    + intros t Ht. rewrite Hstart1, Ht. reflexivity.
    + rewrite Hstart2, Hstart1. reflexivity.
  - intros s Hs.
    destruct (mark_job_status_present self id s err1 step1 diag1
                w state job Hfile Hstored Hw)
      as (w' & job' & Hrun & (now & Hfile') & _ & Hst & _ & _ & _ & _ & Hend & _).
    exists w', job'. split; [exact Hrun|].
    split; [eapply stored_job_after_mark; exact Hfile'|].
    split; [exact Hst|].
    destruct Hs as [->|[->| ->]]; exact Hend.
Qed.

(** ** [add_job] *)

Lemma add_job_saves (self : Store) (id : string) (data : Json)
    (w : World) (state : JobsState) :
  jobs_file w = Some (Doc state) ->
  writable w = true ->
  add_job self id data w
  = (Returned true,
     saved (put_job id (new_job self id data (clock (reads w)) (clock (S (reads w)))) state)
           (tick (tick w))).
Proof.
  intros Hfile Hw. unfold add_job, try_except. unfold bind at 1.
  rewrite (load_jobs_doc _ _ Hfile).
  unfold datetime_now, bind, get, modify, ret. simpl.
  rewrite save_jobs_ok by (simpl; exact Hw). reflexivity.
Qed.

(** C9.  For a job id already in the store (the state directory accepting
    writes), [add_job(id, payload)] returns [True] and replaces the stored
    record by a fresh one: the new payload, status pending, no attempts, no
    start or end time, no diagnostics, no last error, no current step, new
    creation and update times.  Nothing of the old record is kept; the id
    keeps its place and the other records are untouched. *)
Theorem add_job_overwrites (self : Store) (id : string) (data : Json)
    (w : World) (old : Job) :
  stored_job id w = Some old ->
  writable w = true ->
  exists (w' : World) (fresh : Job),
    add_job self id data w = (Returned true, w') /\
    stored_job id w' = Some fresh /\
    fresh = new_job self id data (clock (reads w)) (clock (S (reads w))) /\
    job_data fresh = data /\
    status fresh = PENDING /\
    attempts fresh = 0%Z /\
    start_time fresh = None /\
    end_time fresh = None /\
    diagnostics fresh = [] /\
    last_error fresh = None /\
    current_step fresh = None /\
    created_at fresh = clock (reads w) /\
    updated_at fresh = clock (S (reads w)) /\
    (forall k, k <> id -> stored_job k w' = stored_job k w) /\
    (forall state state', jobs_file w = Some (Doc state) ->
       jobs_file w' = Some (Doc state') ->
       dict_keys (jobs state') = dict_keys (jobs state)).
Proof.
  intros Hstored Hw. unfold stored_job in Hstored.
  destruct (jobs_file w) as [[state|]|] eqn:Hfile; try discriminate.
  eexists _, _. split; [apply (add_job_saves self id data w state Hfile Hw)|].
  split; [rewrite stored_job_saved; simpl; apply dict_get_set_eq|].
  repeat (split; [reflexivity|]).
  split.
  - intros k Hk. rewrite stored_job_saved. simpl.
    unfold stored_job. rewrite Hfile. apply dict_get_set_ne. exact Hk.
  - intros st st' [= <-] Hst'. unfold saved in Hst'. simpl in Hst'.
    injection Hst' as <-. simpl.
    eapply dict_keys_set_present. exact Hstored.
Qed.

(** C7, as the code runs.  When the state directory refuses writes,
    [_save_jobs_state] catches the failure itself and returns normally, so
    [add_job] goes on to [return True]: the caller is told the job was
    added although [jobs.json] is unchanged and does not hold it. *)
Lemma add_job_write_refused (self : Store) (id : string) (data : Json)
    (w : World) (state : JobsState) :
  jobs_file w = Some (Doc state) ->
  writable w = false ->
  exists w' : World,
    add_job self id data w = (Returned true, w') /\
    jobs_file w' = jobs_file w /\
    jobs_backups w' = jobs_backups w.
Proof.
  intros Hfile Hw. unfold add_job, try_except. unfold bind at 1.
  rewrite (load_jobs_doc _ _ Hfile).
  unfold datetime_now, bind at 1 2 3 4 5, get, modify, ret. simpl.
  destruct (save_jobs_refused
              (put_job id (new_job self id data (clock (reads w)) (clock (S (reads w)))) state)
              (tick (tick w)) Hw)
    as (w' & Hsave & Hf & Hb & _).
  unfold bind. rewrite Hsave. exists w'. simpl in *. auto.
Qed.

(** ** [resume_failed_jobs] *)

(** The shape every document written through [add_job] and
    [mark_job_status] has: one record per key (a JSON object read back by
    [json.load]), each carrying its own key as [job_id]. *)
Definition store_wf (state : JobsState) : Prop :=
  NoDup (dict_keys (jobs state)) /\
  forall k j, (k, j) ∈ jobs state -> job_id j = k.

Lemma get_failed_jobs_doc (w : World) (state : JobsState) :
  jobs_file w = Some (Doc state) ->
  get_failed_jobs w = (Returned (List.filter retryable (dict_values (jobs state))), w).
Proof.
  intros H. unfold get_failed_jobs, try_except, bind.
  rewrite (load_jobs_doc _ _ H). reflexivity.
Qed.

Lemma resume_loop_spec (self : Store) :
  forall (failed : list Job) (acc : list string) (w : World) (state : JobsState),
    jobs_file w = Some (Doc state) ->
    writable w = true ->
    NoDup (map job_id failed) ->
    (forall job, job ∈ failed -> dict_get (job_id job) (jobs state) = Some job) ->
    exists (w' : World) (state' : JobsState),
      resume_loop self failed acc w = (Returned (acc ++ map job_id failed)%list, w') /\
      jobs_file w' = Some (Doc state') /\
      writable w' = true /\
      dict_keys (jobs state') = dict_keys (jobs state) /\
      (forall k, k ∉ map job_id failed ->
                 dict_get k (jobs state') = dict_get k (jobs state)) /\
      (forall job, job ∈ failed ->
         exists t, dict_get (job_id job) (jobs state') = Some (set_status PENDING t job)).
Proof.
  induction failed as [|job rest IH]; intros acc w state Hfile Hw Hnd Hget.
  - exists w, state. simpl. rewrite app_nil_r.
    repeat split; auto. intros job Hin. inversion Hin.
  - apply NoDup_cons in Hnd as [Hfresh Hnd].
    assert (Hjob : dict_get (job_id job) (jobs state) = Some job)
      by (apply Hget; apply list_elem_of_here).
    destruct (mark_job_status_present self (job_id job) PENDING None None None
                w state job Hfile Hjob Hw)
      as (w1 & job' & Hrun & (now & Hfile1) & Hw1 & _ & _ & _ & _ & _ & _ & Hjob').
    specialize (Hjob' eq_refl eq_refl eq_refl eq_refl). subst job'.
    set (state1 := stamp_jobs_metadata now
                     (put_job (job_id job) (set_status PENDING (clock (reads w)) job) state))
      in *.
    assert (Hrest : forall j, j ∈ rest -> dict_get (job_id j) (jobs state1) = Some j).
    { intros j Hj. simpl. rewrite dict_get_set_ne.
      - apply Hget. apply list_elem_of_further. exact Hj.
      - intros Heq. apply Hfresh. rewrite <- Heq.
        apply list_elem_of_fmap. exists j. auto. }
    destruct (IH (acc ++ [job_id job])%list (add_stdout "Marked job for retry" w1) state1)
      as (w' & state' & Hloop & Hfile' & Hw' & Hkeys & Hother & Hdone); auto.
    exists w', state'. split; [|split; [|split; [|split; [|split]]]].
    + simpl. unfold bind at 1. rewrite Hrun. unfold bind at 1, print, modify.
      rewrite Hloop. rewrite <- app_assoc. reflexivity.
    + exact Hfile'.
    + exact Hw'.
    + rewrite Hkeys. simpl. eapply dict_keys_set_present. exact Hjob.
    + intros k Hk. simpl in Hk. apply not_elem_of_cons in Hk as [Hne Hk].
      rewrite (Hother k Hk). simpl. apply dict_get_set_ne. exact Hne.
    + intros j Hj. apply elem_of_cons in Hj as [->|Hj].
      * exists (clock (reads w)). rewrite (Hother _ Hfresh). simpl.
        apply dict_get_set_eq.
      * apply Hdone. exact Hj.
Qed.

Lemma store_wf_values (state : JobsState) :
  store_wf state ->
  map job_id (dict_values (jobs state)) = dict_keys (jobs state).
Proof.
  intros [_ Hid]. unfold dict_values, dict_keys.
  induction (jobs state) as [|[k j] d IH]; simpl; [reflexivity|].
  f_equal.
  - apply Hid. apply list_elem_of_here.
  - apply IH. intros k' j' Hin. apply Hid. apply list_elem_of_further. exact Hin.
Qed.

Lemma NoDup_map_filter {A B} (f : A -> B) (p : A -> bool) (l : list A) :
  NoDup (map f l) -> NoDup (map f (List.filter p l)).
Proof.
  induction l as [|a l IH]; simpl; intros H; [constructor|].
  apply NoDup_cons in H as [Hn H].
  destruct (p a); simpl; [|auto].
  apply NoDup_cons. split; [|auto].
  intros Hin. apply Hn. apply list_elem_of_fmap in Hin as (x & -> & Hx).
  apply list_elem_of_fmap. exists x. split; [reflexivity|].
  apply list_elem_of_In. apply list_elem_of_In in Hx.
  apply List.filter_In in Hx. tauto.
Qed.

(** C4.  On a well-formed store (the state directory accepting writes),
    [resume_failed_jobs] returns, in store order, the ids of exactly the
    jobs whose status is failed and whose [attempts] is below
    [max_attempts]; each of them is stored back with status pending and
    otherwise only a new update time; every other job, in particular a
    failed job with [attempts >= max_attempts], is not in the returned list
    and is stored unchanged, so its status remains failed. *)
Theorem resume_failed_jobs_retryable_only (self : Store) (w : World) (state : JobsState) :
  jobs_file w = Some (Doc state) ->
  store_wf state ->
  writable w = true ->
  exists (w' : World) (state' : JobsState) (resumed : list string),
    resume_failed_jobs self w = (Returned resumed, w') /\
    resumed = map job_id (List.filter retryable (dict_values (jobs state))) /\
    jobs_file w' = Some (Doc state') /\
    dict_keys (jobs state') = dict_keys (jobs state) /\
    forall k job, dict_get k (jobs state) = Some job ->
      (status job = FAILED -> (attempts job < max_attempts job)%Z ->
         k ∈ resumed /\
         exists job',
           dict_get k (jobs state') = Some job' /\
           status job' = PENDING /\
           job_id job' = job_id job /\
           job_data job' = job_data job /\
           attempts job' = attempts job /\
           max_attempts job' = max_attempts job /\
           last_error job' = last_error job /\
           diagnostics job' = diagnostics job /\
           start_time job' = start_time job /\
           end_time job' = end_time job /\
           exists t, job' = set_status PENDING t job) /\
      (status job <> FAILED \/ (max_attempts job <= attempts job)%Z ->
         (k ∉ resumed) /\ dict_get k (jobs state') = Some job) /\
      (status job = FAILED -> (max_attempts job <= attempts job)%Z ->
         exists job', dict_get k (jobs state') = Some job' /\ status job' = FAILED).
Proof.
  intros Hfile Hwf Hw.
  pose proof Hwf as [Hnd Hid].
  set (failed := List.filter retryable (dict_values (jobs state))).
  assert (Hin_failed : forall job, job ∈ failed ->
            retryable job = true /\ dict_get (job_id job) (jobs state) = Some job).
  { intros job Hin. apply list_elem_of_In, List.filter_In in Hin as [Hin Hr].
    split; [exact Hr|].
    apply list_elem_of_In in Hin. unfold dict_values in Hin.
    apply list_elem_of_fmap in Hin as ([k j] & -> & Hkj). simpl.
    rewrite (Hid _ _ Hkj). apply dict_elem_get; assumption. }
  destruct (resume_loop_spec self failed [] w state Hfile Hw)
    as (w' & state' & Hloop & Hfile' & _ & Hkeys & Hother & Hdone).
  { subst failed. apply NoDup_map_filter. rewrite store_wf_values; assumption. }
  { intros job Hin. apply Hin_failed. exact Hin. }
  exists w', state', (map job_id failed).
  split; [|split; [reflexivity|split; [exact Hfile'|split; [exact Hkeys|]]]].
  { unfold resume_failed_jobs, try_except, bind.
    rewrite (get_failed_jobs_doc _ _ Hfile). fold failed. rewrite Hloop. reflexivity. }
  intros k job Hget.
  pose proof (dict_get_elem _ _ _ Hget) as Hkj.
  pose proof (Hid _ _ Hkj) as Hk.
  assert (Hyes : retryable job = true -> job ∈ failed).
  { intros Hr. subst failed. apply list_elem_of_In, List.filter_In. split; [|exact Hr].
    apply list_elem_of_In. unfold dict_values. apply list_elem_of_fmap.
    exists (k, job). auto. }
  assert (Hno : retryable job = false -> k ∉ map job_id failed).
  { intros Hr Hin. apply list_elem_of_fmap in Hin as (j & Hj & Hjin).
    destruct (Hin_failed j Hjin) as [Hrj Hgetj]. rewrite <- Hj in Hgetj.
    rewrite Hget in Hgetj. injection Hgetj as ->. congruence. }
  split; [|split].
  - intros Hst Hlt.
    assert (Hr : retryable job = true).
    { unfold retryable. rewrite Hst. simpl. apply Z.ltb_lt. exact Hlt. }
    split.
    + apply list_elem_of_fmap. exists job. auto.
    + destruct (Hdone job (Hyes Hr)) as (t & Ht).
      exists (set_status PENDING t job).
      split; [rewrite <- Hk; exact Ht|].
      do 9 (split; [reflexivity|]). exists t. reflexivity.
  - intros Hcase.
    assert (Hr : retryable job = false).
    { unfold retryable. destruct Hcase as [Hst|Hge].
      - destruct (status job); simpl; congruence.
      - apply andb_false_iff. right. apply Z.ltb_ge. exact Hge. }
    split; [exact (Hno Hr)|]. rewrite (Hother k (Hno Hr)). exact Hget.
  - intros Hst Hge.
    assert (Hr : retryable job = false).
    { unfold retryable. apply andb_false_iff. right. apply Z.ltb_ge. exact Hge. }
    exists job. split; [|exact Hst]. rewrite (Hother k (Hno Hr)). exact Hget.
Qed.

(** *** Well-formedness is kept by every write of the store *)

Lemma dict_set_elem {V} (k k0 : string) (v v0 : V) (d : dict V) :
  (k0, v0) ∈ dict_set k v d -> (k0, v0) = (k, v) \/ (k0, v0) ∈ d.
Proof.
  induction d as [|[k' v'] d IH]; simpl; intros H.
  - apply list_elem_of_singleton in H. auto.
  - destruct (String.eqb k' k).
    + apply elem_of_cons in H as [H|H]; [auto|].
      right. apply list_elem_of_further. exact H.
    + apply elem_of_cons in H as [H|H].
      * right. rewrite H. apply list_elem_of_here.
      * destruct (IH H) as [?|?]; [auto|]. right. apply list_elem_of_further. auto.
Qed.

Lemma dict_set_keys_NoDup {V} (k : string) (v : V) (d : dict V) :
  NoDup (dict_keys d) -> NoDup (dict_keys (dict_set k v d)).
Proof.
  unfold dict_keys. induction d as [|[k' v'] d IH]; simpl; intros H.
  - apply NoDup_singleton.
  - apply NoDup_cons in H as [Hn H].
    destruct (String.eqb k' k) eqn:E; simpl.
    + apply String.eqb_eq in E. subst k'. apply NoDup_cons. auto.
    + apply NoDup_cons. split; [|auto].
      intros Hin. apply list_elem_of_fmap in Hin as ([k0 v0] & Hk & Hin). simpl in Hk.
      subst k0. apply dict_set_elem in Hin as [Heq|Hin].
      * injection Heq as Hkk _. rewrite Hkk, String.eqb_refl in E. discriminate.
      * apply Hn. apply list_elem_of_fmap. exists (k', v0). auto.
Qed.

Lemma put_job_wf (id : string) (job : Job) (state : JobsState) :
  store_wf state -> job_id job = id -> store_wf (put_job id job state).
Proof.
  intros [Hnd Hid] Hjob. split; simpl.
  - apply dict_set_keys_NoDup. exact Hnd.
  - intros k j Hin. apply dict_set_elem in Hin as [[= -> ->]|Hin]; [exact Hjob | auto].
Qed.

Lemma empty_jobs_state_wf : store_wf empty_jobs_state.
Proof. split; simpl; [constructor | intros k j H; inversion H]. Qed.

Lemma add_job_keeps_wf (self : Store) (id : string) (data : Json)
    (w : World) (state : JobsState) :
  jobs_file w = Some (Doc state) -> store_wf state -> writable w = true ->
  exists w' state',
    add_job self id data w = (Returned true, w') /\
    jobs_file w' = Some (Doc state') /\ store_wf state'.
Proof.
  intros Hfile Hwf Hw. eexists _, _.
  split; [apply (add_job_saves self id data w state Hfile Hw)|].
  split; [reflexivity|].
  destruct (put_job_wf id (new_job self id data (clock (reads w)) (clock (S (reads w))))
              state Hwf eq_refl) as [H1 H2].
  split; assumption.
Qed.

Lemma mark_job_status_keeps_wf (self : Store) (id : string) (s : JobStatus)
    (err step : option string) (diag : option Json)
    (w : World) (state : JobsState) (job : Job) :
  jobs_file w = Some (Doc state) -> store_wf state ->
  dict_get id (jobs state) = Some job -> writable w = true ->
  exists w' state',
    mark_job_status self id s err step diag w = (Returned true, w') /\
    jobs_file w' = Some (Doc state') /\ store_wf state'.
Proof.
  intros Hfile Hwf Hget Hw.
  destruct (mark_job_status_present self id s err step diag w state job Hfile Hget Hw)
    as (w' & job' & Hrun & (now & Hfile') & _ & _ & Hid & _).
  exists w', (stamp_jobs_metadata now (put_job id job' state)).
  split; [exact Hrun|]. split; [exact Hfile'|].
  assert (Hjob : job_id job' = id).
  { rewrite Hid. destruct Hwf as [_ H]. apply H. apply dict_get_elem. exact Hget. }
  destruct (put_job_wf id job' state Hwf Hjob) as [H1 H2]. split; assumption.
Qed.

(** ** Session time-to-live *)

Local Open Scope Q_scope.

(** What [_load_session_state] returns: the document, or the empty
    fallback when the file is missing or unreadable. *)
Definition loaded_session (w : World) : SessionState :=
  match session_file w with
  | Some (Doc state) => state
  | _ => empty_session_state
  end.

(** The stored time stamp as [check_session_ttl] reads it: [None] when it
    cannot be parsed (the empty string included). *)
Definition parse_timestamp (s : string) : option Z :=
  if truthy (Some s) then fromisoformat (replace_Z s) else None.


Lemma load_session_spec (w : World) :
  exists w', _load_session_state w = (Returned (loaded_session w), w') /\
             session_file w' = session_file w /\
             session_backups w' = session_backups w /\
             jobs_file w' = jobs_file w /\ jobs_backups w' = jobs_backups w /\
             reads w' = reads w.
Proof.
  unfold _load_session_state, loaded_session, try_except, bind, get, print, modify, ret, raise.
  destruct (session_file w) as [[state|]|] eqn:E; simpl;
    eexists; (split; [reflexivity|]); simpl; repeat split; exact E.
Qed.


(** The [if]/[elif]/[else] chain of [check_session_ttl]. *)
Definition age_status (age max_age : Q) : SessionStatus :=
  if Qgtb age max_age then EXPIRED
  else if Qgtb age (max_age * (8 # 10)) then STALE
  else VALID.

(** What the code computes from the stored time stamp. *)
Definition code_status (last : option string) (now : Z) (max_age : Q) : SessionStatus :=
  match last with
  | None => INVALID
  | Some s =>
      match parse_timestamp s with
      | None => INVALID
      | Some saved => age_status (total_seconds (now - saved)) max_age
      end
  end.

Lemma check_session_ttl_runs (self : Store) (w : World) :
  exists w' : World,
    check_session_ttl self w
    = (Returned (code_status (last_state_saved_at (session (loaded_session w)))
                             (clock (reads w)) (configured_max_age self)), w') /\
    session_file w' = session_file w /\
    session_backups w' = session_backups w /\
    jobs_file w' = jobs_file w /\
    jobs_backups w' = jobs_backups w.
Proof.
  destruct (load_session_spec w) as (w0 & Hload & Hs & Hsb & Hj & Hjb & Hr).
  unfold check_session_ttl, try_except. unfold bind at 1. rewrite Hload.
  unfold code_status, parse_timestamp, age_status.
  destruct (last_state_saved_at (session (loaded_session w))) as [s|] eqn:Elast.
  - destruct (truthy (Some s)) eqn:Etr; simpl.
    + destruct (fromisoformat (replace_Z s)) as [saved|] eqn:Eparse.
      * unfold datetime_now, bind, get, modify, ret. simpl. rewrite Hr.
        destruct (Qgtb _ (configured_max_age self)); simpl;
          [|destruct (Qgtb _ _); simpl];
          (eexists; split; [reflexivity|]; simpl; auto).
      * eexists; split; [reflexivity|]; auto.
    + eexists; split; [reflexivity|]; auto.
  - simpl. eexists; split; [reflexivity|]; auto.
Qed.



(** ** Retry back-off *)










Local Close Scope Q_scope.

(** ** No exception reaches the caller *)

(** [m] ends in every world, with a value or an exception. *)
Definition ends {A} (m : Py A) : Prop := forall w, (m w).1 <> Diverged.

(** [m] returns a value in every world. *)
Definition returns {A} (m : Py A) : Prop :=
  forall w, exists a w', m w = (Returned a, w').

Lemma returns_ends {A} (m : Py A) : returns m -> ends m.
Proof. intros H w. destruct (H w) as (a & w' & ->). discriminate. Qed.

Lemma ends_ret {A} (a : A) : ends (ret a).
Proof. intros w. discriminate. Qed.

Lemma ends_raise {A} (e : Exn) : ends (raise (A:=A) e).
Proof. intros w. discriminate. Qed.

Lemma ends_bind {A B} (m : Py A) (k : A -> Py B) :
  ends m -> (forall a, ends (k a)) -> ends (bind m k).
Proof.
  intros Hm Hk w. unfold bind. specialize (Hm w).
  destruct (m w) as [[a|e|] w1]; simpl in *; [apply Hk | discriminate | congruence].
Qed.

Lemma returns_ret {A} (a : A) : returns (ret a).
Proof. intros w. eexists _, _. reflexivity. Qed.

Lemma returns_get : returns get.
Proof. intros w. eexists _, _. reflexivity. Qed.

Lemma returns_modify (f : World -> World) : returns (modify f).
Proof. intros w. eexists _, _. reflexivity. Qed.

Lemma returns_bind {A B} (m : Py A) (k : A -> Py B) :
  returns m -> (forall a, returns (k a)) -> returns (bind m k).
Proof.
  intros Hm Hk w. unfold bind. destruct (Hm w) as (a & w1 & ->). apply Hk.
Qed.

(** A [try] whose handler returns lets no exception through. *)
Lemma returns_try_except {A} (m : Py A) (h : Exn -> Py A) :
  ends m -> (forall e, returns (h e)) -> returns (try_except m h).
Proof.
  intros Hm Hh w. unfold try_except. specialize (Hm w).
  destruct (m w) as [[a|e|] w1]; simpl in *;
    [eexists _, _; reflexivity | apply Hh | congruence].
Qed.

(** Takes an [ends] or [returns] goal apart along the code. *)
Ltac runs_step :=
  match goal with
  | |- returns (ret _) => apply returns_ret
  | |- returns get => apply returns_get
  | |- returns (modify _) => apply returns_modify
  | |- returns (print _) => apply returns_modify
  | |- returns (bind _ _) => apply returns_bind; [|intros ?]
  | |- returns (try_except _ _) => apply returns_try_except; [|intros ?]
  | |- returns (if ?b then _ else _) => destruct b
  | |- returns (match ?x with _ => _ end) => destruct x
  | |- ends (raise _) => apply ends_raise
  | |- ends (bind _ _) => apply ends_bind; [|intros ?]
  | |- ends (if ?b then _ else _) => destruct b
  | |- ends (match ?x with _ => _ end) => destruct x
  | H : returns ?m |- returns ?m => exact H
  | |- ends _ => apply returns_ends
  end.

Lemma returns_datetime_now : returns datetime_now.
Proof. unfold datetime_now. repeat runs_step. Qed.

Lemma returns_backup_state_file {A} (file : World -> option (Stored A))
    (backups : World -> list (Z * Stored A))
    (set_backups : list (Z * Stored A) -> World -> World) :
  returns (_backup_state_file file backups set_backups).
Proof.
  unfold _backup_state_file.
  repeat first [apply returns_datetime_now | runs_step].
Qed.

Lemma returns_load_jobs_state : returns _load_jobs_state.
Proof. unfold _load_jobs_state. repeat runs_step. Qed.

Lemma returns_save_jobs_state (state : JobsState) : returns (_save_jobs_state state).
Proof.
  unfold _save_jobs_state.
  repeat first [apply returns_datetime_now | apply returns_backup_state_file | runs_step].
Qed.

Lemma returns_load_session_state : returns _load_session_state.
Proof. unfold _load_session_state. repeat runs_step. Qed.

Lemma returns_save_session_state (state : SessionState) :
  returns (_save_session_state state).
Proof.
  unfold _save_session_state.
  repeat first [apply returns_datetime_now | apply returns_backup_state_file | runs_step].
Qed.

Ltac runs_tac :=
  repeat first [ apply returns_datetime_now | apply returns_load_jobs_state
               | apply returns_save_jobs_state | apply returns_load_session_state
               | apply returns_save_session_state | runs_step ].

Lemma returns_mark_job_status (self : Store) (id : string) (s : JobStatus)
    (err step : option string) (diag : option Json) :
  returns (mark_job_status self id s err step diag).
Proof. unfold mark_job_status, status_update. runs_tac. Qed.

Lemma returns_resume_loop (self : Store) (failed : list Job) :
  forall acc, returns (resume_loop self failed acc).
Proof.
  induction failed as [|job rest IH]; intros acc; simpl; [apply returns_ret|].
  apply returns_bind; [apply returns_mark_job_status|].
  intros [|]; [|apply IH].
  apply returns_bind; [apply returns_modify | intros _; apply IH].
Qed.

(** X14.  No call of the store's job and session operations lets an
    exception through or fails to come back: in every state of the files
    (missing, unreadable, read-only directory) [add_job], [mark_job_status],
    [get_job], [get_jobs_by_status], [get_failed_jobs], [resume_failed_jobs],
    [update_session_state] and [check_session_ttl] return a value. *)
Theorem store_operations_return :
  (forall self id data, returns (add_job self id data)) /\
  (forall self id s err step diag, returns (mark_job_status self id s err step diag)) /\
  (forall id, returns (get_job id)) /\
  (forall s, returns (get_jobs_by_status s)) /\
  returns get_failed_jobs /\
  (forall self, returns (resume_failed_jobs self)) /\
  (forall saved_at valid path, returns (update_session_state saved_at valid path)) /\
  (forall self, returns (check_session_ttl self)).
Proof.
  split; [|split; [|split; [|split; [|split; [|split; [|split]]]]]].
  - intros. unfold add_job. runs_tac.
  - intros. apply returns_mark_job_status.
  - intros. unfold get_job. runs_tac.
  - intros. unfold get_jobs_by_status. runs_tac.
  - unfold get_failed_jobs. runs_tac.
  - intros. unfold resume_failed_jobs.
    apply returns_try_except; [|intros ?; runs_tac].
    apply returns_ends, returns_bind; [|intros ?; apply returns_resume_loop].
    unfold get_failed_jobs. runs_tac.
  - intros. unfold update_session_state. runs_tac.
  - intros. unfold check_session_ttl. runs_tac.
Qed.

(** ** [add_job] on a new id, and on a file that cannot be read *)

Lemma dict_keys_set_absent {V} (k : string) (v : V) (d : dict V) :
  dict_get k d = None -> dict_keys (dict_set k v d) = (dict_keys d ++ [k])%list.
Proof.
  unfold dict_keys. induction d as [|[k' v'] d IH]; simpl; [reflexivity|].
  destruct (String.eqb k' k) eqn:E; [discriminate|].
  intros H. simpl. f_equal. exact (IH H).
Qed.

Lemma dict_set_length_absent {V} (k : string) (v : V) (d : dict V) :
  dict_get k d = None -> length (dict_set k v d) = S (length d).
Proof.
  induction d as [|[k' v'] d IH]; simpl; [reflexivity|].
  destruct (String.eqb k' k) eqn:E; [discriminate|].
  intros H. simpl. f_equal. exact (IH H).
Qed.

Lemma get_job_doc (id : string) (w : World) (state : JobsState) :
  jobs_file w = Some (Doc state) ->
  get_job id w = (Returned (dict_get id (jobs state)), w).
Proof.
  intros H. unfold get_job, try_except, bind.
  rewrite (load_jobs_doc _ _ H). reflexivity.
Qed.

(** X15.  [add_job] with an id the store does not hold (the state directory
    accepting writes) returns [True]; the new record goes after all the
    others, which are untouched; the [total_jobs] count written is one more
    than the number of jobs before; and [get_job] on that id then returns the
    record [add_job] built, without writing anything. *)
Theorem add_job_appends (self : Store) (id : string) (data : Json)
    (w : World) (state : JobsState) :
  jobs_file w = Some (Doc state) ->
  dict_get id (jobs state) = None ->
  writable w = true ->
  exists (w' : World) (state' : JobsState),
    let fresh := new_job self id data (clock (reads w)) (clock (S (reads w))) in
    add_job self id data w = (Returned true, w') /\
    jobs_file w' = Some (Doc state') /\
    dict_keys (jobs state') = (dict_keys (jobs state) ++ [id])%list /\
    (forall k, k <> id -> dict_get k (jobs state') = dict_get k (jobs state)) /\
    total_jobs (jobs_metadata state') = Some (S (length (jobs state))) /\
    get_job id w' = (Returned (Some fresh), w').
Proof.
  intros Hfile Hnew Hw.
  eexists _, _. cbv zeta.
  split; [apply (add_job_saves self id data w state Hfile Hw)|].
  split; [reflexivity|].
  split; [simpl; apply dict_keys_set_absent; exact Hnew|].
  split; [intros k Hk; simpl; apply dict_get_set_ne; exact Hk|].
  split; [simpl; f_equal; apply dict_set_length_absent; exact Hnew|].
  erewrite get_job_doc by reflexivity.
  simpl. rewrite dict_get_set_eq. reflexivity.
Qed.

(** X16.  [add_job] on a [jobs.json] that is missing or is not valid JSON
    (the state directory accepting writes) returns [True] and starts over:
    the file written holds the new job and nothing else.  Whatever the
    unreadable file held is no longer in [jobs.json]. *)
Theorem add_job_unreadable_file (self : Store) (id : string) (data : Json) (w : World) :
  (forall state, jobs_file w <> Some (Doc state)) ->
  writable w = true ->
  exists (w' : World) (state' : JobsState),
    add_job self id data w = (Returned true, w') /\
    jobs_file w' = Some (Doc state') /\
    jobs state' = [(id, new_job self id data (clock (reads w)) (clock (S (reads w))))] /\
    total_jobs (jobs_metadata state') = Some 1.
Proof.
  intros Hbad Hw. unfold add_job, try_except. unfold bind at 1.
  rewrite (load_jobs_fallback _ Hbad).
  unfold datetime_now, bind, get, modify, ret. simpl.
  rewrite save_jobs_ok by (simpl; exact Hw).
  eexists _, _. split; [reflexivity|]. repeat split.
Qed.

(** ** [mark_job_status]: what each argument changes *)

(** X17.  [mark_job_status] on a stored job (the state directory accepting
    writes) keeps the job's payload, creation time, [max_attempts] and
    [export_metadata]; sets [updated_at] to the first clock reading of the
    call; replaces [last_error] and [current_step] only when the argument
    is a non-empty string (an empty string or [None] keeps the old value);
    and appends exactly one entry to [diagnostics] when the diagnostics
    argument is truthy, carrying the new status, the step argument and the
    data, and none otherwise: earlier entries are never dropped. *)
Theorem mark_job_status_fields (self : Store) (id : string) (s : JobStatus)
    (err step : option string) (diag : option Json)
    (w : World) (job : Job) :
  stored_job id w = Some job ->
  writable w = true ->
  exists (w' : World) (job' : Job),
    mark_job_status self id s err step diag w = (Returned true, w') /\
    stored_job id w' = Some job' /\
    job_data job' = job_data job /\
    created_at job' = created_at job /\
    max_attempts job' = max_attempts job /\
    export_metadata job' = export_metadata job /\
    updated_at job' = clock (reads w) /\
    last_error job' = (if truthy err then err else last_error job) /\
    current_step job' = (if truthy step then step else current_step job) /\
    match diag with
    | Some d =>
        if json_truthy d then
          exists t, diagnostics job'
                    = (diagnostics job
                       ++ [{| diag_timestamp := t; diag_status := s;
                              diag_step := step; diag_data := d |}])%list
        else diagnostics job' = diagnostics job
    | None => diagnostics job' = diagnostics job
    end.
Proof.
  intros Hstored Hw. unfold stored_job in Hstored.
  destruct (jobs_file w) as [[state|]|] eqn:Hfile; try discriminate.
  unfold mark_job_status, try_except. unfold bind at 1.
  rewrite (load_jobs_doc _ _ Hfile), Hstored.
  unfold datetime_now, status_update.
  destruct s; destruct (start_time job) as [t0|] eqn:Est;
    destruct diag as [d|]; try destruct (json_truthy d) eqn:Ed;
    destruct (truthy err) eqn:Eerr, (truthy step) eqn:Estep;
    unfold bind, get, modify, ret; simpl;
    rewrite ?Est; simpl;
    eexists _, _;
    (split; [rewrite save_jobs_ok by (simpl; exact Hw); reflexivity|]);
    (split; [rewrite stored_job_saved; simpl; apply dict_get_set_eq|]);
    simpl; repeat (split; [reflexivity|]);
    try reflexivity; eexists; reflexivity.
Qed.

(** ** A state directory that refuses writes *)

(** In a world whose state directory refuses writes, [m] returns a value
    satisfying [P] and leaves the four kinds of files as they were. *)
Definition frozen {A} (P : A -> Prop) (m : Py A) : Prop :=
  forall w, writable w = false ->
    exists a w', m w = (Returned a, w') /\ P a /\
      jobs_file w' = jobs_file w /\ jobs_backups w' = jobs_backups w /\
      session_file w' = session_file w /\ session_backups w' = session_backups w /\
      writable w' = false.

Lemma frozen_ret {A} (P : A -> Prop) (a : A) : P a -> frozen P (ret a).
Proof. intros Ha w Hw. exists a, w. repeat split; auto. Qed.

Lemma frozen_bind {A B} (P : B -> Prop) (m : Py A) (k : A -> Py B) :
  frozen (fun _ => True) m -> (forall a, frozen P (k a)) -> frozen P (bind m k).
Proof.
  intros Hm Hk w Hw.
  destruct (Hm w Hw) as (a & w1 & Hrun & _ & Hj & Hjb & Hs & Hsb & Hw1).
  destruct (Hk a w1 Hw1) as (b & w2 & Hrun2 & Hb & Hj2 & Hjb2 & Hs2 & Hsb2 & Hw2).
  exists b, w2. unfold bind. rewrite Hrun, Hrun2.
  repeat split; auto; congruence.
Qed.

Lemma frozen_try_except {A} (P : A -> Prop) (m : Py A) (h : Exn -> Py A) :
  frozen P m -> frozen P (try_except m h).
Proof.
  intros Hm w Hw. destruct (Hm w Hw) as (a & w1 & Hrun & H).
  exists a, w1. unfold try_except. rewrite Hrun. auto.
Qed.

Lemma frozen_print (line : string) : frozen (fun _ => True) (print line).
Proof. intros w Hw. eexists _, _. split; [reflexivity|]. repeat split; auto. Qed.

Lemma frozen_datetime_now : frozen (fun _ => True) datetime_now.
Proof. intros w Hw. eexists _, _. split; [reflexivity|]. repeat split; auto. Qed.

Lemma frozen_load_jobs_state : frozen (fun _ => True) _load_jobs_state.
Proof.
  intros w Hw. unfold _load_jobs_state, try_except, bind, get, print, modify, raise, ret.
  destruct (jobs_file w) as [[state|]|] eqn:E; simpl;
    eexists _, _; (split; [reflexivity|]); simpl; repeat split; auto.
Qed.

Lemma frozen_load_session_state : frozen (fun _ => True) _load_session_state.
Proof.
  intros w Hw. unfold _load_session_state, try_except, bind, get, print, modify, raise, ret.
  destruct (session_file w) as [[state|]|] eqn:E; simpl;
    eexists _, _; (split; [reflexivity|]); simpl; repeat split; auto.
Qed.

Lemma frozen_save_jobs_state (state : JobsState) :
  frozen (fun _ => True) (_save_jobs_state state).
Proof.
  intros w Hw. unfold _save_jobs_state, _backup_state_file.
  unfold try_except, bind, get, datetime_now, bind, get, modify, ret, raise, print, modify.
  destruct (jobs_file w) as [content|] eqn:E;
    repeat (simpl; rewrite ?Hw);
    eexists _, _; (split; [reflexivity|]); simpl; repeat split; auto.
Qed.

Lemma frozen_save_session_state (state : SessionState) :
  frozen (fun _ => True) (_save_session_state state).
Proof.
  intros w Hw. unfold _save_session_state, _backup_state_file.
  unfold try_except, bind, get, datetime_now, bind, get, modify, ret, raise, print, modify.
  destruct (session_file w) as [content|] eqn:E;
    repeat (simpl; rewrite ?Hw);
    eexists _, _; (split; [reflexivity|]); simpl; repeat split; auto.
Qed.

Ltac frozen_tac :=
  repeat first
    [ apply frozen_datetime_now | apply frozen_print
    | apply frozen_load_jobs_state | apply frozen_load_session_state
    | apply frozen_save_jobs_state | apply frozen_save_session_state
    | apply frozen_ret; first [exact I | reflexivity]
    | apply frozen_try_except
    | apply frozen_bind; [|intros ?]
    | match goal with
      | |- frozen _ (if ?b then _ else _) => destruct b
      | |- frozen _ (match ?x with _ => _ end) => destruct x
      end ].

(** [mark_job_status] on a stored job in a directory that refuses writes. *)
Lemma mark_job_status_refused (self : Store) (id : string) (s : JobStatus)
    (err step : option string) (diag : option Json)
    (w : World) (job : Job) :
  stored_job id w = Some job ->
  writable w = false ->
  exists w' : World,
    mark_job_status self id s err step diag w = (Returned true, w') /\
    jobs_file w' = jobs_file w /\
    jobs_backups w' = jobs_backups w /\
    writable w' = false.
Proof.
  intros Hstored Hw.
  assert (Hstored' := Hstored). unfold stored_job in Hstored.
  destruct (jobs_file w) as [[state|]|] eqn:Hfile; try discriminate.
  unfold mark_job_status, try_except. unfold bind at 1.
  rewrite (load_jobs_doc _ _ Hfile), Hstored.
  match goal with
  | |- exists w', match ?m w with _ => _ end = _ /\ _ =>
      assert (Hk : frozen (fun b => b = true) m)
  end.
  { unfold status_update. frozen_tac. }
  destruct (Hk w Hw) as (a & w' & Hrun & -> & Hf & Hb & _ & _ & Hw').
  exists w'. rewrite Hrun. split; [reflexivity|].
  split; [congruence|]. split; [exact Hb | exact Hw'].
Qed.

(** X18.  When the state directory refuses writes, [mark_job_status] on a
    stored job still returns [True], although no file of the store changes:
    the job keeps its old record on disk. *)
Theorem mark_job_status_write_refused (self : Store) (id : string) (s : JobStatus)
    (err step : option string) (diag : option Json)
    (w : World) (job : Job) :
  stored_job id w = Some job ->
  writable w = false ->
  exists w' : World,
    mark_job_status self id s err step diag w = (Returned true, w') /\
    jobs_file w' = jobs_file w /\
    jobs_backups w' = jobs_backups w /\
    stored_job id w' = Some job.
Proof.
  intros Hstored Hw.
  destruct (mark_job_status_refused self id s err step diag w job Hstored Hw)
    as (w' & Hrun & Hf & Hb & _).
  exists w'. split; [exact Hrun|]. split; [exact Hf|]. split; [exact Hb|].
  unfold stored_job in *. rewrite Hf. exact Hstored.
Qed.

(** X19.  When the state directory refuses writes, [add_job] and
    [update_session_state] return [True] whatever their arguments and
    whatever documents the files hold, and leave every file of the store
    as it was: a caller cannot tell a lost update from a stored one. *)
Theorem read_only_updates_report_success (self : Store) (id : string) (data : Json)
    (saved_at path : option string) (valid : bool) (w : World) :
  writable w = false ->
  (exists w', add_job self id data w = (Returned true, w') /\
     jobs_file w' = jobs_file w /\ jobs_backups w' = jobs_backups w /\
     session_file w' = session_file w /\ session_backups w' = session_backups w) /\
  (exists w', update_session_state saved_at valid path w = (Returned true, w') /\
     jobs_file w' = jobs_file w /\ jobs_backups w' = jobs_backups w /\
     session_file w' = session_file w /\ session_backups w' = session_backups w).
Proof.
  intros Hw. split.
  - assert (Hk : frozen (fun b => b = true) (add_job self id data))
      by (unfold add_job; frozen_tac).
    destruct (Hk w Hw) as (a & w' & Hrun & -> & H1 & H2 & H3 & H4 & _).
    exists w'. auto.
  - assert (Hk : frozen (fun b => b = true) (update_session_state saved_at valid path))
      by (unfold update_session_state; frozen_tac).
    destruct (Hk w Hw) as (a & w' & Hrun & -> & H1 & H2 & H3 & H4 & _).
    exists w'. auto.
Qed.

(** ** The backups of [jobs.json] *)

Lemma keep_last_length {A} (n : nat) (l : list A) : length (keep_last n l) <= n.
Proof. unfold keep_last. rewrite length_drop. lia. Qed.

Lemma keep_last_snoc {A} (n : nat) (l : list A) (x : A) :
  last (keep_last (S n) (l ++ [x])%list) = Some x.
Proof.
  unfold keep_last. rewrite length_app. simpl.
  rewrite drop_app_le by lia. apply last_snoc.
Qed.

(** A backup stamped later than all the others goes last. *)
Lemma insert_backup_newest {A} (s : Z) (c : A) (l : list (Z * A)) :
  Forall (fun b => (b.1 < s)%Z) l -> insert_backup s c l = (l ++ [(s, c)])%list.
Proof.
  induction 1 as [|[s0 c0] l H _ IH]; simpl; [reflexivity|]. simpl in H.
  destruct (s <? s0)%Z eqn:E1; [apply Z.ltb_lt in E1; lia|].
  destruct (s =? s0)%Z eqn:E2; [apply Z.eqb_eq in E2; lia|].
  now rewrite IH.
Qed.

(** A backup with the stamp of the latest one takes its place. *)
Lemma insert_backup_same_stamp {A} (s : Z) (c c0 : A) (l : list (Z * A)) :
  Forall (fun b => (b.1 < s)%Z) l ->
  insert_backup s c (l ++ [(s, c0)])%list = (l ++ [(s, c)])%list.
Proof.
  induction 1 as [|[s1 c1] l H _ IH]; simpl.
  - rewrite Z.ltb_irrefl, Z.eqb_refl. reflexivity.
  - simpl in H.
    destruct (s <? s1)%Z eqn:E1; [apply Z.ltb_lt in E1; lia|].
    destruct (s =? s1)%Z eqn:E2; [apply Z.eqb_eq in E2; lia|].
    now rewrite IH.
Qed.

Lemma saved_backups (state : JobsState) (w : World) (content : Stored JobsState) :
  jobs_file w = Some content ->
  jobs_backups (saved state w)
  = keep_last 5 (insert_backup (backup_stamp (clock (reads w))) content (jobs_backups w)).
Proof. intros H. unfold saved, backed_up. rewrite H. reflexivity. Qed.

(** X20.  A save of [jobs.json] over an existing file (the state directory
    accepting writes) leaves at most five backups.  When the clock reading
    of the backup falls in a later second than every backup present, the
    newest backup holds what the file held before the save.  When it falls
    before the oldest of five or more backups (a clock set back), the
    backup just taken is the one that is deleted: the backups are those
    that were there, cut to five, and the previous content is in none of
    them unless it was before. *)
Theorem save_jobs_state_backups (state : JobsState) (w : World)
    (content : Stored JobsState) :
  jobs_file w = Some content ->
  writable w = true ->
  exists w' : World,
    let stamp := backup_stamp (clock (reads w)) in
    _save_jobs_state state w = (Returned tt, w') /\
    length (jobs_backups w') <= 5 /\
    (Forall (fun b => (b.1 < stamp)%Z) (jobs_backups w) ->
       last (jobs_backups w') = Some (stamp, content)) /\
    (forall s c rest, jobs_backups w = (s, c) :: rest -> (stamp < s)%Z ->
       5 <= length (jobs_backups w) ->
       jobs_backups w' = keep_last 5 (jobs_backups w)).
Proof.
  intros Hfile Hw. exists (saved state w). cbv zeta.
  split; [apply save_jobs_ok; exact Hw|].
  rewrite (saved_backups state w content Hfile).
  split; [apply keep_last_length|]. split.
  - intros Hnew. rewrite insert_backup_newest by exact Hnew. apply keep_last_snoc.
  - intros s c rest Hb Hlt Hlen. rewrite Hb in *. simpl insert_backup.
    apply Z.ltb_lt in Hlt. rewrite Hlt.
    unfold keep_last. simpl length in *.
    replace (S (S (length rest)) - 5) with (S (S (length rest) - 5)) by lia.
    reflexivity.
Qed.

(** X21.  Backups are named by the second.  When a save of [jobs.json]
    happens in the same second as the latest backup, that backup is
    overwritten by the content the file has now: what the file held before
    the earlier save of that second is lost from the backups. *)
Theorem save_jobs_state_same_second (state : JobsState) (w : World)
    (content earlier : Stored JobsState) (older : list (Z * Stored JobsState)) :
  jobs_file w = Some content ->
  writable w = true ->
  jobs_backups w = (older ++ [(backup_stamp (clock (reads w)), earlier)])%list ->
  Forall (fun b => (b.1 < backup_stamp (clock (reads w)))%Z) older ->
  exists w' : World,
    _save_jobs_state state w = (Returned tt, w') /\
    jobs_backups w'
    = keep_last 5 (older ++ [(backup_stamp (clock (reads w)), content)])%list /\
    length (jobs_backups w') = Nat.min 5 (length (jobs_backups w)).
Proof.
  intros Hfile Hw Hb Hold. exists (saved state w).
  split; [apply save_jobs_ok; exact Hw|].
  rewrite (saved_backups state w content Hfile), Hb.
  rewrite insert_backup_same_stamp by exact Hold.
  split; [reflexivity|].
  unfold keep_last. rewrite length_drop, !length_app. cbn [length]. lia.
Qed.

(** ** Reading the jobs *)

Lemma JobStatus_eqb_eq (a b : JobStatus) : JobStatus_eqb a b = true <-> a = b.
Proof. destruct a, b; simpl; split; intros H; try reflexivity; discriminate. Qed.

Lemma get_jobs_by_status_doc (s : JobStatus) (w : World) (state : JobsState) :
  jobs_file w = Some (Doc state) ->
  get_jobs_by_status s w
  = (Returned (List.filter (fun job => JobStatus_eqb (status job) s)
                           (dict_values (jobs state))), w).
Proof.
  intros H. unfold get_jobs_by_status, try_except, bind.
  rewrite (load_jobs_doc _ _ H). reflexivity.
Qed.

Lemma filter_status_lengths (l : list Job) :
  let count s := length (List.filter (fun job => JobStatus_eqb (status job) s) l) in
  count PENDING + count IN_PROGRESS + count COMPLETED + count FAILED
    + count SKIPPED + count RETRYING = length l.
Proof.
  cbv zeta. induction l as [|j l IH]; [reflexivity|].
  simpl. destruct (status j); simpl; lia.
Qed.

Lemma filter_retryable (l : list Job) :
  List.filter retryable l
  = List.filter (fun job => (attempts job <? max_attempts job)%Z)
      (List.filter (fun job => JobStatus_eqb (status job) FAILED) l).
Proof.
  induction l as [|j l IH]; [reflexivity|].
  simpl. unfold retryable at 1.
  destruct (JobStatus_eqb (status j) FAILED); simpl;
    [destruct (attempts j <? max_attempts j)%Z; simpl; now rewrite IH | exact IH].
Qed.

(** X22.  On a readable [jobs.json] the reading operations change nothing,
    and [get_jobs_by_status] splits the jobs by status: a job is in the
    list for [s] exactly when it is stored with status [s]; the six lists
    together have as many entries as the store has jobs; and
    [get_failed_jobs] is the list for [FAILED] without the jobs that have
    used up their attempts, in the same order. *)
Theorem get_jobs_by_status_partition (w : World) (state : JobsState) :
  jobs_file w = Some (Doc state) ->
  exists by_status : JobStatus -> list Job,
    (forall s, get_jobs_by_status s w = (Returned (by_status s), w)) /\
    (forall s job, job ∈ by_status s <-> job ∈ dict_values (jobs state) /\ status job = s) /\
    length (by_status PENDING) + length (by_status IN_PROGRESS)
      + length (by_status COMPLETED) + length (by_status FAILED)
      + length (by_status SKIPPED) + length (by_status RETRYING)
      = length (jobs state) /\
    get_pending_jobs w = (Returned (by_status PENDING), w) /\
    get_failed_jobs w
    = (Returned (List.filter (fun job => (attempts job <? max_attempts job)%Z)
                             (by_status FAILED)), w).
Proof.
  intros Hfile.
  exists (fun s => List.filter (fun job => JobStatus_eqb (status job) s)
                               (dict_values (jobs state))).
  split; [intros s; apply get_jobs_by_status_doc; exact Hfile|].
  split.
  { intros s job. rewrite !list_elem_of_In, List.filter_In, JobStatus_eqb_eq.
    reflexivity. }
  split.
  { rewrite (filter_status_lengths (dict_values (jobs state))).
    unfold dict_values. apply length_map. }
  split; [apply get_jobs_by_status_doc; exact Hfile|].
  rewrite (get_failed_jobs_doc _ _ Hfile), filter_retryable. reflexivity.
Qed.

(** ** Updating the session, then checking it *)

Lemma bind_run {A B} (m : Py A) (k : A -> Py B) (w w1 : World) (a : A) :
  m w = (Returned a, w1) -> bind m k w = k a w1.
Proof. intros H. unfold bind. now rewrite H. Qed.

Lemma load_session_keeps (w : World) :
  exists w', _load_session_state w = (Returned (loaded_session w), w') /\
             session_file w' = session_file w /\
             jobs_file w' = jobs_file w /\ jobs_backups w' = jobs_backups w /\
             writable w' = writable w /\ reads w' = reads w.
Proof.
  unfold _load_session_state, loaded_session, try_except, bind, get, print, modify, ret, raise.
  destruct (session_file w) as [[state|]|] eqn:E; simpl;
    eexists; (split; [reflexivity|]); simpl; repeat split; exact E.
Qed.

Lemma save_session_ok (state : SessionState) (w : World) :
  writable w = true ->
  exists w' now,
    _save_session_state state w = (Returned tt, w') /\
    session_file w'
    = Some (Doc {| session_last_updated := Some now; session := session state |}) /\
    jobs_file w' = jobs_file w /\ jobs_backups w' = jobs_backups w /\
    writable w' = true.
Proof.
  intros Hw. unfold _save_session_state, _backup_state_file.
  unfold try_except, bind, get, datetime_now, bind, get, modify, ret.
  destruct (session_file w) as [content|] eqn:E;
    repeat (simpl; rewrite ?Hw);
    eexists _, _; (split; [reflexivity|]); simpl; repeat split; auto.
Qed.

(** X23.  [update_session_state] (the state directory accepting writes)
    returns [True] and leaves the jobs file alone.  The stored
    [last_state_saved_at] is replaced only by a non-empty argument: a call
    without one (a mere validation) keeps the old stamp, however often it
    is made.  [login_count] grows by one exactly when the session is
    reported valid, counting from 0 when the file had none.  A following
    [check_session_ttl] judges by the stamp that is stored now. *)
Theorem update_session_state_then_ttl (self : Store)
    (saved_at path : option string) (valid : bool) (w : World) :
  writable w = true ->
  exists (w1 : World) (st1 : SessionState),
    let old := session (loaded_session w) in
    update_session_state saved_at valid path w = (Returned true, w1) /\
    session_file w1 = Some (Doc st1) /\
    jobs_file w1 = jobs_file w /\
    jobs_backups w1 = jobs_backups w /\
    last_state_saved_at (session st1)
    = (if truthy saved_at then saved_at else last_state_saved_at old) /\
    session_valid (session st1) = Some valid /\
    login_count (session st1)
    = (if valid then Some (default 0 (login_count old) + 1)%Z else login_count old) /\
    exists w2,
      check_session_ttl self w1
      = (Returned (code_status
                     (if truthy saved_at then saved_at else last_state_saved_at old)
                     (clock (reads w1)) (configured_max_age self)), w2).
Proof.
  intros Hw.
  destruct (load_session_keeps w) as (w0 & Hload & _ & Hj0 & Hjb0 & Hw0 & _).
  unfold update_session_state, try_except.
  rewrite (bind_run _ _ _ _ _ Hload).
  assert (Hnow : datetime_now w0 = (Returned (clock (reads w0)), tick w0)) by reflexivity.
  rewrite (bind_run _ _ _ _ _ Hnow).
  match goal with
  | |- context [bind (_save_session_state ?st) _ _] =>
      destruct (save_session_ok st (tick w0)) as (w1 & now & Hsave & Hfile & Hj1 & Hjb1 & _);
        [simpl; congruence|];
        rewrite (bind_run _ _ _ _ _ Hsave)
  end.
  eexists w1, _. cbv zeta. unfold ret.
  split; [reflexivity|]. split; [exact Hfile|].
  split; [simpl in Hj1; congruence|]. split; [simpl in Hjb1; congruence|].
  do 3 (split; [reflexivity|]).
  destruct (check_session_ttl_runs self w1) as (w2 & Hrun & _).
  exists w2. rewrite Hrun. unfold loaded_session. rewrite Hfile. reflexivity.
Qed.

(** ** Retry back-off: the failing case and the ceiling *)

Local Open Scope Q_scope.


Local Close Scope Q_scope.

(** ** [get_job_statistics] *)

(** The dictionary [get_job_statistics] returns. *)
Record JobStatistics : Type := {
  stats_total_jobs : nat;
  stats_by_status : JobStatus -> nat;
  stats_jobs_with_retries : nat;
  stats_total_attempts : Z;
  stats_max_attempts_reached : nat;
  stats_average_duration : option Q;
  stats_completed_jobs : nat
}.

(** What the loop over the jobs carries along: the counters of [stats],
    [total_duration] and [completed_count]. *)
Record Tally : Type := {
  t_by_status : JobStatus -> nat;
  t_with_retries : nat;
  t_attempts : Z;
  t_reached : nat;
  t_total_duration : Q;
  t_completed_count : nat
}.

Definition empty_tally : Tally :=
  {| t_by_status := fun _ => 0; t_with_retries := 0; t_attempts := 0%Z;
     t_reached := 0; t_total_duration := 0%Q; t_completed_count := 0 |}.

(** The duration of a completed job that has both its times. *)
Definition timed_duration (job : Job) : option Q :=
  if JobStatus_eqb (status job) COMPLETED then
    match start_time job, end_time job with
    | Some start_dt, Some end_dt => Some (total_seconds (end_dt - start_dt))
    | _, _ => None
    end
  else None.

(** One turn of [for job in jobs.values()]. *)
Definition count_job (t : Tally) (job : Job) : Tally :=
  {| t_by_status :=
       fun s => if JobStatus_eqb s (status job) then S (t_by_status t s)
                else t_by_status t s;
     t_with_retries :=
       if (1 <? attempts job)%Z then S (t_with_retries t) else t_with_retries t;
     t_attempts := (t_attempts t + attempts job)%Z;
     t_reached :=
       if (max_attempts job <=? attempts job)%Z && JobStatus_eqb (status job) FAILED
       then S (t_reached t) else t_reached t;
     t_total_duration :=
       match timed_duration job with
       | Some d => (t_total_duration t + d)%Q
       | None => t_total_duration t
       end;
     t_completed_count :=
       match timed_duration job with
       | Some _ => S (t_completed_count t)
       | None => t_completed_count t
       end |}.

(** [get_job_statistics] *)
Definition get_job_statistics : Py (option JobStatistics) :=
  try_except
    (state <- _load_jobs_state ;;
     let t := fold_left count_job (dict_values (jobs state)) empty_tally in
     ret (Some
            {| stats_total_jobs := length (jobs state);
               stats_by_status := t_by_status t;
               stats_jobs_with_retries := t_with_retries t;
               stats_total_attempts := t_attempts t;
               stats_max_attempts_reached := t_reached t;
               stats_average_duration :=
                 if Nat.ltb 0 (t_completed_count t)
                 then Some (t_total_duration t
                            / inject_Z (Z.of_nat (t_completed_count t)))%Q
                 else None;
               stats_completed_jobs :=
                 if Nat.ltb 0 (t_completed_count t) then t_completed_count t else 0 |}))
    (fun _ => print "Error getting job statistics" ;;; ret None).

Definition is_timed (job : Job) : bool :=
  match timed_duration job with Some _ => true | None => false end.

Definition reached_limit (job : Job) : bool :=
  (max_attempts job <=? attempts job)%Z && JobStatus_eqb (status job) FAILED.

(** The counters after the loop, in terms of the list of jobs. *)
Lemma tally_spec (l : list Job) :
  forall t : Tally,
    let r := fold_left count_job l t in
    (forall s, t_by_status r s
               = t_by_status t s
                 + length (List.filter (fun job => JobStatus_eqb (status job) s) l)) /\
    t_with_retries r <= t_with_retries t + length l /\
    t_reached r = t_reached t + length (List.filter reached_limit l) /\
    t_completed_count r = t_completed_count t + length (List.filter is_timed l).
Proof.
  induction l as [|j l IH]; intros t; cbv zeta; simpl.
  - repeat split; intros; lia.
  - destruct (IH (count_job t j)) as (Hs & Hr & Hm & Hc). cbv zeta in *.
    split; [|split; [|split]].
    + intros s. rewrite Hs. simpl.
      destruct (status j), s; simpl; lia.
    + etransitivity; [exact Hr|]. simpl.
      destruct (1 <? attempts j)%Z; lia.
    + rewrite Hm. simpl. fold (reached_limit j).
      destruct (reached_limit j); simpl; lia.
    + rewrite Hc. simpl. unfold is_timed at 2.
      destruct (timed_duration j); simpl; lia.
Qed.

Lemma reached_or_retryable (l : list Job) :
  length (List.filter reached_limit l) + length (List.filter retryable l)
  = length (List.filter (fun job => JobStatus_eqb (status job) FAILED) l).
Proof.
  induction l as [|j l IH]; [reflexivity|].
  simpl. unfold reached_limit at 1, retryable at 1.
  rewrite (Z.ltb_antisym (max_attempts j) (attempts j)).
  destruct (JobStatus_eqb (status j) FAILED), (max_attempts j <=? attempts j)%Z;
    simpl; lia.
Qed.

Lemma timed_completed (l : list Job) :
  length (List.filter is_timed l)
  <= length (List.filter (fun job => JobStatus_eqb (status job) COMPLETED) l).
Proof.
  induction l as [|j l IH]; [reflexivity|].
  simpl. unfold is_timed at 1, timed_duration.
  destruct (JobStatus_eqb (status j) COMPLETED); [|exact IH].
  destruct (start_time j), (end_time j); simpl; lia.
Qed.

(** X25.  On a readable [jobs.json], [get_job_statistics] writes nothing
    and returns counts that fit together and fit the other readers: the
    six status counts add up to [total_jobs], the number of stored jobs;
    [max_attempts_reached] and the length of what [get_failed_jobs] returns
    add up to the count of failed jobs (a failed job is either exhausted
    or retryable); [completed_jobs] counts only the completed jobs that
    have both a start and an end time, so it is at most the count of
    completed jobs; [average_duration] is [None] exactly when
    [completed_jobs] is 0; and [jobs_with_retries] is at most
    [total_jobs]. *)
Theorem get_job_statistics_consistent (w : World) (state : JobsState) :
  jobs_file w = Some (Doc state) ->
  exists (stats : JobStatistics) (failed : list Job),
    get_job_statistics w = (Returned (Some stats), w) /\
    get_failed_jobs w = (Returned failed, w) /\
    stats_total_jobs stats = length (jobs state) /\
    stats_by_status stats PENDING + stats_by_status stats IN_PROGRESS
      + stats_by_status stats COMPLETED + stats_by_status stats FAILED
      + stats_by_status stats SKIPPED + stats_by_status stats RETRYING
      = stats_total_jobs stats /\
    stats_max_attempts_reached stats + length failed = stats_by_status stats FAILED /\
    stats_completed_jobs stats <= stats_by_status stats COMPLETED /\
    (stats_average_duration stats = None <-> stats_completed_jobs stats = 0) /\
    stats_jobs_with_retries stats <= stats_total_jobs stats.
Proof.
  intros Hfile.
  unfold get_job_statistics, try_except.
  rewrite (bind_run _ _ _ _ _ (load_jobs_doc _ _ Hfile)). unfold ret.
  eexists _, _. split; [reflexivity|].
  split; [apply get_failed_jobs_doc; exact Hfile|].
  destruct (tally_spec (dict_values (jobs state)) empty_tally) as (Hs & Hr & Hm & Hc).
  cbv zeta in *. cbn [stats_total_jobs stats_by_status stats_jobs_with_retries
                      stats_max_attempts_reached stats_average_duration
                      stats_completed_jobs].
  assert (Hlen : length (dict_values (jobs state)) = length (jobs state))
    by (unfold dict_values; apply length_map).
  split; [reflexivity|].
  split.
  { rewrite !Hs. simpl. rewrite <- Hlen.
    apply (filter_status_lengths (dict_values (jobs state))). }
  split.
  { rewrite Hm, Hs. simpl. apply reached_or_retryable. }
  split.
  { rewrite Hs. simpl.
    pose proof (timed_completed (dict_values (jobs state))) as Ht.
    rewrite Hc. simpl.
    destruct (Nat.ltb 0 _) eqn:E; lia. }
  split.
  { destruct (Nat.ltb 0 _) eqn:E.
    - apply Nat.ltb_lt in E. split; [discriminate | lia].
    - split; reflexivity. }
  simpl in Hr. lia.
Qed.

(** X26.  On a [jobs.json] that is missing or cannot be parsed,
    [get_job_statistics] does not report the failure: it returns the
    statistics of an empty store, every count 0 and no average, and
    [get_job] finds no job under any id. *)
Theorem get_job_statistics_unreadable (id : string) (w : World) :
  (forall state, jobs_file w <> Some (Doc state)) ->
  exists (stats : JobStatistics) (w1 w2 : World),
    get_job_statistics w = (Returned (Some stats), w1) /\
    stats_total_jobs stats = 0 /\
    (forall s, stats_by_status stats s = 0) /\
    stats_jobs_with_retries stats = 0 /\
    stats_total_attempts stats = 0%Z /\
    stats_max_attempts_reached stats = 0 /\
    stats_average_duration stats = None /\
    stats_completed_jobs stats = 0 /\
    get_job id w = (Returned None, w2) /\
    jobs_file w1 = jobs_file w /\ jobs_file w2 = jobs_file w.
Proof.
  intros Hbad.
  unfold get_job_statistics, get_job, try_except.
  rewrite !(bind_run _ _ _ _ _ (load_jobs_fallback _ Hbad)). unfold ret.
  eexists _, _, _. split; [reflexivity|].
  repeat split.
Qed.

(** ** Every document the store writes is well formed *)

(** A world whose [jobs.json], when it can be read, is well formed. *)
Definition wf_world (w : World) : Prop :=
  forall state, jobs_file w = Some (Doc state) -> store_wf state.

(** [m] keeps [jobs.json] well formed, however it ends, and what it
    returns satisfies [P]. *)
Definition preserves {A} (P : A -> Prop) (m : Py A) : Prop :=
  forall w r w', wf_world w -> m w = (r, w') ->
    wf_world w' /\ forall a, r = Returned a -> P a.

Lemma preserves_ret {A} (P : A -> Prop) (a : A) : P a -> preserves P (ret a).
Proof. intros Ha w r w' Hwf [= <- <-]. split; [exact Hwf | intros ? [= <-]; exact Ha]. Qed.

Lemma preserves_raise {A} (P : A -> Prop) (e : Exn) : preserves P (raise e).
Proof. intros w r w' Hwf [= <- <-]. split; [exact Hwf | discriminate]. Qed.

Lemma preserves_bind {A B} (Q : A -> Prop) (P : B -> Prop) (m : Py A) (k : A -> Py B) :
  preserves Q m -> (forall a, Q a -> preserves P (k a)) -> preserves P (bind m k).
Proof.
  intros Hm Hk w r w' Hwf. unfold bind.
  destruct (m w) as [[a|e|] w1] eqn:E; destruct (Hm w _ _ Hwf E) as [Hwf1 Hq].
  - apply (Hk a (Hq a eq_refl)). exact Hwf1.
  - intros [= <- <-]. split; [exact Hwf1 | discriminate].
  - intros [= <- <-]. split; [exact Hwf1 | discriminate].
Qed.

Lemma preserves_try_except {A} (P : A -> Prop) (m : Py A) (h : Exn -> Py A) :
  preserves P m -> (forall e, preserves P (h e)) -> preserves P (try_except m h).
Proof.
  intros Hm Hh w r w' Hwf. unfold try_except.
  destruct (m w) as [[a|e|] w1] eqn:E; destruct (Hm w _ _ Hwf E) as [Hwf1 Hp].
  - intros [= <- <-]. split; [exact Hwf1 | exact Hp].
  - apply Hh. exact Hwf1.
  - intros [= <- <-]. split; [exact Hwf1 | discriminate].
Qed.

Lemma preserves_weaken {A} (P Q : A -> Prop) (m : Py A) :
  (forall a, P a -> Q a) -> preserves P m -> preserves Q m.
Proof.
  intros H Hm w r w' Hwf E. destruct (Hm w r w' Hwf E) as [Hwf' Hp].
  split; [exact Hwf' | intros a Ha; apply H, Hp, Ha].
Qed.

(** A change of the world that leaves [jobs.json] alone. *)
Lemma preserves_modify (f : World -> World) :
  (forall w, jobs_file (f w) = jobs_file w) -> preserves (fun _ => True) (modify f).
Proof.
  intros Hf w r w' Hwf [= <- <-]. split; [|auto].
  intros state. rewrite Hf. apply Hwf.
Qed.

Lemma preserves_print (line : string) : preserves (fun _ => True) (print line).
Proof. apply preserves_modify. reflexivity. Qed.

Lemma preserves_datetime_now : preserves (fun _ => True) datetime_now.
Proof.
  intros w r w' Hwf [= <- <-]. split; [|auto]. exact Hwf.
Qed.

Lemma preserves_load_jobs_state : preserves store_wf _load_jobs_state.
Proof.
  intros w r w' Hwf.
  unfold _load_jobs_state, try_except, bind, get, print, modify, raise, ret.
  destruct (jobs_file w) as [[state|]|] eqn:E; simpl; intros [= <- <-].
  - split; [exact Hwf | intros a [= <-]; apply Hwf, E].
  - split; [|intros a [= <-]; apply empty_jobs_state_wf].
    intros st. simpl. rewrite E. discriminate.
  - split; [|intros a [= <-]; apply empty_jobs_state_wf].
    intros st. simpl. rewrite E. discriminate.
Qed.

Lemma preserves_backup_jobs :
  preserves (fun _ => True) (_backup_state_file jobs_file jobs_backups set_jobs_backups).
Proof.
  intros w r w' Hwf.
  unfold _backup_state_file, try_except, bind, get, datetime_now, bind, get,
    modify, ret, raise, print, modify.
  destruct (jobs_file w) as [content|] eqn:E; simpl;
    [destruct (writable w); simpl|];
    intros [= <- <-]; (split; [|auto]);
    intros st; simpl; rewrite ?E; intros H; apply Hwf; rewrite E; exact H.
Qed.

Lemma preserves_save_jobs_state (state : JobsState) :
  store_wf state -> preserves (fun _ => True) (_save_jobs_state state).
Proof.
  intros Hstate. unfold _save_jobs_state.
  apply preserves_try_except; [|intros e; apply preserves_print].
  apply (preserves_bind (fun _ => True)); [apply preserves_backup_jobs|]. intros _ _.
  apply (preserves_bind (fun _ => True)); [apply preserves_datetime_now|]. intros now _.
  intros w r w' Hwf. unfold bind, get, modify, raise.
  destruct (writable w); intros [= <- <-]; (split; [|auto]); [|exact Hwf].
  intros st. simpl. intros [= <-]. exact Hstate.
Qed.

Lemma preserves_add_job (self : Store) (id : string) (data : Json) :
  preserves (fun _ => True) (add_job self id data).
Proof.
  unfold add_job.
  apply preserves_try_except;
    [|intros e; apply (preserves_bind (fun _ => True));
        [apply preserves_print | intros; apply preserves_ret; exact I]].
  apply (preserves_bind store_wf); [apply preserves_load_jobs_state|]. intros state Hstate.
  apply (preserves_bind (fun _ => True)); [apply preserves_datetime_now|]. intros created _.
  apply (preserves_bind (fun _ => True)); [apply preserves_datetime_now|]. intros updated _.
  apply (preserves_bind (fun _ => True)); [|intros; apply preserves_ret; exact I].
  apply preserves_save_jobs_state. apply put_job_wf; [exact Hstate | reflexivity].
Qed.

Lemma preserves_status_update (s : JobStatus) (job : Job) :
  preserves (fun job' => job_id job' = job_id job) (status_update s job).
Proof.
  unfold status_update.
  destruct s; try destruct (start_time job);
    repeat first
      [ apply preserves_ret; reflexivity
      | apply (preserves_bind (fun job' => job_id job' = job_id job));
          [|intros ? <-]
      | apply (preserves_bind (fun _ => True)); [apply preserves_datetime_now|intros ? _] ].
Qed.

Lemma preserves_mark_job_status (self : Store) (id : string) (s : JobStatus)
    (err step : option string) (diag : option Json) :
  preserves (fun _ => True) (mark_job_status self id s err step diag).
Proof.
  unfold mark_job_status.
  apply preserves_try_except;
    [|intros e; apply (preserves_bind (fun _ => True));
        [apply preserves_print | intros; apply preserves_ret; exact I]].
  apply (preserves_bind store_wf); [apply preserves_load_jobs_state|]. intros state Hstate.
  destruct (dict_get id (jobs state)) as [job|] eqn:Hget;
    [|apply (preserves_bind (fun _ => True));
        [apply preserves_print | intros; apply preserves_ret; exact I]].
  assert (Hid : job_id job = id).
  { destruct Hstate as [_ H]. apply H, dict_get_elem, Hget. }
  apply (preserves_bind (fun _ => True)); [apply preserves_datetime_now|]. intros now _.
  apply (preserves_bind (fun job' => job_id job' = id)).
  { eapply preserves_weaken; [|apply preserves_status_update].
    intros job' ->. destruct (truthy err), (truthy step); exact Hid. }
  intros job1 Hid1.
  apply (preserves_bind (fun job' => job_id job' = id)).
  { destruct diag as [d|]; [destruct (json_truthy d)|];
      try (apply preserves_ret; exact Hid1).
    apply (preserves_bind (fun _ => True)); [apply preserves_datetime_now|].
    intros t _. apply preserves_ret. exact Hid1. }
  intros job2 Hid2.
  apply (preserves_bind (fun _ => True)); [|intros; apply preserves_ret; exact I].
  apply preserves_save_jobs_state. apply put_job_wf; assumption.
Qed.

Lemma preserves_resume_loop (self : Store) (failed : list Job) :
  forall acc, preserves (fun _ => True) (resume_loop self failed acc).
Proof.
  induction failed as [|job rest IH]; intros acc; simpl;
    [apply preserves_ret; exact I|].
  apply (preserves_bind (fun _ => True)); [apply preserves_mark_job_status|].
  intros [|] _; [|apply IH].
  apply (preserves_bind (fun _ => True)); [apply preserves_print | intros _ _; apply IH].
Qed.

(** X27.  Well-formedness of [jobs.json] (one record per key, each record
    carrying its key as [job_id]) is an invariant of the store: from a
    world whose jobs file is well formed or unreadable, [add_job],
    [mark_job_status] and [resume_failed_jobs] leave a jobs file that is
    well formed or unreadable, whatever their arguments, whether or not
    the directory accepts writes and however the call ends. *)
Theorem store_wf_invariant (w : World) :
  wf_world w ->
  (forall self id data r w', add_job self id data w = (r, w') -> wf_world w') /\
  (forall self id s err step diag r w',
     mark_job_status self id s err step diag w = (r, w') -> wf_world w') /\
  (forall self r w', resume_failed_jobs self w = (r, w') -> wf_world w').
Proof.
  intros Hwf. split; [|split].
  - intros self id data r w' E.
    exact (proj1 (preserves_add_job self id data w r w' Hwf E)).
  - intros self id s err step diag r w' E.
    exact (proj1 (preserves_mark_job_status self id s err step diag w r w' Hwf E)).
  - intros self r w' E.
    assert (H : preserves (fun _ => True) (resume_failed_jobs self)).
    { unfold resume_failed_jobs.
      apply preserves_try_except;
        [|intros e; apply (preserves_bind (fun _ => True));
            [apply preserves_print | intros; apply preserves_ret; exact I]].
      apply (preserves_bind (fun _ => True)); [|intros; apply preserves_resume_loop].
      unfold get_failed_jobs.
      apply preserves_try_except;
        [|intros e; apply (preserves_bind (fun _ => True));
            [apply preserves_print | intros; apply preserves_ret; exact I]].
      apply (preserves_bind store_wf); [apply preserves_load_jobs_state|].
      intros; apply preserves_ret; exact I. }
    exact (proj1 (H w r w' Hwf E)).
Qed.

(** ** [resume_failed_jobs] in a directory that refuses writes *)

Lemma resume_loop_refused (self : Store) (state : JobsState) :
  forall (failed : list Job) (acc : list string) (w : World),
    jobs_file w = Some (Doc state) ->
    writable w = false ->
    (forall job, job ∈ failed -> is_Some (dict_get (job_id job) (jobs state))) ->
    exists w' : World,
      resume_loop self failed acc w = (Returned (acc ++ map job_id failed)%list, w') /\
      jobs_file w' = Some (Doc state) /\
      jobs_backups w' = jobs_backups w /\
      writable w' = false.
Proof.
  induction failed as [|job rest IH]; intros acc w Hfile Hw Hin; simpl.
  - exists w. rewrite app_nil_r. auto.
  - destruct (Hin job) as [j Hj]; [apply list_elem_of_here|].
    destruct (mark_job_status_refused self (job_id job) PENDING None None None w j)
      as (w1 & Hrun & Hf1 & Hb1 & Hw1);
      [unfold stored_job; rewrite Hfile; exact Hj | exact Hw |].
    destruct (IH (acc ++ [job_id job])%list (add_stdout "Marked job for retry" w1))
      as (w' & Hloop & Hf' & Hb' & Hw').
    + simpl. congruence.
    + exact Hw1.
    + intros job' H'. apply Hin, list_elem_of_further, H'.
    + exists w'. rewrite (bind_run _ _ _ _ _ Hrun).
      unfold bind at 1, print, modify. rewrite Hloop, <- app_assoc.
      split; [reflexivity|]. split; [exact Hf'|].
      split; [simpl in Hb'; congruence | exact Hw'].
Qed.

(** X28.  When the state directory refuses writes, [resume_failed_jobs] on
    a well-formed store still reports every retryable failed job as
    resumed, although [jobs.json] is unchanged and the jobs are still
    failed on disk; a second call reports the very same list again. *)
Theorem resume_failed_jobs_write_refused (self : Store) (w : World)
    (state : JobsState) :
  jobs_file w = Some (Doc state) ->
  store_wf state ->
  writable w = false ->
  exists (w1 w2 : World) (resumed : list string),
    resume_failed_jobs self w = (Returned resumed, w1) /\
    resumed = map job_id (List.filter retryable (dict_values (jobs state))) /\
    jobs_file w1 = jobs_file w /\
    jobs_backups w1 = jobs_backups w /\
    resume_failed_jobs self w1 = (Returned resumed, w2) /\
    (forall k job, dict_get k (jobs state) = Some job -> status job = FAILED ->
       (attempts job < max_attempts job)%Z ->
       k ∈ resumed /\ stored_job k w2 = Some job).
Proof.
  intros Hfile [Hnd Hid] Hw.
  set (failed := List.filter retryable (dict_values (jobs state))).
  assert (Hin : forall job, job ∈ failed -> is_Some (dict_get (job_id job) (jobs state))).
  { intros job H. apply list_elem_of_In, List.filter_In in H as [H _].
    apply list_elem_of_In in H. unfold dict_values in H.
    apply list_elem_of_fmap in H as ([k j] & -> & Hkj). simpl.
    rewrite (Hid _ _ Hkj). exists j. apply dict_elem_get; assumption. }
  assert (Hrun : forall w0, jobs_file w0 = Some (Doc state) -> writable w0 = false ->
            exists w', resume_failed_jobs self w0 = (Returned (map job_id failed), w') /\
                       jobs_file w' = Some (Doc state) /\
                       jobs_backups w' = jobs_backups w0 /\ writable w' = false).
  { intros w0 Hf0 Hw0.
    destruct (resume_loop_refused self state failed [] w0 Hf0 Hw0 Hin)
      as (w' & Hloop & H').
    exists w'. split; [|exact H'].
    unfold resume_failed_jobs, try_except.
    rewrite (bind_run _ _ _ _ _ (get_failed_jobs_doc _ _ Hf0)).
    fold failed. rewrite Hloop. reflexivity. }
  destruct (Hrun w Hfile Hw) as (w1 & Hrun1 & Hf1 & Hb1 & Hw1).
  destruct (Hrun w1 Hf1 Hw1) as (w2 & Hrun2 & Hf2 & _).
  exists w1, w2, (map job_id failed).
  split; [exact Hrun1|]. split; [reflexivity|].
  split; [congruence|]. split; [exact Hb1|]. split; [exact Hrun2|].
  intros k job Hget Hst Hlt. split.
  - apply list_elem_of_fmap. exists job. split.
    + symmetry. apply Hid, dict_get_elem, Hget.
    + apply list_elem_of_In, List.filter_In. split.
      * apply list_elem_of_In. unfold dict_values. apply list_elem_of_fmap.
        exists (k, job). split; [reflexivity | apply dict_get_elem, Hget].
      * unfold retryable. rewrite Hst. simpl. apply Z.ltb_lt, Hlt.
  - unfold stored_job. rewrite Hf2. exact Hget.
Qed.

End Store.

(** ** A concrete store *)

(** Payloads are strings here; the empty one is falsy. *)
Definition text_truthy (s : string) : bool := negb (String.eqb s "").

(** A clock that starts on 2023-11-14T22:13:20 and advances by a
    millisecond per reading. *)
Definition sample_clock (n : nat) : Z := (1700000000000000 + 1000 * Z.of_nat n)%Z.

(** A parser that knows two time stamps: 2900 and 3700 seconds before the
    first clock reading. *)
Definition sample_fromisoformat (s : string) : option Z :=
  if String.eqb s "2023-11-14T21:25:00" then Some 1699997100000000%Z
  else if String.eqb s "2023-11-14T21:11:40" then Some 1699996300000000%Z
  else None.

Definition default_store : Store := {| settings := default_settings |}.

Definition sample_job (id : string) (s : JobStatus) (tries : Z) : @Job string :=
  {| job_id := id; job_data := "title: demo"; status := s;
     created_at := 1699990000000000; updated_at := 1699990000000000;
     attempts := tries; max_attempts := 3;
     last_error := None; diagnostics := [];
     current_step := None; start_time := None;
     end_time := None; export_metadata := None |}.

Definition sample_jobs : @JobsState string :=
  {| jobs_metadata :=
       {| meta_created_at := Some 1699990000000000%Z;
          meta_version := Some "1.0.0";
          total_jobs := Some 3%nat; last_updated := None |};
     jobs := [("job_001", sample_job "job_001" PENDING 0);
              ("job_002", sample_job "job_002" FAILED 1);
              ("job_003", sample_job "job_003" FAILED 3)] |}.

Definition sample_session (saved_at : option string) : SessionState :=
  {| session_last_updated := None;
     session :=
       {| last_state_saved_at := saved_at; session_valid := Some true;
          state_file_path := None; login_count := Some 1%Z;
          last_validation_at := None |} |}.

Definition sample_world (saved_at : option string) (can_write : bool) : @World string :=
  {| jobs_file := Some (Doc sample_jobs);
     jobs_backups := [];
     session_file := Some (Doc (sample_session saved_at));
     session_backups := [];
     writable := can_write;
     reads := 0;
     stdout := [] |}.

Lemma sample_jobs_wf : store_wf sample_jobs.
Proof.
  split.
  - simpl. repeat (apply NoDup_cons; split; [|]); try apply NoDup_nil_2;
      rewrite ?elem_of_cons, ?elem_of_nil; intuition congruence.
  - intros k j H. simpl in H.
    repeat (apply elem_of_cons in H as [[= -> ->]|H]; [reflexivity|]).
    inversion H.
Qed.

Lemma mark_in_progress_twice_witness :
  exists (w1 w2 : World) (job1 job2 : Job),
    mark_job_status text_truthy sample_clock default_store "job_001" IN_PROGRESS
      None (Some "starting") None (sample_world None true) = (Returned true, w1) /\
    mark_job_status text_truthy sample_clock default_store "job_001" IN_PROGRESS
      None (Some "starting") None w1 = (Returned true, w2) /\
    stored_job "job_001" w1 = Some job1 /\
    stored_job "job_001" w2 = Some job2 /\
    attempts job1 = 1%Z /\ attempts job2 = 2%Z /\
    start_time job1 = Some (sample_clock 1) /\
    start_time job2 = start_time job1.
Proof.
  destruct (mark_in_progress_twice text_truthy sample_clock default_store "job_001"
              None (Some "starting") None (Some "starting") None None
              (sample_world None true) (sample_job "job_001" PENDING 0))
    as [(w1 & w2 & job1 & job2 & H1 & H2 & S1 & S2 & A1 & A2 & T1 & _ & T2 & _) _];
    [reflexivity | reflexivity |].
  exists w1, w2, job1, job2.
  repeat (split; [assumption|]). split; [apply T1; reflexivity | exact T2].
Defined.

Lemma resume_failed_jobs_retryable_only_witness :
  exists (w' : World) (state' : JobsState),
    resume_failed_jobs text_truthy sample_clock default_store (sample_world None true)
      = (Returned ["job_002"], w') /\
    jobs_file w' = Some (Doc state') /\
    (exists job', dict_get "job_002" (jobs state') = Some job' /\
                  status job' = PENDING /\ attempts job' = 1%Z) /\
    dict_get "job_003" (jobs state') = Some (sample_job "job_003" FAILED 3) /\
    dict_get "job_001" (jobs state') = Some (sample_job "job_001" PENDING 0).
Proof.
  destruct (resume_failed_jobs_retryable_only text_truthy sample_clock default_store
              (sample_world None true) sample_jobs eq_refl sample_jobs_wf eq_refl)
    as (w' & state' & resumed & Hrun & -> & Hfile & _ & Hjobs).
  exists w', state'. split; [exact Hrun|]. split; [exact Hfile|].
  destruct (Hjobs "job_002" (sample_job "job_002" FAILED 1) eq_refl) as (H2 & _ & _).
  destruct (Hjobs "job_003" (sample_job "job_003" FAILED 3) eq_refl) as (_ & H3 & _).
  destruct (Hjobs "job_001" (sample_job "job_001" PENDING 0) eq_refl) as (_ & H1 & _).
  split.
  { destruct H2 as (_ & job' & Hget & Hst & _ & _ & Hatt & _);
      [reflexivity | reflexivity |].
    exists job'. split; [exact Hget|]. split; [exact Hst | exact Hatt]. }
  split; [apply H3; right; simpl; lia|].
  apply H1. left. discriminate.
Defined.






Lemma add_job_overwrites_witness :
  exists (w' : World) (fresh : Job),
    add_job sample_clock default_store "job_003" "title: again" (sample_world None true)
      = (Returned true, w') /\
    stored_job "job_003" w' = Some fresh /\
    status fresh = PENDING /\ attempts fresh = 0%Z /\
    start_time fresh = None /\ end_time fresh = None /\
    diagnostics fresh = [] /\ last_error fresh = None /\
    job_data fresh = "title: again" /\
    stored_job "job_002" w' = Some (sample_job "job_002" FAILED 1).
Proof.
  destruct (add_job_overwrites sample_clock default_store "job_003" "title: again"
              (sample_world None true) (sample_job "job_003" FAILED 3))
    as (w' & fresh & Hrun & Hst & _ & Hdata & Hs & Ha & Hstart & Hend & Hd & He & _
        & _ & _ & Hother & _);
    [reflexivity | reflexivity |].
  exists w', fresh.
  repeat (split; [assumption|]).
  rewrite (Hother "job_002"); [reflexivity | discriminate].
Defined.

Lemma mark_job_status_unknown_id_witness :
  exists w' : World,
    mark_job_status text_truthy sample_clock default_store "job_999" COMPLETED
      None None None (sample_world None true) = (Returned false, w') /\
    jobs_file w' = jobs_file (sample_world None true) /\
    jobs_backups w' = [].
Proof.
  destruct (mark_job_status_unknown_id text_truthy sample_clock default_store "job_999"
              COMPLETED None None None (sample_world None true))
    as (w' & Hrun & Hfile & Hbak & _); [reflexivity|].
  exists w'. repeat split; assumption.
Defined.

(** C7, at a failing input: the sample store in a state directory that
    refuses writes.  [add_job] returns [True], yet [jobs.json] is unchanged,
    has no backup, and [get_job] does not find the job. *)
Theorem add_job_returns_true_on_failed_write :
  let r := add_job sample_clock default_store "job_004" "title: new"
             (sample_world None false) in
  r.1 = Returned true /\
  jobs_file r.2 = jobs_file (sample_world None false) /\
  jobs_backups r.2 = [] /\
  (get_job "job_004" r.2).1 = Returned None.
Proof. vm_compute. repeat split; reflexivity. Qed.

(** ** The further properties on the concrete store *)

Lemma add_job_appends_witness :
  exists (w' : World) (state' : JobsState),
    add_job sample_clock default_store "job_004" "title: new" (sample_world None true)
      = (Returned true, w') /\
    jobs_file w' = Some (Doc state') /\
    dict_keys (jobs state') = ["job_001"; "job_002"; "job_003"; "job_004"] /\
    total_jobs (jobs_metadata state') = Some 4.
Proof.
  destruct (add_job_appends sample_clock default_store "job_004" "title: new"
              (sample_world None true) sample_jobs)
    as (w' & state' & H); [reflexivity | reflexivity | reflexivity |].
  cbv zeta in H. destruct H as (Hrun & Hfile & Hkeys & _ & Htotal & _).
  exists w', state'. split; [exact Hrun|]. split; [exact Hfile|].
  split; [rewrite Hkeys; reflexivity | rewrite Htotal; reflexivity].
Defined.

(** A state directory whose [jobs.json] is not valid JSON. *)
Definition garbled_world : @World string :=
  {| jobs_file := Some Garbled;
     jobs_backups := [];
     session_file := None;
     session_backups := [];
     writable := true;
     reads := 0;
     stdout := [] |}.

Lemma add_job_unreadable_file_witness :
  exists (w' : World) (state' : JobsState),
    add_job sample_clock default_store "job_001" "title: demo" garbled_world
      = (Returned true, w') /\
    jobs_file w' = Some (Doc state') /\
    dict_keys (jobs state') = ["job_001"].
Proof.
  destruct (add_job_unreadable_file sample_clock default_store "job_001" "title: demo"
              garbled_world)
    as (w' & state' & Hrun & Hfile & Hjobs & _);
    [intros state; discriminate | reflexivity |].
  exists w', state'. split; [exact Hrun|]. split; [exact Hfile|].
  rewrite Hjobs. reflexivity.
Defined.

Lemma mark_job_status_fields_witness :
  exists (w' : World) (job' : Job),
    mark_job_status text_truthy sample_clock default_store "job_001" FAILED
      (Some "timeout") (Some "") (Some "page: export") (sample_world None true)
      = (Returned true, w') /\
    stored_job "job_001" w' = Some job' /\
    last_error job' = Some "timeout" /\
    current_step job' = None /\
    length (diagnostics job') = 1.
Proof.
  destruct (mark_job_status_fields text_truthy sample_clock default_store "job_001" FAILED
              (Some "timeout") (Some "") (Some "page: export") (sample_world None true)
              (sample_job "job_001" PENDING 0))
    as (w' & job' & Hrun & Hst & _ & _ & _ & _ & _ & Herr & Hstep & Hdiag);
    [reflexivity | reflexivity |].
  exists w', job'. split; [exact Hrun|]. split; [exact Hst|].
  split; [exact Herr|]. split; [exact Hstep|].
  simpl in Hdiag. destruct Hdiag as (t & ->). reflexivity.
Defined.

Lemma mark_job_status_write_refused_witness :
  exists w' : World,
    mark_job_status text_truthy sample_clock default_store "job_001" COMPLETED
      None None None (sample_world None false) = (Returned true, w') /\
    stored_job "job_001" w' = Some (sample_job "job_001" PENDING 0).
Proof.
  destruct (mark_job_status_write_refused text_truthy sample_clock default_store
              "job_001" COMPLETED None None None (sample_world None false)
              (sample_job "job_001" PENDING 0))
    as (w' & Hrun & _ & _ & Hst); [reflexivity | reflexivity |].
  exists w'. split; assumption.
Defined.

Lemma read_only_updates_report_success_witness :
  (exists w', add_job sample_clock default_store "job_004" "title: new"
                (sample_world None false) = (Returned true, w') /\
              jobs_file w' = Some (Doc sample_jobs)) /\
  (exists w', update_session_state sample_clock (Some "2023-11-14T21:25:00") true None
                (sample_world None false) = (Returned true, w') /\
              session_file w' = Some (Doc (sample_session None))).
Proof.
  destruct (read_only_updates_report_success sample_clock default_store "job_004"
              "title: new" (Some "2023-11-14T21:25:00") None true
              (sample_world None false))
    as [(w1 & Hrun1 & Hj1 & _) (w2 & Hrun2 & _ & _ & Hs2 & _)]; [reflexivity|].
  split; [exists w1 | exists w2]; split; assumption.
Defined.

Lemma save_jobs_state_backups_witness :
  exists w' : World,
    _save_jobs_state sample_clock empty_jobs_state (sample_world None true)
      = (Returned tt, w') /\
    length (jobs_backups w') <= 5 /\
    last (jobs_backups w') = Some (1700000000%Z, Doc sample_jobs).
Proof.
  destruct (save_jobs_state_backups sample_clock empty_jobs_state
              (sample_world None true) (Doc sample_jobs))
    as (w' & H); [reflexivity | reflexivity |].
  cbv zeta in H. destruct H as (Hrun & Hlen & Hnew & _).
  exists w'. split; [exact Hrun|]. split; [exact Hlen|].
  apply Hnew. constructor.
Defined.

(** A store backed up once already in the second of the first clock
    reading. *)
Definition same_second_world : @World string :=
  {| jobs_file := Some (Doc sample_jobs);
     jobs_backups := [(1699999000%Z, Garbled); (1700000000%Z, Doc empty_jobs_state)];
     session_file := None;
     session_backups := [];
     writable := true;
     reads := 0;
     stdout := [] |}.

Lemma save_jobs_state_same_second_witness :
  exists w' : World,
    _save_jobs_state sample_clock empty_jobs_state same_second_world
      = (Returned tt, w') /\
    jobs_backups w' = [(1699999000%Z, Garbled); (1700000000%Z, Doc sample_jobs)].
Proof.
  destruct (save_jobs_state_same_second sample_clock empty_jobs_state same_second_world
              (Doc sample_jobs) (Doc empty_jobs_state) [(1699999000%Z, Garbled)])
    as (w' & Hrun & Hb & _).
  - reflexivity.
  - reflexivity.
  - reflexivity.
  - repeat constructor.
  - exists w'. split; [exact Hrun|]. rewrite Hb. reflexivity.
Defined.

Lemma get_jobs_by_status_partition_witness :
  exists by_status : JobStatus -> list Job,
    get_jobs_by_status FAILED (sample_world None true)
      = (Returned (by_status FAILED), sample_world None true) /\
    length (by_status PENDING) + length (by_status IN_PROGRESS)
      + length (by_status COMPLETED) + length (by_status FAILED)
      + length (by_status SKIPPED) + length (by_status RETRYING) = 3.
Proof.
  destruct (get_jobs_by_status_partition (sample_world None true) sample_jobs)
    as (by_status & Hrun & _ & Hsum & _); [reflexivity|].
  exists by_status. split; [apply Hrun | exact Hsum].
Defined.

Lemma update_session_state_then_ttl_witness :
  exists (w1 : World) (st1 : SessionState),
    update_session_state sample_clock None true None
      (sample_world (Some "2023-11-14T21:25:00") true) = (Returned true, w1) /\
    session_file w1 = Some (Doc st1) /\
    last_state_saved_at (session st1) = Some "2023-11-14T21:25:00" /\
    login_count (session st1) = Some 2%Z.
Proof.
  destruct (update_session_state_then_ttl sample_clock sample_fromisoformat default_store
              None None true (sample_world (Some "2023-11-14T21:25:00") true))
    as (w1 & st1 & H); [reflexivity|].
  cbv zeta in H. destruct H as (Hrun & Hfile & _ & _ & Hstamp & _ & Hcount & _).
  exists w1, st1. split; [exact Hrun|]. split; [exact Hfile|].
  split; [exact Hstamp | exact Hcount].
Defined.



Lemma get_job_statistics_consistent_witness :
  exists (stats : JobStatistics) (failed : list Job),
    get_job_statistics (sample_world None true)
      = (Returned (Some stats), sample_world None true) /\
    get_failed_jobs (sample_world None true) = (Returned failed, sample_world None true) /\
    stats_total_jobs stats = 3 /\
    stats_max_attempts_reached stats + length failed = stats_by_status stats FAILED.
Proof.
  destruct (get_job_statistics_consistent (sample_world None true) sample_jobs)
    as (stats & failed & Hrun & Hfailed & Htotal & _ & Hreached & _); [reflexivity|].
  exists stats, failed. split; [exact Hrun|]. split; [exact Hfailed|].
  split; [exact Htotal | exact Hreached].
Defined.

Lemma get_job_statistics_unreadable_witness :
  exists (stats : JobStatistics) (w1 : World),
    get_job_statistics garbled_world = (Returned (Some stats), w1) /\
    stats_total_jobs stats = 0 /\
    stats_average_duration stats = None.
Proof.
  destruct (get_job_statistics_unreadable "job_001" garbled_world)
    as (stats & w1 & w2 & Hrun & Htotal & _ & _ & _ & _ & Havg & _);
    [intros state; discriminate|].
  exists stats, w1. split; [exact Hrun|]. split; [exact Htotal | exact Havg].
Defined.


Lemma store_wf_invariant_witness :
  wf_world
    (mark_job_status text_truthy sample_clock default_store "job_002" RETRYING
       None None None (sample_world None true)).2.
Proof.
  destruct (store_wf_invariant text_truthy sample_clock (sample_world None true))
    as (_ & Hmark & _).
  - intros state [= <-]. exact sample_jobs_wf.
  - eapply Hmark. apply surjective_pairing.
Defined.

Lemma resume_failed_jobs_write_refused_witness :
  exists (w1 w2 : World),
    resume_failed_jobs text_truthy sample_clock default_store (sample_world None false)
      = (Returned ["job_002"], w1) /\
    resume_failed_jobs text_truthy sample_clock default_store w1
      = (Returned ["job_002"], w2) /\
    jobs_file w1 = Some (Doc sample_jobs).
Proof.
  destruct (resume_failed_jobs_write_refused text_truthy sample_clock default_store
              (sample_world None false) sample_jobs)
    as (w1 & w2 & resumed & Hrun1 & -> & Hf & _ & Hrun2 & _);
    [reflexivity | exact sample_jobs_wf | reflexivity |].
  exists w1, w2. split; [exact Hrun1|]. split; [exact Hrun2 | exact Hf].
Defined.

End StateStore.
